(** * Modbus register adapters for Anern and Deye inverters

    A shallow embedding of [anern.py] (class [AnernProtocol]) and
    [deye_protocol.py] (class [DeyeModbusProtocol]).

    - A number handed to [write_parameter] is a Python [int] or [float]
      ([pynum]): a [float] is a binary64 number, embedded as the rational
      it denotes, or an infinity or NaN, and [value / factor] and [int()]
      round, overflow and raise as Python's do.
    - A number returned by [read_parameter] is embedded as the exact
      rational [registers[0] * factor], with the factor as the dict
      spells it; the [float] that Python computes there is [py_mul].
    - Methods are computations in a state-and-exception monad [M]: the
      state holds the adapter object [self], the state of the outside
      world and the log of calls made on the pymodbus client.
    - The pymodbus client is an interface ([Transport]); every statement
      is proved for an arbitrary implementation of it.
    - Calls to [logger] have no effect on the adapter and are left out. *)

From Stdlib Require Import QArith Qabs Qround Qpower Lia Lqa.
From stdpp Require Import gmap strings list fin_maps pretty.

Open Scope Z_scope.

(** ** Python values *)

(** The exception classes that can arise; all derive from [Exception]. *)
Inductive exn : Type :=
| ModbusException
| IndexError
| AttributeError
| ZeroDivisionError
| OverflowError
| ValueError
| TypeError
| OtherException.

(** Outcome of evaluating an expression or a call. *)
Inductive Res (A : Type) : Type :=
| Ret (a : A)
| Raise (e : exn).
Arguments Ret {A} a.
Arguments Raise {A} e.

(** The ["value"] of a parameter: a number, or the [HH:MM:SS] text. *)
Inductive pyval : Type :=
| Num (q : Q)
| Str (s : string).

(** A [float]: a finite binary64 number, embedded as the rational it
    denotes, an infinity, or NaN. The sign of a zero is not kept. *)
Inductive pyfloat : Type :=
| Finite (x : Q)
| PosInf
| NegInf
| NaN.

(** A number: an [int], of any size, or a [float]. *)
Inductive pynum : Type :=
| PyInt (z : Z)
| PyFloat (x : pyfloat).

(** The rational a number denotes, when it is finite. *)
Definition number (n : pynum) : option Q :=
  match n with
  | PyInt z => Some (inject_Z z)
  | PyFloat (Finite x) => Some x
  | PyFloat _ => None
  end.

(** [round(x)] of Python 3 on a number: to the nearest integer, a tie going
    to the even neighbour. *)
Definition py_round (q : Q) : Z :=
  let lo := Qfloor q in
  let frac := (q - inject_Z lo)%Q in
  match (frac ?= 1#2)%Q with
  | Lt => lo
  | Gt => lo + 1
  | Eq => if Z.even lo then lo else lo + 1
  end.

(** Binary64 arithmetic: every operation returns the double nearest to the
    exact result, a tie going to the even significand (IEEE 754,
    round-to-nearest-even).

    [last_place n d] is the exponent of the last binary place of the
    doubles around [n/d]: the significand has 53 digits, and the exponent
    does not go below -1074, where the subnormal numbers lie. *)
Definition last_place (n d : positive) : Z :=
  let e := Z.log2 (Zpos n) - Z.log2 (Zpos d) - 53 in
  let e := if Qle_bool (2 ^ (e + 53)) (Zpos n # d) then e + 1 else e in
  Z.max e (-1074).

(** The multiple of [2 ^ last_place] nearest to [n/d]. *)
Definition nearest (n d : positive) : Q :=
  let e := last_place n d in
  (inject_Z (py_round ((Zpos n # d) / 2 ^ e)) * 2 ^ e)%Q.

(** The double nearest to a rational; beyond the largest double the
    result is an infinity. *)
Definition binary64 (q : Q) : pyfloat :=
  match Qnum q with
  | 0 => Finite 0
  | Zpos n => let r := nearest n (Qden q) in
              if Qle_bool (2 ^ 1024) r then PosInf else Finite (Qred r)
  | Zneg n => let r := nearest n (Qden q) in
              if Qle_bool (2 ^ 1024) r then NegInf else Finite (Qred (- r))
  end.

(** The unit roundoff [2^-53], and half the least positive double. *)
Definition unit_roundoff : Q := Eval vm_compute in (1 # 2 ^ 53)%Q.
Definition half_least : Q := (2 ^ (-1075))%Q.

(** A literal of the source: [1] is an [int], [0.1] is the double nearest
    to one tenth. *)
Definition py_literal (q : Q) : pynum :=
  if (Qden q =? 1)%positive then PyInt (Qnum q) else PyFloat (binary64 q).

(** The conversion of an operand to [float]: [OverflowError] for an [int]
    beyond the doubles. *)
Definition to_float (n : pynum) : Res pyfloat :=
  match n with
  | PyFloat x => Ret x
  | PyInt z =>
    match binary64 (inject_Z z) with
    | Finite r => Ret (Finite r)
    | _ => Raise OverflowError
    end
  end.

Definition is_zero (x : pyfloat) : bool :=
  match x with
  | Finite q => Qeq_bool q 0
  | _ => false
  end.

(** [x / y] on two [float]s, [y] not zero: no exception, an overflow gives
    an infinity. *)
Definition float_div (x y : pyfloat) : pyfloat :=
  match x, y with
  | NaN, _ | _, NaN => NaN
  | Finite a, Finite b => binary64 (a / b)
  | Finite _, _ => Finite 0
  | PosInf, Finite b => if Qle_bool 0 b then PosInf else NegInf
  | NegInf, Finite b => if Qle_bool 0 b then NegInf else PosInf
  | _, _ => NaN
  end.

(** [x * y] on two [float]s. *)
Definition float_mul (x y : pyfloat) : pyfloat :=
  match x, y with
  | NaN, _ | _, NaN => NaN
  | Finite a, Finite b => binary64 (a * b)
  | Finite a, PosInf | PosInf, Finite a =>
    if Qeq_bool a 0 then NaN else if Qle_bool 0 a then PosInf else NegInf
  | Finite a, NegInf | NegInf, Finite a =>
    if Qeq_bool a 0 then NaN else if Qle_bool 0 a then NegInf else PosInf
  | PosInf, PosInf | NegInf, NegInf => PosInf
  | _, _ => NegInf
  end.

(** [value / factor], true division. Two [int]s give the double nearest to
    their quotient, or [OverflowError]; otherwise both operands become
    [float]s. A zero divisor raises [ZeroDivisionError]. *)
Definition py_truediv (value factor : pynum) : Res pyfloat :=
  match value, factor with
  | PyInt a, PyInt b =>
    if b =? 0 then Raise ZeroDivisionError
    else match binary64 (inject_Z a / inject_Z b) with
         | Finite r => Ret (Finite r)
         | _ => Raise OverflowError
         end
  | _, _ =>
    match to_float value with
    | Raise e => Raise e
    | Ret x =>
      match to_float factor with
      | Raise e => Raise e
      | Ret y => if is_zero y then Raise ZeroDivisionError
                 else Ret (float_div x y)
      end
    end
  end.

(** [registers[0] * factor] in Python arithmetic: an [int] when the factor
    is one, else the [float] product. *)
Definition py_mul (r : Z) (factor : pynum) : Res pynum :=
  match factor with
  | PyInt b => Ret (PyInt (r * b))
  | PyFloat y =>
    match to_float (PyInt r) with
    | Raise e => Raise e
    | Ret x => Ret (PyFloat (float_mul x y))
    end
  end.

(** [int(x)] on a finite [float]: truncation toward zero. *)
Definition py_int (q : Q) : Z :=
  if Qle_bool 0 q then Qfloor q else Qceiling q.

(** [int(x)] on a [float]: [OverflowError] for an infinity, [ValueError]
    for NaN. *)
Definition int_of_float (x : pyfloat) : Res Z :=
  match x with
  | Finite q => Ret (py_int q)
  | PosInf | NegInf => Raise OverflowError
  | NaN => Raise ValueError
  end.

(** [int(value / factor)] *)
Definition py_register_value (value factor : pynum) : Res Z :=
  match py_truediv value factor with
  | Raise e => Raise e
  | Ret q => int_of_float q
  end.

(** [v > 0]; comparing a [str] with an [int] raises [TypeError]. *)
Definition py_gt0 (v : pyval) : Res bool :=
  match v with
  | Num q => Ret (negb (Qle_bool q 0))
  | Str _ => Raise TypeError
  end.

(** [registers[i]]: [IndexError] when out of range. *)
Definition py_index (registers : list Z) (i : nat) : Res Z :=
  match registers !! i with
  | Some r => Ret r
  | None => Raise IndexError
  end.

(** [f"{n:02d}"]: decimal, zero-padded to width two (the sign counts). *)
Definition format_02d (n : Z) : string :=
  let s := pretty n in
  if (String.length s <? 2)%nat then String.append "0" s else s.

(** [str.lower()] on ASCII text. *)
Definition lower_ascii (a : Ascii.ascii) : Ascii.ascii :=
  let n := Ascii.nat_of_ascii a in
  if ((65 <=? n) && (n <=? 90))%nat then Ascii.ascii_of_nat (n + 32) else a.

Fixpoint lower (s : string) : string :=
  match s with
  | EmptyString => EmptyString
  | String a s' => String (lower_ascii a) (lower s')
  end.

(** ** Register descriptors and configuration *)

(** One entry of a [REGISTER_MAP]. *)
Record RegisterInfo : Type := mkReg {
  address : Z;
  size : Z;
  factor : Q;
  unit : string
}.

(** The dict returned by [read_parameter]. *)
Record ParameterValue : Type := mkParam {
  value : pyval;
  p_unit : string
}.

(** An entry of the dict built by [get_status]: a parameter dict, or the
    boolean stored under ["has_errors"]. *)
Inductive status_entry : Type :=
| Param (p : ParameterValue)
| Flag (b : bool).

(** The [config] dict: the keys read by [__init__]; a missing key is [None].
    The remaining keys (port, baudrate, host, ...) are only handed on to
    the pymodbus constructors. *)
Record Config : Type := mkConfig {
  cfg_unit_id : option Z;
  cfg_connection_type : option string;
  cfg_timeout : option Q;
  cfg_retries : option Z;
  cfg_port : option string;
  cfg_host : option string
}.

(** [config.get(key, dflt)]. *)
Definition get {A} (field : option A) (dflt : A) : A := default dflt field.

(** ** The pymodbus client *)

(** A client object is identified by a handle. *)
Definition Client : Type := nat.

(** A response object: [isError()] and, for a good read, [registers]. *)
Record Response : Type := mkResponse {
  isError : bool;
  registers : list Z
}.

(** The calls the adapters make on pymodbus, over a world state [W].
    Constructors, [connect], reads and writes may raise; [close] does not. *)
Class Transport (W : Type) : Type := {
  ModbusSerialClient : Config -> Q -> W -> Res Client * W;
  ModbusTcpClient : Config -> Q -> W -> Res Client * W;
  client_connect : Client -> W -> Res bool * W;
  client_close : Client -> W -> W;
  client_read_holding_registers : Client -> Z -> Z -> Z -> W -> Res Response * W;
  client_write_register : Client -> Z -> Z -> Z -> W -> Res Response * W
}.

(** The calls observed on the transport, and the cool-down sleeps. *)
Inductive event : Type :=
| EvNewSerial
| EvNewTcp
| EvConnect (c : Client)
| EvClose (c : Client)
| EvRead (c : Client) (addr count unit_id : Z)
| EvWrite (c : Client) (addr val unit_id : Z)
| EvSleep.

(** ** The adapter object and the monad of its methods *)

(** The attributes set by [__init__]. *)
Record Adapter : Type := mkAdapter {
  config : Config;
  client : option Client;
  is_connected : bool;
  unit_id : Z;
  connection_type : string;
  timeout : Q;
  retries : Z
}.

Record St (W : Type) : Type := mkSt {
  self : Adapter;
  world : W;
  trace : list event
}.
Arguments mkSt {W} self world trace.
Arguments self {W} s.
Arguments world {W} s.
Arguments trace {W} s.

Definition M (W A : Type) : Type := St W -> Res A * St W.

Definition ret {W A} (a : A) : M W A := fun st => (Ret a, st).

Definition raise {W A} (e : exn) : M W A := fun st => (Raise e, st).

Definition bind {W A B} (m : M W A) (k : A -> M W B) : M W B :=
  fun st =>
    match m st with
    | (Ret a, st') => k a st'
    | (Raise e, st') => (Raise e, st')
    end.

(** [try: m except Exception as e: ...]: the outcome of [m] is handed to
    the continuation; the effects of [m] stay. *)
Definition try {W A} (m : M W A) : M W (Res A) :=
  fun st => let (r, st') := m st in (Ret r, st').

Definition lift {W A} (r : Res A) : M W A := fun st => (r, st).

Declare Scope py_scope.
Delimit Scope py_scope with py.
Notation "x <- m ;; k" := (bind m (fun x => k))
  (at level 100, m at next level, right associativity) : py_scope.
Notation "m ;;; k" := (bind m (fun _ => k))
  (at level 100, right associativity) : py_scope.
Open Scope py_scope.

(** ** The connection and the retried transactions

    [__init__], [connect], [disconnect], [read_register] and
    [write_register] have the same text in both classes (only the log
    messages differ) and are embedded once. *)

Definition set_client (c : Client) (a : Adapter) : Adapter :=
  mkAdapter (config a) (Some c) (is_connected a) (unit_id a)
            (connection_type a) (timeout a) (retries a).

Definition set_is_connected (b : bool) (a : Adapter) : Adapter :=
  mkAdapter (config a) (client a) b (unit_id a)
            (connection_type a) (timeout a) (retries a).

(** [__init__(self, config)] *)
Definition __init__ (config : Config) : Adapter :=
  {| config := config;
     client := None;
     is_connected := false;
     unit_id := get (cfg_unit_id config) 1;
     connection_type := get (cfg_connection_type config) "serial";
     timeout := get (cfg_timeout config) 1%Q;
     retries := get (cfg_retries config) 3 |}.

Section Session.
Context {W : Type} `{Transport W}.

(** Reading [self]. *)
Definition get_self : M W Adapter := fun st => (Ret (self st), st).

(** Assigning an attribute of [self]. *)
Definition modify (f : Adapter -> Adapter) : M W ()%type :=
  fun st => (Ret tt, mkSt (f (self st)) (world st) (trace st)).

(** A call on pymodbus: logged, then answered by the transport. *)
Definition call {A} (ev : event) (op : W -> Res A * W) : M W A :=
  fun st =>
    let (r, w') := op (world st) in
    (r, mkSt (self st) w' (trace st ++ [ev])).

(** [time.sleep(0.1)] *)
Definition sleep : M W ()%type :=
  fun st => (Ret tt, mkSt (self st) (world st) (trace st ++ [EvSleep])).

(** [self.client.<method>(...)]: an absent client has no attributes. *)
Definition with_client {A} (k : Client -> M W A) : M W A :=
  a <- get_self ;;
  match client a with
  | Some c => k c
  | None => raise AttributeError
  end.

(** [connect(self)] *)
Definition connect : M W bool :=
  r <- try (
    a <- get_self ;;
    (if String.eqb (lower (connection_type a)) "serial"
     then c <- call EvNewSerial (ModbusSerialClient (config a) (timeout a)) ;;
          modify (set_client c)
     else c <- call EvNewTcp (ModbusTcpClient (config a) (timeout a)) ;;
          modify (set_client c)) ;;;
    ok <- with_client (fun c => call (EvConnect c) (client_connect c)) ;;
    if ok : bool
    then modify (set_is_connected true) ;;; ret true
    else modify (set_is_connected false) ;;; ret false) ;;
  match r with
  | Ret b => ret b
  | Raise _ => modify (set_is_connected false) ;;; ret false
  end.

(** [disconnect(self)] *)
Definition disconnect : M W bool :=
  a <- get_self ;;
  if match client a with Some _ => is_connected a | None => false end
  then with_client (fun c => call (EvClose c) (fun w => (Ret tt, client_close c w))) ;;;
       modify (set_is_connected false) ;;;
       ret true
  else ret false.

(** [not self.is_connected and not self.connect()] *)
Definition cannot_connect : M W bool :=
  a <- get_self ;;
  if is_connected a then ret false
  else ok <- connect ;; ret (negb ok).

(** The loop [for attempt in range(n)] of [read_register]. *)
Fixpoint read_attempts (n : nat) (address count : Z) : M W (option (list Z)) :=
  match n with
  | O => ret None
  | S n' =>
    r <- try (with_client (fun c =>
                a <- get_self ;;
                call (EvRead c address count (unit_id a))
                     (client_read_holding_registers c address count (unit_id a)))) ;;
    match r with
    | Ret response =>
      if isError response
      then read_attempts n' address count
      else ret (Some (registers response))
    | Raise _ => sleep ;;; read_attempts n' address count
    end
  end.

(** [read_register(self, address, count)] *)
Definition read_register (address count : Z) : M W (option (list Z)) :=
  failed <- cannot_connect ;;
  if failed : bool then ret None
  else a <- get_self ;;
       read_attempts (Z.to_nat (retries a)) address count.

(** The loop [for attempt in range(n)] of [write_register]. *)
Fixpoint write_attempts (n : nat) (address val : Z) : M W bool :=
  match n with
  | O => ret false
  | S n' =>
    r <- try (with_client (fun c =>
                a <- get_self ;;
                call (EvWrite c address val (unit_id a))
                     (client_write_register c address val (unit_id a)))) ;;
    match r with
    | Ret response =>
      if isError response
      then write_attempts n' address val
      else ret true
    | Raise _ => sleep ;;; write_attempts n' address val
    end
  end.

(** [write_register(self, address, value)] *)
Definition write_register (address val : Z) : M W bool :=
  failed <- cannot_connect ;;
  if failed : bool then ret false
  else a <- get_self ;;
       write_attempts (Z.to_nat (retries a)) address val.

End Session.

(** ** Parameter access shared by the two classes

    [write_parameter], the numeric branches of [read_parameter], the first
    loop of [get_status] and the [set_*] methods have the same text in both
    classes; they are embedded once, over the class attribute
    [REGISTER_MAP] and the tables of labels. *)

Section Facade.
Context {W : Type} `{Transport W}.
Variable REGISTER_MAP : gmap string RegisterInfo.

(** The branches [if size == 1: ... elif size == 2: ... else: ...]. *)
Definition standard_value (size : Z) (factor : Q) (registers : list Z)
  : M W pyval :=
  if size =? 1 then
    r0 <- lift (py_index registers 0) ;;
    ret (Num (inject_Z r0 * factor))
  else if size =? 2 then
    r0 <- lift (py_index registers 0) ;;
    r1 <- lift (py_index registers 1) ;;
    ret (Num (inject_Z (Z.lor (Z.shiftl r0 16) r1) * factor))
  else
    r0 <- lift (py_index registers 0) ;;
    ret (Num (inject_Z r0 * factor)).

(** [write_parameter(self, parameter_name, value)] *)
Definition write_parameter (parameter_name : string) (value : pynum)
  : M W bool :=
  match REGISTER_MAP !! parameter_name with
  | None => ret false
  | Some register_info =>
    let address := address register_info in
    let factor := py_literal (factor register_info) in
    register_value <- lift (py_register_value value factor) ;;
    write_register address register_value
  end.

(** [for param in parameters: result = self.read_parameter(param); ...] *)
Fixpoint read_headlines
    (read_parameter : string -> M W (option ParameterValue))
    (parameters : list string) (status : gmap string status_entry)
  : M W (gmap string status_entry) :=
  match parameters with
  | [] => ret status
  | param :: rest =>
    result <- read_parameter param ;;
    match result with
    | Some r => read_headlines read_parameter rest (<[param := Param r]> status)
    | None => read_headlines read_parameter rest status
    end
  end.

(** [set_mode], [set_charge_priority], [set_output_priority]: look the
    label up in [table], then write the parameter [target]. *)
Definition set_enumerated (table : gmap string Z) (target label : string)
  : M W bool :=
  match table !! label with
  | Some code => write_parameter target (PyInt code)
  | None => ret false
  end.

End Facade.

(** ** Class [AnernProtocol] *)

Module Anern.

Definition REGISTER_ENTRIES : list (string * RegisterInfo) :=
  [ ("status", mkReg 0x0000 1 1 "");
    ("operation_mode", mkReg 0x0001 1 1 "");
    ("grid_voltage", mkReg 0x0100 1 (1#10) "V");
    ("grid_frequency", mkReg 0x0101 1 (1#100) "Hz");
    ("output_voltage", mkReg 0x0102 1 (1#10) "V");
    ("output_frequency", mkReg 0x0103 1 (1#100) "Hz");
    ("output_power", mkReg 0x0104 1 1 "W");
    ("output_current", mkReg 0x0105 1 (1#10) "A");
    ("load_percent", mkReg 0x0106 1 1 "%");
    ("bus_voltage", mkReg 0x0110 1 (1#10) "V");
    ("pv_voltage", mkReg 0x0111 1 (1#10) "V");
    ("pv_charging_current", mkReg 0x0112 1 (1#10) "A");
    ("pv_power", mkReg 0x0113 1 1 "W");
    ("battery_voltage", mkReg 0x0114 1 (1#10) "V");
    ("battery_current", mkReg 0x0115 1 (1#10) "A");
    ("battery_temperature", mkReg 0x0116 1 1 "°C");
    ("inverter_temperature", mkReg 0x0117 1 1 "°C");
    ("ambient_temperature", mkReg 0x0118 1 1 "°C");
    ("battery_soc", mkReg 0x0120 1 1 "%");
    ("error_flags_1", mkReg 0x0200 1 1 "");
    ("error_flags_2", mkReg 0x0201 1 1 "");
    ("max_charging_current", mkReg 0x0300 1 1 "A");
    ("max_ac_charging_current", mkReg 0x0301 1 1 "A");
    ("max_pv_charging_current", mkReg 0x0302 1 1 "A");
    ("charge_source_priority", mkReg 0x0303 1 1 "");
    ("output_source_priority", mkReg 0x0304 1 1 "");
    ("battery_cutoff_voltage", mkReg 0x0305 1 (1#10) "V");
    ("battery_reconnect_voltage", mkReg 0x0306 1 (1#10) "V") ].

Definition REGISTER_MAP : gmap string RegisterInfo :=
  list_to_map REGISTER_ENTRIES.

Definition OPERATION_MODES : gmap string Z :=
  list_to_map
    [ ("STANDBY", 0); ("LINE_MODE", 1); ("BATTERY_MODE", 2);
      ("FAULT_MODE", 3); ("OFF_GRID_MODE", 4); ("BYPASS_MODE", 5);
      ("SELF_TEST_MODE", 6) ].

Definition CHARGE_PRIORITIES : gmap string Z :=
  list_to_map [ ("PV_FIRST", 0); ("PV_AND_UTILITY", 1); ("ONLY_PV", 2) ].

Definition OUTPUT_PRIORITIES : gmap string Z :=
  list_to_map
    [ ("UTILITY_FIRST", 0); ("SOLAR_FIRST", 1); ("SOLAR_AND_UTILITY", 2);
      ("ONLY_SOLAR", 3) ].

(** The list [parameters] of [get_status]. *)
Definition parameters : list string :=
  [ "operation_mode"; "grid_voltage"; "output_voltage"; "output_power";
    "pv_voltage"; "pv_power"; "battery_voltage"; "battery_current";
    "battery_soc"; "inverter_temperature" ].

Section Methods.
Context {W : Type} `{Transport W}.

(** [read_parameter(self, parameter_name)] *)
Definition read_parameter (parameter_name : string)
  : M W (option ParameterValue) :=
  match REGISTER_MAP !! parameter_name with
  | None => ret None
  | Some register_info =>
    let address := address register_info in
    let size := size register_info in
    let factor := factor register_info in
    let unit := unit register_info in
    registers <- read_register address size ;;
    match registers with
    | None => ret None
    | Some registers =>
      r <- try (
        value <- standard_value size factor registers ;;
        ret (Some (mkParam value unit))) ;;
      match r with
      | Ret result => ret result
      | Raise _ => ret None
      end
    end
  end.

(** [write_parameter(self, parameter_name, value)] *)
Definition write_parameter : string -> pynum -> M W bool :=
  write_parameter REGISTER_MAP.

(** [if flags and flags["value"] > 0: status["has_errors"] = True;
    status[key] = flags] *)
Definition add_error_flags (key : string) (flags : option ParameterValue)
    (status : gmap string status_entry) : M W (gmap string status_entry) :=
  match flags with
  | None => ret status
  | Some p =>
    positive <- lift (py_gt0 (value p)) ;;
    if positive : bool
    then ret (<[key := Param p]> (<["has_errors" := Flag true]> status))
    else ret status
  end.

(** [get_status(self)] *)
Definition get_status : M W (gmap string status_entry) :=
  status <- read_headlines read_parameter parameters ∅ ;;
  error_flags_1 <- read_parameter "error_flags_1" ;;
  error_flags_2 <- read_parameter "error_flags_2" ;;
  status <- add_error_flags "error_flags_1" error_flags_1 status ;;
  status <- add_error_flags "error_flags_2" error_flags_2 status ;;
  ret status.

Definition set_mode (mode : string) : M W bool :=
  set_enumerated REGISTER_MAP OPERATION_MODES "operation_mode" mode.

Definition set_charge_priority (priority : string) : M W bool :=
  set_enumerated REGISTER_MAP CHARGE_PRIORITIES "charge_source_priority" priority.

Definition set_output_priority (priority : string) : M W bool :=
  set_enumerated REGISTER_MAP OUTPUT_PRIORITIES "output_source_priority" priority.

Definition set_max_charging_current (current : pynum) : M W bool :=
  write_parameter "max_charging_current" current.

Definition set_battery_cutoff_voltage (voltage : pynum) : M W bool :=
  write_parameter "battery_cutoff_voltage" voltage.

End Methods.

End Anern.

(** ** Class [DeyeModbusProtocol] *)

Module Deye.

Definition REGISTER_ENTRIES : list (string * RegisterInfo) :=
  [ ("grid_voltage", mkReg 0x0004 1 (1#10) "V");
    ("grid_current", mkReg 0x0005 1 (1#10) "A");
    ("grid_power", mkReg 0x0006 1 1 "W");
    ("pv1_voltage", mkReg 0x0007 1 (1#10) "V");
    ("pv1_current", mkReg 0x0008 1 (1#10) "A");
    ("pv1_power", mkReg 0x0009 1 1 "W");
    ("pv2_voltage", mkReg 0x000A 1 (1#10) "V");
    ("pv2_current", mkReg 0x000B 1 (1#10) "A");
    ("pv2_power", mkReg 0x000C 1 1 "W");
    ("battery_voltage", mkReg 0x0011 1 (1#10) "V");
    ("battery_current", mkReg 0x0012 1 (1#10) "A");
    ("battery_power", mkReg 0x0013 1 1 "W");
    ("battery_soc", mkReg 0x0014 1 1 "%");
    ("load_voltage", mkReg 0x0015 1 (1#10) "V");
    ("load_current", mkReg 0x0016 1 (1#10) "A");
    ("load_power", mkReg 0x0017 1 1 "W");
    ("inverter_temperature", mkReg 0x0018 1 1 "°C");
    ("operation_mode", mkReg 0x0100 1 1 "");
    ("charge_source_priority", mkReg 0x0101 1 1 "");
    ("output_source_priority", mkReg 0x0102 1 1 "");
    ("max_charging_current", mkReg 0x0103 1 1 "A");
    ("max_ac_charging_current", mkReg 0x0104 1 1 "A");
    ("battery_type", mkReg 0x0105 1 1 "");
    ("float_charging_voltage", mkReg 0x0106 1 (1#10) "V");
    ("bulk_charging_voltage", mkReg 0x0107 1 (1#10) "V");
    ("battery_cutoff_voltage", mkReg 0x0108 1 (1#10) "V");
    ("max_parallel_units", mkReg 0x0109 1 1 "");
    ("machine_type", mkReg 0x010A 1 1 "");
    ("topology", mkReg 0x010B 1 1 "");
    ("output_model_setting", mkReg 0x010C 1 1 "");
    ("solar_power_priority", mkReg 0x010D 1 1 "");
    ("mppt_strings", mkReg 0x010E 1 1 "");
    ("machine_model", mkReg 0x010F 1 1 "");
    ("ac_input_voltage_range", mkReg 0x0110 1 1 "");
    ("output_voltage", mkReg 0x0111 1 (1#10) "V");
    ("output_frequency", mkReg 0x0112 1 (1#10) "Hz");
    ("battery_reconnect_voltage", mkReg 0x0113 1 (1#10) "V");
    ("battery_under_voltage_alarm", mkReg 0x0114 1 (1#10) "V");
    ("discharge_limit_current", mkReg 0x0115 1 1 "A");
    ("battery_equalization_enable", mkReg 0x0116 1 1 "");
    ("battery_equalization_voltage", mkReg 0x0117 1 (1#10) "V");
    ("battery_equalization_time", mkReg 0x0118 1 1 "min");
    ("battery_equalization_timeout", mkReg 0x0119 1 1 "min");
    ("battery_equalization_interval", mkReg 0x011A 1 1 "day");
    ("battery_equalization_boost", mkReg 0x011B 1 1 "");
    ("pv_day_energy", mkReg 0x0200 1 (1#10) "kWh");
    ("pv_month_energy", mkReg 0x0201 1 (1#10) "kWh");
    ("pv_year_energy", mkReg 0x0202 1 (1#10) "kWh");
    ("pv_total_energy", mkReg 0x0203 2 (1#10) "kWh");
    ("today_energy", mkReg 0x0205 1 (1#10) "kWh");
    ("month_energy", mkReg 0x0206 1 (1#10) "kWh");
    ("year_energy", mkReg 0x0207 1 (1#10) "kWh");
    ("total_energy", mkReg 0x0208 2 (1#10) "kWh");
    ("co2_reduction", mkReg 0x020A 2 (1#10) "t");
    ("net_current", mkReg 0x020C 1 (1#10) "A");
    ("time_now", mkReg 0x020D 3 1 "");
    ("error_codes", mkReg 0x0300 4 1 "");
    ("warning_codes", mkReg 0x0304 4 1 "") ].

Definition REGISTER_MAP : gmap string RegisterInfo :=
  list_to_map REGISTER_ENTRIES.

Definition OPERATION_MODES : gmap string Z :=
  list_to_map
    [ ("POWER_ON", 0); ("STANDBY", 1); ("BYPASS", 2); ("BATTERY", 3);
      ("FAULT", 4); ("HYBRID", 5); ("CHARGE", 6) ].

Definition CHARGE_PRIORITIES : gmap string Z :=
  list_to_map
    [ ("SOLAR_FIRST", 0); ("GRID_FIRST", 1); ("SOLAR_AND_GRID", 2);
      ("ONLY_SOLAR", 3) ].

Definition OUTPUT_PRIORITIES : gmap string Z :=
  list_to_map [ ("GRID_FIRST", 0); ("SOLAR_FIRST", 1); ("SBU_PRIORITY", 2) ].

(** The list [parameters] of [get_status]. *)
Definition parameters : list string :=
  [ "grid_voltage"; "grid_power";
    "pv1_voltage"; "pv1_power";
    "pv2_voltage"; "pv2_power";
    "battery_voltage"; "battery_soc"; "battery_power";
    "load_voltage"; "load_power";
    "inverter_temperature"; "operation_mode" ].

(** [parameter_name == "error_codes" or parameter_name == "warning_codes"] *)
Definition is_bitmask (parameter_name : string) : bool :=
String.eqb parameter_name "error_codes"
|| String.eqb parameter_name "warning_codes".

(** [value = 0; for i, reg in enumerate(registers): value |= reg << (i * 16)],
    entered at index [i] with the bits gathered so far. *)
Fixpoint bitmask (i : Z) (value : Z) (registers : list Z) : Z :=
  match registers with
  | [] => value
  | reg :: rest => bitmask (i + 1) (Z.lor value (Z.shiftl reg (i * 16))) rest
  end.

Section Methods.
Context {W : Type} `{Transport W}.

(** [read_parameter(self, parameter_name)] *)
Definition read_parameter (parameter_name : string)
  : M W (option ParameterValue) :=
  match REGISTER_MAP !! parameter_name with
  | None => ret None
  | Some register_info =>
    let address := address register_info in
    let size := size register_info in
    let factor := factor register_info in
    let unit := unit register_info in
    registers <- read_register address size ;;
    match registers with
    | None => ret None
    | Some registers =>
      r <- try (
        if String.eqb parameter_name "time_now" then
          hours <- lift (py_index registers 0) ;;
          minutes <- lift (py_index registers 1) ;;
          seconds <- lift (py_index registers 2) ;;
          ret (Some (mkParam
                 (Str (String.append (format_02d hours)
                      (String.append ":"
                      (String.append (format_02d minutes)
                      (String.append ":" (format_02d seconds))))))
                 ""))
        else if is_bitmask parameter_name then
          let value := bitmask 0 0 registers in
          ret (Some (mkParam (Num (inject_Z value)) unit))
        else
          value <- standard_value size factor registers ;;
          ret (Some (mkParam value unit))) ;;
      match r with
      | Ret result => ret result
      | Raise _ => ret None
      end
    end
  end.

(** [write_parameter(self, parameter_name, value)] *)
Definition write_parameter : string -> pynum -> M W bool :=
  write_parameter REGISTER_MAP.

(** [if codes and codes["value"] > 0: status[key] = codes] *)
Definition add_codes (key : string) (codes : option ParameterValue)
    (status : gmap string status_entry) : M W (gmap string status_entry) :=
  match codes with
  | None => ret status
  | Some p =>
    positive <- lift (py_gt0 (value p)) ;;
    if positive : bool
    then ret (<[key := Param p]> status)
    else ret status
  end.

(** [get_status(self)] *)
Definition get_status : M W (gmap string status_entry) :=
  status <- read_headlines read_parameter parameters ∅ ;;
  error_codes <- read_parameter "error_codes" ;;
  warning_codes <- read_parameter "warning_codes" ;;
  status <- add_codes "errors" error_codes status ;;
  status <- add_codes "warnings" warning_codes status ;;
  ret status.

Definition set_mode (mode : string) : M W bool :=
  set_enumerated REGISTER_MAP OPERATION_MODES "operation_mode" mode.

Definition set_charge_priority (priority : string) : M W bool :=
  set_enumerated REGISTER_MAP CHARGE_PRIORITIES "charge_source_priority" priority.

Definition set_output_priority (priority : string) : M W bool :=
  set_enumerated REGISTER_MAP OUTPUT_PRIORITIES "output_source_priority" priority.

Definition set_max_charging_current (current : pynum) : M W bool :=
  write_parameter "max_charging_current" current.

Definition set_battery_cutoff_voltage (voltage : pynum) : M W bool :=
  write_parameter "battery_cutoff_voltage" voltage.

End Methods.

End Deye.

(** ** What is observed and what is kept *)

(** The register transactions among the logged calls. *)
Definition is_transaction (e : event) : bool :=
  match e with
  | EvRead _ _ _ _ | EvWrite _ _ _ _ => true
  | _ => false
  end.

Definition transactions (tr : list event) : list event :=
  List.filter is_transaction tr.

(** A transaction attempt fails when the call raises or when the response
    reports an error. *)
Definition failed (r : Res Response) : bool :=
  match r with
  | Ret response => isError response
  | Raise _ => true
  end.

(** The invariant of the session: a connected adapter holds a client. *)
Definition session_ok (a : Adapter) : Prop :=
  is_connected a = true -> is_Some (client a).

(** [keeps P m]: running [m] preserves the property [P] of [self]. *)
Definition keeps {W A} (P : Adapter -> Prop) (m : M W A) : Prop :=
  forall st, P (self st) -> P (self (m st).2).

(** Every attribute but [client] and [is_connected]. *)
Definition same_settings (a b : Adapter) : Prop :=
  config a = config b /\ unit_id a = unit_id b /\
  connection_type a = connection_type b /\ timeout a = timeout b /\
  retries a = retries b.

(** The constructor call that [connect] makes for the adapter [a]. *)
Definition constructor_call {W : Type} `{Transport W} (a : Adapter)
  : W -> Res Client * W :=
  if String.eqb (lower (connection_type a)) "serial"
  then ModbusSerialClient (config a) (timeout a)
  else ModbusTcpClient (config a) (timeout a).

(** Starting from the world [w], the next [n] attempts of the given read
    all fail. *)
Fixpoint reads_fail {W : Type} `{Transport W} (n : nat) (c : Client)
    (address count u : Z) (w : W) : Prop :=
  match n with
  | O => True
  | S n' =>
    failed (client_read_holding_registers c address count u w).1 = true /\
    reads_fail n' c address count u
               (client_read_holding_registers c address count u w).2
  end.

(** Starting from the world [w], the next [n] attempts of the given write
    all fail. *)
Fixpoint writes_fail {W : Type} `{Transport W} (n : nat) (c : Client)
    (address val u : Z) (w : W) : Prop :=
  match n with
  | O => True
  | S n' =>
    failed (client_write_register c address val u w).1 = true /\
    writes_fail n' c address val u
                (client_write_register c address val u w).2
  end.

(** The rule for an error or warning entry of [get_status]: given what
    reading the field returned, the entry under [key] is absent when the
    read failed or the value is zero, is the reading when the value is
    positive, and is never present with a zero value. *)
Definition reported_iff_positive (status : gmap string status_entry)
    (key : string) (reading : option ParameterValue) : Prop :=
  match reading with
  | None => status !! key = None
  | Some p =>
    exists q, value p = Num q /\
      ((q == 0)%Q -> status !! key = None) /\
      ((0 < q)%Q -> status !! key = Some (Param p)) /\
      (is_Some (status !! key) -> ~ (q == 0)%Q)
  end.

(** The encoding the specification words: [round(value / scale)]. *)
Definition spec_encode (scale value : Q) : Z := py_round (value / scale).

(** The factors of the two maps: the literals [1], [0.1] and [0.01]. *)
Definition known_factor (f : Q) : Prop :=
  f = 1%Q \/ f = (1#10)%Q \/ f = (1#100)%Q.

(** A factor as the dict spells it, and the number the division and the
    product work with: one, or the double nearest to the decimal. *)
Definition factor_pair (f F : Q) : Prop :=
  (f = 1%Q /\ F = 1%Q) \/
  (f = (1#10)%Q /\ F = (3602879701896397 # 36028797018963968)%Q) \/
  (f = (1#100)%Q /\ F = (5764607523034235 # 576460752303423488)%Q).

(** The share of the scale, [2^-32], that the roundings of a written and
    read back word stay below. *)
Definition rounding_slack : Q := Eval vm_compute in (1 # 2 ^ 32)%Q.

(** A label of the table, written to a parameter of the map, does not
    raise when the register value of its code has a value. *)
Definition writable_label (REGISTER_MAP : gmap string RegisterInfo)
    (table : gmap string Z) (target label : string) : Prop :=
  exists code d word,
    table !! label = Some code /\ REGISTER_MAP !! target = Some d /\
    py_register_value (PyInt code) (py_literal (factor d)) = Ret word.

(** ** Two transports to run the adapters on *)

(** A scripted line: the answers to the successive [connect], read and
    write calls are listed in advance; when a list is used up, [connect]
    succeeds and transactions get an error response. Constructors hand out
    consecutive handles. *)
Module Scripted.

Record World : Type := mkWorld {
  connects : list (Res bool);
  reads : list (Res Response);
  writes : list (Res Response);
  next_client : Client;
  closed : list Client
}.

Definition new_client (w : World) : Res Client * World :=
  (Ret (next_client w),
   mkWorld (connects w) (reads w) (writes w) (S (next_client w)) (closed w)).

Definition do_connect (w : World) : Res bool * World :=
  match connects w with
  | [] => (Ret true, w)
  | r :: rest =>
    (r, mkWorld rest (reads w) (writes w) (next_client w) (closed w))
  end.

Definition do_close (c : Client) (w : World) : World :=
  mkWorld (connects w) (reads w) (writes w) (next_client w) (c :: closed w).

Definition do_read (w : World) : Res Response * World :=
  match reads w with
  | [] => (Ret (mkResponse true []), w)
  | r :: rest =>
    (r, mkWorld (connects w) rest (writes w) (next_client w) (closed w))
  end.

Definition do_write (w : World) : Res Response * World :=
  match writes w with
  | [] => (Ret (mkResponse true []), w)
  | r :: rest =>
    (r, mkWorld (connects w) (reads w) rest (next_client w) (closed w))
  end.

#[global] Instance transport : Transport World := {|
  ModbusSerialClient := fun _ _ => new_client;
  ModbusTcpClient := fun _ _ => new_client;
  client_connect := fun _ => do_connect;
  client_close := do_close;
  client_read_holding_registers := fun _ _ _ _ => do_read;
  client_write_register := fun _ _ _ _ => do_write
|}.

(** A good response carrying [words]. *)
Definition good (words : list Z) : Res Response := Ret (mkResponse false words).

(** An adapter made by [__init__] from an empty [config] and then
    connected through client [0]. *)
Definition connected_adapter : Adapter :=
  set_is_connected true (set_client 0%nat (__init__ (mkConfig None None None None None None))).

(** A connected session on a line that will answer reads with [rs] and
    writes with [ws]. *)
Definition session (rs ws : list (Res Response)) : St World :=
  mkSt connected_adapter (mkWorld [] rs ws 1%nat []) [].

End Scripted.

(** A dead line: every transaction raises [ModbusException], and a
    connection attempt is refused. *)
Module Dead.

#[global] Instance transport : Transport ()%type := {|
  ModbusSerialClient := fun _ _ w => (Ret 0%nat, w);
  ModbusTcpClient := fun _ _ w => (Ret 0%nat, w);
  client_connect := fun _ w => (Ret false, w);
  client_close := fun _ w => w;
  client_read_holding_registers := fun _ _ _ _ w => (Raise ModbusException, w);
  client_write_register := fun _ _ _ _ w => (Raise ModbusException, w)
|}.

Definition session : St ()%type :=
  mkSt Scripted.connected_adapter tt [].

End Dead.

(** ** The example scripts

    The blocks under [if __name__ == "__main__"]: the adapter is made from
    the example [config], connected, asked for its status, given its
    settings and disconnected. [print] writes to the console, which is not
    part of the state. *)

Module Script.

(** The example [config] of both files. *)
Definition config : Config :=
  {| cfg_unit_id := Some 1;
     cfg_connection_type := Some "serial";
     cfg_timeout := None;
     cfg_retries := None;
     cfg_port := Some "/dev/ttyUSB0";
     cfg_host := None |}.

Section Scripts.
Context {W : Type} `{Transport W}.

(** The script of [anern.py], after [anern = AnernProtocol(config)]. *)
Definition anern : M W ()%type :=
  ok <- connect ;;
  if ok : bool
  then status <- Anern.get_status ;;
       Anern.set_charge_priority "PV_FIRST" ;;;
       disconnect ;;;
       ret tt
  else ret tt.

(** The script of [deye_protocol.py], after
    [deye = DeyeModbusProtocol(config)]. *)
Definition deye : M W ()%type :=
  ok <- connect ;;
  if ok : bool
  then status <- Deye.get_status ;;
       Deye.set_mode "HYBRID" ;;;
       Deye.set_charge_priority "SOLAR_FIRST" ;;;
       Deye.set_output_priority "SBU_PRIORITY" ;;;
       disconnect ;;;
       ret tt
  else ret tt.

End Scripts.

(** The state in which a script starts, on the world [w]. *)
Definition start {W : Type} (w : W) : St W := mkSt (__init__ config) w [].

End Script.

(** ** Further observations *)

(** [adds P m]: running [m] only appends to the log, and every call it
    appends satisfies [P]. *)
Definition adds {W A} (P : event -> Prop) (m : M W A) : Prop :=
  forall st, exists new, trace (m st).2 = trace st ++ new /\ Forall P new.

Definition is_read (e : event) : bool :=
  match e with EvRead _ _ _ _ => true | _ => false end.

Definition is_write (e : event) : bool :=
  match e with EvWrite _ _ _ _ => true | _ => false end.

Definition is_close (e : event) : bool :=
  match e with EvClose _ => true | _ => false end.

Definition is_sleep (e : event) : bool :=
  match e with EvSleep => true | _ => false end.

(** The calls of [connect]: constructors and opens, that is no
    transaction, no close and no sleep. *)
Definition opening (e : event) : Prop :=
  is_transaction e = false /\ is_close e = false /\ is_sleep e = false.

(** The calls of a read: no write and no close. *)
Definition read_side (e : event) : Prop :=
  is_write e = false /\ is_close e = false.

(** The calls of a write: no read and no close. *)
Definition write_side (e : event) : Prop :=
  is_read e = false /\ is_close e = false.

(** The number of cool-down sleeps in a log. *)
Definition sleeps (tr : list event) : nat :=
  length (List.filter is_sleep tr).

(** The calls on [close] in a log. *)
Definition closes (tr : list event) : list event :=
  List.filter is_close tr.

(** Among the next [n] attempts of the given read, starting from the
    world [w], the number that raise. *)
Fixpoint raised_reads {W : Type} `{Transport W} (n : nat) (c : Client)
    (address count u : Z) (w : W) : nat :=
  match n with
  | O => O
  | S n' =>
    (match (client_read_holding_registers c address count u w).1 with
     | Raise _ => 1
     | Ret _ => 0
     end +
     raised_reads n' c address count u
                  (client_read_holding_registers c address count u w).2)%nat
  end.

(** Among the next [n] attempts of the given write, the number that raise. *)
Fixpoint raised_writes {W : Type} `{Transport W} (n : nat) (c : Client)
    (address val u : Z) (w : W) : nat :=
  match n with
  | O => O
  | S n' =>
    (match (client_write_register c address val u w).1 with
     | Raise _ => 1
     | Ret _ => 0
     end +
     raised_writes n' c address val u
                   (client_write_register c address val u w).2)%nat
  end.

(** The world after [n] attempts of the given read. *)
Fixpoint after_reads {W : Type} `{Transport W} (n : nat) (c : Client)
    (address count u : Z) (w : W) : W :=
  match n with
  | O => w
  | S n' =>
    after_reads n' c address count u
                (client_read_holding_registers c address count u w).2
  end.

(** The world after [n] attempts of the given write. *)
Fixpoint after_writes {W : Type} `{Transport W} (n : nat) (c : Client)
    (address val u : Z) (w : W) : W :=
  match n with
  | O => w
  | S n' =>
    after_writes n' c address val u
                 (client_write_register c address val u w).2
  end.

(** No read is ever completed on the line, whatever is asked and whenever. *)
Definition reads_never_succeed (W : Type) `{Transport W} : Prop :=
  forall c address count u (w : W),
    failed (client_read_holding_registers c address count u w).1 = true.

(** A read that costs [retries] attempts and brings nothing. *)
Definition fruitless {W : Type} (a0 : Adapter)
    (m : M W (option ParameterValue)) : Prop :=
  forall st, self st = a0 ->
    (m st).1 = Ret None /\
    self (m st).2 = a0 /\
    length (transactions (trace (m st).2)) =
    (length (transactions (trace st)) + Z.to_nat (retries a0))%nat.

(** A step of a script on the adapter [a0]: it returns normally, leaves the
    adapter as it is and closes nothing. *)
Definition harmless {W A : Type} (a0 : Adapter) (m : M W A) : Prop :=
  forall st, self st = a0 ->
    exists r st', m st = (Ret r, st') /\ self st' = a0 /\
                  closes (trace st') = closes (trace st).

(** The text [f"{hours:02d}:{minutes:02d}:{seconds:02d}"] that
    [read_parameter] makes for ["time_now"]. *)
Definition clock_text (hours minutes seconds : Z) : string :=
  String.append (format_02d hours)
    (String.append ":"
      (String.append (format_02d minutes)
        (String.append ":" (format_02d seconds)))).

(** A number of two decimal digits at most. *)
Definition two_digits (n : Z) : Prop := 0 <= n < 100.

(** A register word: an unsigned 16-bit number. *)
Definition is_word (r : Z) : Prop := 0 <= r < 65536.

(** The registers [address .. address + size - 1] of two descriptors do not
    meet. *)
Definition apart (d1 d2 : RegisterInfo) : Prop :=
  address d1 + size d1 <= address d2 \/ address d2 + size d2 <= address d1.

(** A register map is well formed: no name twice, every descriptor inside
    the 16-bit address space with a positive width, and no register shared
    by two descriptors. *)
Definition well_formed (entries : list (string * RegisterInfo)) : Prop :=
  NoDup entries.*1 /\
  Forall (fun nd => 0 < size nd.2 /\ 0 <= address nd.2 /\
                    address nd.2 + size nd.2 <= 65536) entries /\
  forall i j nd1 nd2,
    entries !! i = Some nd1 -> entries !! j = Some nd2 -> i <> j ->
    apart nd1.2 nd2.2.

(** The boolean test of [well_formed] on the spans. *)
Definition apartb (d1 d2 : RegisterInfo) : bool :=
  (address d1 + size d1 <=? address d2) || (address d2 + size d2 <=? address d1).

Fixpoint all_apart (entries : list (string * RegisterInfo)) : bool :=
  match entries with
  | [] => true
  | nd :: rest => forallb (fun nd' => apartb nd.2 nd'.2) rest && all_apart rest
  end.

(** * Properties *)

(** ** Reasoning about computations in [M] *)

(** Unfolding the monad and the primitive steps. *)
Ltac unfold_monad :=
  repeat progress
    (unfold with_client, bind, try, ret, raise, lift, get_self, modify,
            call, sleep in *; cbn beta iota in * ).


Create HintDb keeps.

Section Keeps.
Context {W : Type} `{Transport W}.
Variable P : Adapter -> Prop.

Lemma keeps_ret {A} (a : A) : keeps (W:=W) P (ret a).
Proof. intros st HP. exact HP. Qed.

Lemma keeps_raise {A} e : keeps (W:=W) (A:=A) P (raise e).
Proof. intros st HP. exact HP. Qed.

Lemma keeps_lift {A} (r : Res A) : keeps (W:=W) P (lift r).
Proof. intros st HP. exact HP. Qed.

Lemma keeps_get_self : keeps (W:=W) P get_self.
Proof. intros st HP. exact HP. Qed.

Lemma keeps_sleep : keeps (W:=W) P sleep.
Proof. intros st HP. exact HP. Qed.

Lemma keeps_call {A} ev (op : W -> Res A * W) : keeps P (call ev op).
Proof. intros st HP. unfold call. destruct (op (world st)); exact HP. Qed.

Lemma keeps_bind {A B} (m : M W A) (k : A -> M W B) :
  keeps P m -> (forall a, keeps P (k a)) -> keeps P (bind m k).
Proof.
  intros Hm Hk st HP. unfold bind.
  specialize (Hm st HP). destruct (m st) as [[a|e] st1]; simpl in *.
  - apply Hk; exact Hm.
  - exact Hm.
Qed.

Lemma keeps_try {A} (m : M W A) : keeps P m -> keeps P (try m).
Proof.
  intros Hm st HP. unfold try.
  specialize (Hm st HP). destruct (m st); exact Hm.
Qed.

Lemma keeps_with_client {A} (k : Client -> M W A) :
  (forall c, keeps P (k c)) -> keeps P (with_client k).
Proof.
  intros Hk. unfold with_client. apply keeps_bind; [apply keeps_get_self|].
  intros a. destruct (client a); [apply Hk | apply keeps_raise].
Qed.

Lemma keeps_modify f :
  (forall a, P a -> P (f a)) -> keeps (W:=W) P (modify f).
Proof. intros Hf st HP. simpl. apply Hf; exact HP. Qed.

Lemma keeps_if {A} (b : bool) (m1 m2 : M W A) :
  keeps P m1 -> keeps P m2 -> keeps P (if b then m1 else m2).
Proof. destruct b; auto. Qed.

End Keeps.

#[global] Hint Resolve keeps_ret keeps_raise keeps_lift keeps_get_self
  keeps_sleep keeps_call keeps_try keeps_with_client keeps_if : keeps.

(** Splitting a sequence of steps until only attribute updates are left. *)
Ltac keeps_step :=
  lazymatch goal with
  | |- keeps _ (bind _ _) => apply keeps_bind; [| intros ? ]
  | |- keeps _ (try _) => apply keeps_try
  | |- keeps _ (with_client _) => apply keeps_with_client; intros ?
  | |- keeps _ (if _ then _ else _) => apply keeps_if
  | |- keeps _ (match ?x with _ => _ end) => destruct x
  | |- _ => solve [ auto with keeps ]
  end.

Ltac keeps_steps := repeat keeps_step.

(** ** The session *)

Section SessionFacts.
Context {W : Type} `{Transport W}.

Lemma session_ok_init cfg : session_ok (__init__ cfg).
Proof. intros Hc. discriminate Hc. Qed.

(** [connect] never raises, and reports exactly the new [is_connected];
    when it reports success a client is stored. *)
Lemma connect_result st :
  exists b, (connect st).1 = Ret b /\
            is_connected (self (connect st).2) = b /\
            (b = true -> is_Some (client (self (connect st).2))) /\
            same_settings (self st) (self (connect st).2).
Proof.
  unfold connect, same_settings. unfold_monad.
  destruct (String.eqb _ _); simpl.
  - destruct (ModbusSerialClient _ _ _) as [[c|e] w1]; simpl.
    + destruct (client_connect c w1) as [[[|]|e] w2]; simpl.
      all: eexists; split; [reflexivity|]; simpl.
      all: repeat split; try discriminate; eauto.
    + exists false. simpl. repeat split; discriminate.
  - destruct (ModbusTcpClient _ _ _) as [[c|e] w1]; simpl.
    + destruct (client_connect c w1) as [[[|]|e] w2]; simpl.
      all: eexists; split; [reflexivity|]; simpl.
      all: repeat split; try discriminate; eauto.
    + exists false. simpl. repeat split; discriminate.
Qed.

Lemma keeps_connect : keeps session_ok connect.
Proof.
  intros st _. destruct (connect_result st) as (b & _ & Hb & Hc & _).
  intros Hconn. apply Hc. congruence.
Qed.

Lemma keeps_disconnect : keeps session_ok disconnect.
Proof.
  unfold disconnect. keeps_steps.
  apply keeps_modify. intros ? _ Hc. discriminate Hc.
Qed.

Lemma keeps_cannot_connect : keeps session_ok cannot_connect.
Proof.
  unfold cannot_connect. keeps_steps. apply keeps_connect.
Qed.

Lemma keeps_read_attempts P n address count :
  keeps P (read_attempts n address count).
Proof.
  induction n as [|n IH]; simpl; [apply keeps_ret|].
  keeps_steps; exact IH.
Qed.

Lemma keeps_write_attempts P n address val :
  keeps P (write_attempts n address val).
Proof.
  induction n as [|n IH]; simpl; [apply keeps_ret|].
  keeps_steps; exact IH.
Qed.

Lemma keeps_read_register address count :
  keeps session_ok (read_register address count).
Proof.
  unfold read_register. keeps_steps; [apply keeps_cannot_connect|].
  apply keeps_read_attempts.
Qed.

Lemma keeps_write_register address val :
  keeps session_ok (write_register address val).
Proof.
  unfold write_register. keeps_steps; [apply keeps_cannot_connect|].
  apply keeps_write_attempts.
Qed.

End SessionFacts.

#[global] Hint Resolve keeps_connect keeps_disconnect keeps_read_register
  keeps_write_register : keeps.

Section SessionResults.
Context {W : Type} `{Transport W}.

(** [disconnect] never raises; a session that satisfies the invariant is
    left disconnected. *)
Lemma disconnect_result (st : St W) :
  session_ok (self st) ->
  exists b, (disconnect st).1 = Ret b /\
            is_connected (self (disconnect st).2) = false.
Proof.
  intros Hok. unfold disconnect. unfold_monad.
  destruct (client (self st)) as [c|] eqn:Hc.
  - destruct (is_connected (self st)) eqn:Hconn; simpl.
    + rewrite Hc. simpl. eauto.
    + eauto.
  - simpl. exists false. split; [reflexivity|].
    destruct (is_connected (self st)) eqn:Hconn; [|reflexivity].
    destruct (Hok Hconn) as [c Hc']. congruence.
Qed.

(** The retry loops never touch [self] and never raise. *)
Lemma read_attempts_self n address count (st : St W) :
  self (read_attempts n address count st).2 = self st.
Proof.
  apply (keeps_read_attempts (fun a => a = self st)). reflexivity.
Qed.

Lemma write_attempts_self n address val (st : St W) :
  self (write_attempts n address val st).2 = self st.
Proof.
  apply (keeps_write_attempts (fun a => a = self st)). reflexivity.
Qed.

Lemma read_attempts_returns n address count (st : St W) :
  exists r, (read_attempts n address count st).1 = Ret r.
Proof.
  revert st. induction n as [|n IH]; intros st; simpl; [eexists; reflexivity|].
  unfold_monad.
  destruct (client (self st)) as [c|]; simpl.
  - destruct (client_read_holding_registers _ _ _ _ _) as [[response|e] w1].
    + destruct (isError response); [apply IH | eexists; reflexivity].
    + apply IH.
  - apply IH.
Qed.

Lemma write_attempts_returns n address val (st : St W) :
  exists r, (write_attempts n address val st).1 = Ret r.
Proof.
  revert st. induction n as [|n IH]; intros st; simpl; [eexists; reflexivity|].
  unfold_monad.
  destruct (client (self st)) as [c|]; simpl.
  - destruct (client_write_register _ _ _ _ _) as [[response|e] w1].
    + destruct (isError response); [apply IH | eexists; reflexivity].
    + apply IH.
  - apply IH.
Qed.

(** On a connected session the transaction is the retry loop alone. *)
Lemma read_register_connected address count (st : St W) :
  is_connected (self st) = true ->
  read_register address count st =
  read_attempts (Z.to_nat (retries (self st))) address count st.
Proof.
  intros Hc. unfold read_register, cannot_connect. unfold_monad.
  rewrite Hc. reflexivity.
Qed.

Lemma write_register_connected address val (st : St W) :
  is_connected (self st) = true ->
  write_register address val st =
  write_attempts (Z.to_nat (retries (self st))) address val st.
Proof.
  intros Hc. unfold write_register, cannot_connect. unfold_monad.
  rewrite Hc. reflexivity.
Qed.

Lemma read_register_returns address count (st : St W) :
  exists r, (read_register address count st).1 = Ret r.
Proof.
  unfold read_register, cannot_connect. unfold_monad.
  destruct (is_connected (self st)).
  - apply read_attempts_returns.
  - destruct (connect_result st) as (b & Hr & _).
    destruct (connect st) as [r st1]. simpl in Hr. subst r.
    destruct b; simpl; [apply read_attempts_returns | eexists; reflexivity].
Qed.

Lemma write_register_returns address val (st : St W) :
  exists r, (write_register address val st).1 = Ret r.
Proof.
  unfold write_register, cannot_connect. unfold_monad.
  destruct (is_connected (self st)).
  - apply write_attempts_returns.
  - destruct (connect_result st) as (b & Hr & _).
    destruct (connect st) as [r st1]. simpl in Hr. subst r.
    destruct b; simpl; [apply write_attempts_returns | eexists; reflexivity].
Qed.

End SessionResults.

(** ** Counting transaction attempts *)

Lemma transactions_app tr1 tr2 :
  transactions (tr1 ++ tr2) = transactions tr1 ++ transactions tr2.
Proof. apply List.filter_app. Qed.

Section Exhaustion.
Context {W : Type} `{Transport W}.

(** When the next [n] attempts fail, the loop of [n] rounds makes exactly
    those [n] attempts and gives up. *)
Lemma read_attempts_exhausted n address count c (st : St W) :
  client (self st) = Some c ->
  reads_fail n c address count (unit_id (self st)) (world st) ->
  (read_attempts n address count st).1 = Ret None /\
  transactions (trace (read_attempts n address count st).2) =
    transactions (trace st) ++
    replicate n (EvRead c address count (unit_id (self st))).
Proof.
  revert st. induction n as [|n IH]; intros st Hc Hfail; simpl.
  - by rewrite app_nil_r.
  - destruct Hfail as [Hfirst Hrest].
    unfold_monad. rewrite Hc. simpl.
    destruct (client_read_holding_registers _ _ _ _ _) as [[response|e] w1];
      simpl in Hfirst, Hrest.
    + rewrite Hfirst.
      match goal with |- context [read_attempts n _ _ ?s] =>
        destruct (IH s Hc Hrest) as [-> ->] end.
      split; [reflexivity|]. simpl.
      rewrite transactions_app. simpl.
      by rewrite <- app_assoc.
    + match goal with |- context [read_attempts n _ _ ?s] =>
        destruct (IH s Hc Hrest) as [-> ->] end.
      split; [reflexivity|]. simpl.
      rewrite !transactions_app. simpl.
      by rewrite app_nil_r, <- app_assoc.
Qed.


End Exhaustion.

(** ** Arithmetic of the codec *)

(** [int()] truncates toward zero. *)
Lemma py_int_nonneg (q : Q) :
  (0 <= q)%Q -> (inject_Z (py_int q) <= q /\ q < inject_Z (py_int q) + 1)%Q.
Proof.
  intros Hq. unfold py_int.
  apply Qle_bool_iff in Hq. rewrite Hq. split.
  - apply Qfloor_le.
  - pose proof (Qlt_floor q) as Hlt. rewrite inject_Z_plus in Hlt. exact Hlt.
Qed.

Lemma py_int_neg (q : Q) :
  (q < 0)%Q -> (inject_Z (py_int q) - 1 < q /\ q <= inject_Z (py_int q))%Q.
Proof.
  intros Hq. unfold py_int.
  destruct (Qle_bool 0 q) eqn:Hle.
  - apply Qle_bool_iff in Hle. lra.
  - split.
    + pose proof (Qceiling_lt q) as Hlt.
      unfold Z.sub in Hlt. rewrite inject_Z_plus in Hlt. exact Hlt.
    + apply Qle_ceiling.
Qed.

(** The truncated value is less than one unit away, on the side of zero. *)
Lemma py_int_close (q : Q) : (Qabs (inject_Z (py_int q) - q) < 1)%Q.
Proof.
  apply Qabs_Qlt_condition.
  destruct (Qlt_le_dec q 0) as [Hneg|Hpos].
  - destruct (py_int_neg q Hneg). split; lra.
  - destruct (py_int_nonneg q Hpos). split; lra.
Qed.

(** ** Binary64 rounding *)

Lemma py_round_close (q : Q) : (Qabs (inject_Z (py_round q) - q) <= 1 # 2)%Q.
Proof.
  unfold py_round.
  pose proof (Qfloor_le q) as Hlo. pose proof (Qlt_floor q) as Hhi.
  rewrite inject_Z_plus in Hhi. change (inject_Z 1) with 1%Q in Hhi.
  set (lo := Qfloor q) in *. apply Qabs_Qle_condition.
  assert (Hup : (inject_Z (lo + 1) == inject_Z lo + 1)%Q)
    by (rewrite inject_Z_plus; reflexivity).
  destruct (q - inject_Z lo ?= 1 # 2)%Q eqn:Hc.
  - apply Qeq_alt in Hc.
    destruct (Z.even lo); [|rewrite Hup]; split; lra.
  - apply Qlt_alt in Hc. split; lra.
  - apply Qgt_alt in Hc. rewrite Hup. split; lra.
Qed.

Lemma two_to_pos (e : Z) : (0 < 2 ^ e)%Q.
Proof. apply Qpower_0_lt. reflexivity. Qed.

Lemma two_to_plus (a b : Z) : (2 ^ (a + b) == 2 ^ a * 2 ^ b)%Q.
Proof. apply Qpower_plus. discriminate. Qed.

Lemma two_to_Z (k : Z) : 0 <= k -> (inject_Z (2 ^ k) == 2 ^ k)%Q.
Proof. intros Hk. apply (Zpower_Qpower 2 k Hk). Qed.

(** Above the subnormal range the scaled value has 53 digits. *)
Lemma last_place_low (n d : positive) :
  -1074 < last_place n d -> (2 ^ (last_place n d + 52) <= Zpos n # d)%Q.
Proof.
  unfold last_place.
  set (e0 := Z.log2 (Z.pos n) - Z.log2 (Z.pos d) - 53).
  destruct (Qle_bool (2 ^ (e0 + 53)) (Z.pos n # d)) eqn:Htest.
  - intros Hgt. apply Qle_bool_iff in Htest.
    replace (Z.max (e0 + 1) (-1074) + 52) with (e0 + 53) by lia. exact Htest.
  - intros Hgt.
    replace (Z.max e0 (-1074) + 52) with (e0 + 52) by lia.
    pose proof (Z.log2_spec (Z.pos n) eq_refl) as [Hn _].
    pose proof (Z.log2_spec (Z.pos d) eq_refl) as [_ Hd].
    pose proof (Z.log2_nonneg (Z.pos n)) as Hln.
    pose proof (Z.log2_nonneg (Z.pos d)) as Hld.
    set (ln := Z.log2 (Z.pos n)) in *. set (ld := Z.log2 (Z.pos d)) in *.
    replace (e0 + 52) with (ln + - Z.succ ld) by (unfold e0; lia).
    rewrite two_to_plus, Qpower_opp.
    assert (Hn' : (2 ^ ln <= inject_Z (Z.pos n))%Q).
    { rewrite <- two_to_Z by lia. rewrite <- Zle_Qle. exact Hn. }
    assert (Hd' : (inject_Z (Z.pos d) <= 2 ^ Z.succ ld)%Q).
    { rewrite <- two_to_Z by lia. rewrite <- Zle_Qle. lia. }
    pose proof (two_to_pos (Z.succ ld)) as Hp.
    pose proof (two_to_pos ln) as Hq.
    rewrite (Qmake_Qdiv (Z.pos n) d).
    apply Qle_shift_div_l; [reflexivity|].
    apply Qle_trans with (2 ^ ln * 1)%Q; [|lra].
    rewrite <- Qmult_assoc. apply Qmult_le_l; [exact Hq|].
    rewrite Qmult_comm. apply Qle_shift_div_r; [exact Hp|lra].
Qed.

(** The nearest double is within half a unit of the last place. *)
Lemma nearest_close (n d : positive) :
  (Qabs (nearest n d - (Zpos n # d)) <= 2 ^ last_place n d * (1 # 2))%Q.
Proof.
  unfold nearest. set (e := last_place n d). set (q := Zpos n # d).
  pose proof (two_to_pos e) as He.
  pose proof (py_round_close (q / 2 ^ e)) as Hm.
  set (m := inject_Z (py_round (q / 2 ^ e))) in *.
  assert (Heq : (m * 2 ^ e - q == (m - q / 2 ^ e) * 2 ^ e)%Q) by (field; lra).
  rewrite Heq, Qabs_Qmult, (Qabs_pos (2 ^ e)) by lra.
  rewrite (Qmult_comm (2 ^ e)). apply Qmult_le_compat_r; lra.
Qed.


Lemma half_least_pos : (0 < half_least)%Q.
Proof. apply two_to_pos. Qed.

Lemma nearest_error (n d : positive) :
  (Qabs (nearest n d - (Zpos n # d)) <=
   (Zpos n # d) * unit_roundoff + half_least)%Q.
Proof.
  eapply Qle_trans; [apply nearest_close|].
  pose proof (last_place_low n d) as Hlow.
  assert (Hq : (0 < Zpos n # d)%Q) by reflexivity.
  set (q := Zpos n # d) in *.
  assert (Hmin : -1074 <= last_place n d) by (unfold last_place; lia).
  pose proof half_least_pos as Hs.
  assert (Hu : (0 <= q * unit_roundoff)%Q)
    by (apply Qmult_le_0_compat; [lra|discriminate]).
  destruct (Z.eq_dec (last_place n d) (-1074)) as [->|Hne].
  - assert (H1 : (2 ^ (-1074) * (1 # 2) == half_least)%Q) by reflexivity.
    rewrite H1. lra.
  - specialize (Hlow ltac:(lia)).
    set (e := last_place n d) in *.
    assert (H1 : (2 ^ e * (1 # 2) == 2 ^ (e + 52) * unit_roundoff)%Q).
    { rewrite two_to_plus.
      assert (H2 : (2 ^ 52 * unit_roundoff == 1 # 2)%Q) by reflexivity.
      rewrite <- Qmult_assoc, H2. reflexivity. }
    rewrite H1.
    apply Qle_trans with (q * unit_roundoff)%Q; [|lra].
    apply Qmult_le_compat_r; [exact Hlow|discriminate].
Qed.

(** A finite result of rounding is within half a unit of the last place:
    a relative error of at most [2^-53], or [2^-1075] among the
    subnormal numbers. *)
Lemma binary64_error (q r : Q) :
  binary64 q = Finite r ->
  (Qabs (r - q) <= Qabs q * unit_roundoff + half_least)%Q.
Proof.
  pose proof half_least_pos as Hs.
  unfold binary64. destruct q as [[|n|n] d]; cbn [Qnum Qden].
  - intros [= <-].
    assert (Hz : (0 - (0 # d) == 0)%Q) by reflexivity.
    assert (Hz' : (Qabs (0 # d) == 0)%Q) by reflexivity.
    rewrite Hz, Hz'. change (Qabs 0) with 0%Q. lra.
  - destruct (Qle_bool _ _); [discriminate|]. intros [= <-].
    rewrite Qred_correct. rewrite (Qabs_pos (Zpos n # d)) by discriminate.
    apply nearest_error.
  - destruct (Qle_bool _ _); [discriminate|]. intros [= <-].
    rewrite Qred_correct.
    assert (Hneg : (Z.neg n # d == - (Zpos n # d))%Q) by reflexivity.
    rewrite Hneg. rewrite Qabs_opp, (Qabs_pos (Zpos n # d)) by discriminate.
    assert (Hsw : (- nearest n d - - (Z.pos n # d)
                   == - (nearest n d - (Z.pos n # d)))%Q) by ring.
    rewrite Hsw, Qabs_opp. apply nearest_error.
Qed.

Lemma half_least_small : (half_least <= unit_roundoff)%Q.
Proof. apply Qle_bool_iff. vm_compute. reflexivity. Qed.

(** The error bound, without absolute values. *)
Lemma binary64_between (q r : Q) :
  binary64 q = Finite r ->
  ((0 <= q)%Q ->
   (q - (q * unit_roundoff + half_least) <= r
    /\ r <= q + (q * unit_roundoff + half_least))%Q) /\
  ((q <= 0)%Q ->
   (q - (- q * unit_roundoff + half_least) <= r
    /\ r <= q + (- q * unit_roundoff + half_least))%Q).
Proof.
  intros Hr. pose proof (binary64_error q r Hr) as Herr.
  split; intros Hq.
  - rewrite (Qabs_pos q Hq) in Herr.
    apply Qabs_Qle_condition in Herr. split; lra.
  - rewrite (Qabs_neg q Hq) in Herr.
    apply Qabs_Qle_condition in Herr. split; lra.
Qed.

(** Rounding a number of moderate size does not overflow. *)
Lemma binary64_finite (q : Q) :
  (Qabs q <= 2 ^ 64)%Q -> exists r, binary64 q = Finite r.
Proof.
  intros Hq. unfold binary64.
  pose proof half_least_small as Hs. pose proof half_least_pos as Hs0.
  assert (Hbig : (4 * 2 ^ 64 <= 2 ^ 1024)%Q)
    by (apply Qle_bool_iff; vm_compute; reflexivity).
  set (big := (2 ^ 1024)%Q) in *. set (b64 := (2 ^ 64)%Q) in *.
  assert (Hb : (1 <= b64)%Q) by (apply Qle_bool_iff; vm_compute; reflexivity).
  assert (Hnear : forall n d, (Qabs (Zpos n # d) <= b64)%Q ->
                    Qle_bool big (nearest n d) = false).
  { intros n d Hnd. destruct (Qle_bool big (nearest n d)) eqn:Hle; [|reflexivity].
    apply Qle_bool_iff in Hle. pose proof (nearest_error n d) as Herr.
    rewrite Qabs_pos in Hnd by discriminate.
    apply Qabs_Qle_condition in Herr.
    assert (Hu : ((Zpos n # d) * unit_roundoff <= Zpos n # d)%Q).
    { assert (0 < Zpos n # d)%Q by reflexivity. unfold unit_roundoff.
      set (x := Zpos n # d) in *. lra. }
    set (x := Zpos n # d) in *. unfold unit_roundoff in Hs. lra. }
  destruct q as [[|n|n] d]; cbn [Qnum Qden].
  - eexists; reflexivity.
  - rewrite (Hnear n d Hq). eexists; reflexivity.
  - assert (Hq' : (Qabs (Zpos n # d) <= b64)%Q).
    { assert (Hneg : (Z.neg n # d == - (Zpos n # d))%Q) by reflexivity.
      rewrite Hneg, Qabs_opp in Hq. exact Hq. }
    rewrite (Hnear n d Hq'). eexists; reflexivity.
Qed.

(** ** The shared parameter operations *)

Section FacadeFacts.
Context {W : Type} `{Transport W}.
Variable REGISTER_MAP : gmap string RegisterInfo.

(** For a known name, [write_parameter] is the single-register write of
    [int(value / factor)] when that has a value, and nothing else; when it
    raises, the exception leaves the method before any call is made. *)
Lemma write_parameter_known name d (v : pynum) w (st : St W) :
  REGISTER_MAP !! name = Some d ->
  py_register_value v (py_literal (factor d)) = Ret w ->
  write_parameter REGISTER_MAP name v st = write_register (address d) w st.
Proof.
  intros Hd Hw. unfold write_parameter. rewrite Hd.
  unfold bind, lift. rewrite Hw. reflexivity.
Qed.

Lemma write_parameter_raises name d (v : pynum) e (st : St W) :
  REGISTER_MAP !! name = Some d ->
  py_register_value v (py_literal (factor d)) = Raise e ->
  write_parameter REGISTER_MAP name v st = (Raise e, st).
Proof.
  intros Hd Hw. unfold write_parameter. rewrite Hd.
  unfold bind, lift. rewrite Hw. reflexivity.
Qed.

Lemma write_parameter_unknown name (v : pynum) (st : St W) :
  REGISTER_MAP !! name = None ->
  write_parameter REGISTER_MAP name v st = (Ret false, st).
Proof. intros Hd. unfold write_parameter. rewrite Hd. reflexivity. Qed.

(** A label of the table is written as the register value of its code. *)
Lemma set_enumerated_known table target label code d w (st : St W) :
  table !! label = Some code ->
  REGISTER_MAP !! target = Some d ->
  py_register_value (PyInt code) (py_literal (factor d)) = Ret w ->
  set_enumerated REGISTER_MAP table target label st =
  write_register (address d) w st.
Proof.
  intros Hl Hd Hw. unfold set_enumerated. rewrite Hl.
  by apply write_parameter_known.
Qed.

Lemma keeps_write_parameter name v :
  keeps (W:=W) session_ok (write_parameter REGISTER_MAP name v).
Proof. unfold write_parameter. keeps_steps. Qed.

Lemma keeps_set_enumerated table target label :
  keeps (W:=W) session_ok (set_enumerated REGISTER_MAP table target label).
Proof. unfold set_enumerated. keeps_steps. apply keeps_write_parameter. Qed.

Lemma keeps_standard_value P sz f regs :
  keeps (W:=W) P (standard_value sz f regs).
Proof. unfold standard_value. keeps_steps. Qed.

Lemma keeps_read_headlines P rp ps status :
  (forall p, keeps (W:=W) P (rp p)) ->
  keeps P (read_headlines rp ps status).
Proof.
  intros Hrp. revert status.
  induction ps as [|p ps IH]; intros status; simpl; keeps_steps; auto.
Qed.

(** The numeric branches, by the number of words at hand. *)
Lemma standard_value_single sz f r0 rest (st : St W) :
  sz <> 2 ->
  standard_value sz f (r0 :: rest) st = (Ret (Num (inject_Z r0 * f)), st).
Proof.
  intros Hsz. unfold standard_value.
  destruct (sz =? 1) eqn:H1; [reflexivity|].
  destruct (sz =? 2) eqn:H2; [lia|reflexivity].
Qed.

Lemma standard_value_pair f r0 r1 rest (st : St W) :
  standard_value 2 f (r0 :: r1 :: rest) st =
  (Ret (Num (inject_Z (Z.lor (Z.shiftl r0 16) r1) * f)), st).
Proof. reflexivity. Qed.

Lemma standard_value_empty sz f (st : St W) :
  standard_value sz f [] st = (Raise IndexError, st).
Proof.
  unfold standard_value. destruct (sz =? 1); [reflexivity|].
  destruct (sz =? 2); reflexivity.
Qed.

Lemma standard_value_short_pair f r0 (st : St W) :
  standard_value 2 f [r0] st = (Raise IndexError, st).
Proof. reflexivity. Qed.

(** The first loop of [get_status] never raises when the reads do not. *)
Lemma read_headlines_returns rp ps status (st : St W) :
  (forall p s, exists r, (rp p s).1 = Ret r) ->
  exists r, (read_headlines rp ps status st).1 = Ret r.
Proof.
  intros Hrp. revert status st.
  induction ps as [|p ps IH]; intros status st; simpl.
  - eexists; reflexivity.
  - unfold bind. destruct (Hrp p st) as [r Hr].
    destruct (rp p st) as [r' st1]. simpl in Hr. subst r'.
    destruct r; apply IH.
Qed.

(** It only stores entries under names of the list. *)
Lemma read_headlines_other rp ps status key (st : St W) r :
  key ∉ ps ->
  (read_headlines rp ps status st).1 = Ret r ->
  r !! key = status !! key.
Proof.
  revert status st. induction ps as [|p ps IH]; intros status st Hkey; simpl.
  - unfold ret. simpl. intros [= <-]. reflexivity.
  - apply not_elem_of_cons in Hkey as [Hne Hkey].
    unfold bind. destruct (rp p st) as [[[pv|]|e] st1]; intros Hr.
    + rewrite (IH _ _ Hkey Hr). by rewrite lookup_insert_ne.
    + apply (IH _ _ Hkey Hr).
    + discriminate Hr.
Qed.

End FacadeFacts.

(** ** The register maps *)

(** Every Anern parameter is one word wide and has a positive factor. *)
Lemma anern_entries :
  Forall (fun nd : string * RegisterInfo =>
            size nd.2 = 1 /\ (0 < factor nd.2)%Q)
         Anern.REGISTER_ENTRIES.
Proof.
  unfold Anern.REGISTER_ENTRIES.
  repeat (apply Forall_cons; split; [split; reflexivity|]).
  constructor.
Qed.

Lemma anern_descriptor name d :
  Anern.REGISTER_MAP !! name = Some d ->
  size d = 1 /\ (0 < factor d)%Q.
Proof.
  intros Hd. apply elem_of_list_to_map_2 in Hd.
  pose proof anern_entries as HF. rewrite Forall_forall in HF.
  apply (HF (name, d) Hd).
Qed.

(** The Deye parameters by the branch of [read_parameter] they take. *)
Lemma deye_entries :
  Forall (fun nd : string * RegisterInfo =>
            (0 < factor nd.2)%Q /\
            if String.eqb nd.1 "time_now" then size nd.2 = 3
            else if Deye.is_bitmask nd.1 then size nd.2 = 4
            else size nd.2 = 1 \/ size nd.2 = 2)
         Deye.REGISTER_ENTRIES.
Proof.
  unfold Deye.REGISTER_ENTRIES.
  repeat (apply Forall_cons; split;
          [split; [reflexivity
                  | cbn; first [reflexivity | left; reflexivity | right; reflexivity]]
          |]).
  constructor.
Qed.

Lemma deye_descriptor name d :
  Deye.REGISTER_MAP !! name = Some d ->
  (0 < factor d)%Q /\
  if String.eqb name "time_now" then size d = 3
  else if Deye.is_bitmask name then size d = 4
  else size d = 1 \/ size d = 2.
Proof.
  intros Hd. apply elem_of_list_to_map_2 in Hd.
  pose proof deye_entries as HF. rewrite Forall_forall in HF.
  apply (HF (name, d) Hd).
Qed.

Lemma positive_factor_nonzero (f : Q) : (0 < f)%Q -> Qeq_bool f 0 = false.
Proof.
  intros Hf. destruct (Qeq_bool f 0) eqn:Heq; [|reflexivity].
  apply Qeq_bool_iff in Heq. lra.
Qed.

(** ** Division and product by the factors of the maps *)

Lemma anern_factors :
  Forall (fun nd : string * RegisterInfo => known_factor (factor nd.2))
         Anern.REGISTER_ENTRIES.
Proof.
  unfold Anern.REGISTER_ENTRIES, known_factor.
  repeat (apply Forall_cons; split;
          [first [left; reflexivity | right; left; reflexivity
                 | right; right; reflexivity]|]).
  constructor.
Qed.

Lemma deye_factors :
  Forall (fun nd : string * RegisterInfo => known_factor (factor nd.2))
         Deye.REGISTER_ENTRIES.
Proof.
  unfold Deye.REGISTER_ENTRIES, known_factor.
  repeat (apply Forall_cons; split;
          [first [left; reflexivity | right; left; reflexivity
                 | right; right; reflexivity]|]).
  constructor.
Qed.

Lemma map_factor name d :
  Anern.REGISTER_MAP !! name = Some d \/ Deye.REGISTER_MAP !! name = Some d ->
  known_factor (factor d).
Proof.
  intros [Hd|Hd]; apply elem_of_list_to_map_2 in Hd.
  - pose proof anern_factors as HF. rewrite Forall_forall in HF.
    apply (HF (name, d) Hd).
  - pose proof deye_factors as HF. rewrite Forall_forall in HF.
    apply (HF (name, d) Hd).
Qed.

Lemma known_factor_pair f :
  known_factor f ->
  exists F, factor_pair f F /\ to_float (py_literal f) = Ret (Finite F) /\
            (0 < F)%Q /\ number (py_literal f) = Some F /\
            (py_literal f = PyInt 1 /\ F = 1%Q \/ py_literal f = PyFloat (Finite F)).
Proof.
  intros [->|[->| ->]].
  - exists 1%Q. split; [left; by split|]. repeat split. left. by split.
  - eexists. split; [right; left; split; reflexivity|].
    split; [vm_compute; reflexivity|]. split; [reflexivity|].
    split; [vm_compute; reflexivity|]. right. vm_compute. reflexivity.
  - eexists. split; [right; right; split; reflexivity|].
    split; [vm_compute; reflexivity|]. split; [reflexivity|].
    split; [vm_compute; reflexivity|]. right. vm_compute. reflexivity.
Qed.

Ltac by_sign q :=
  let Hneg := fresh "Hneg" in let Hpos := fresh "Hpos" in
  destruct (Qlt_le_dec q 0) as [Hneg|Hpos];
  [assert (q <= 0)%Q by lra|].

Ltac use_rounding H :=
  let H1 := fresh "Hlo" in let H2 := fresh "Hhi" in
  pose proof (binary64_between _ _ H) as [H1 H2].

(** [value / factor] by the kind of the operands. *)
Lemma truediv_float x lit F :
  to_float lit = Ret (Finite F) -> (0 < F)%Q ->
  py_truediv (PyFloat x) lit = Ret (float_div x (Finite F)).
Proof.
  intros Hto HF. unfold py_truediv. cbn [to_float]. rewrite Hto.
  cbn [is_zero]. by rewrite positive_factor_nonzero.
Qed.

Lemma truediv_int_one a :
  py_truediv (PyInt a) (PyInt 1) =
  match binary64 (inject_Z a / 1) with
  | Finite r => Ret (Finite r)
  | _ => Raise OverflowError
  end.
Proof. reflexivity. Qed.

Lemma truediv_int_float a F :
  (0 < F)%Q ->
  py_truediv (PyInt a) (PyFloat (Finite F)) =
  match to_float (PyInt a) with
  | Raise e => Raise e
  | Ret x => Ret (float_div x (Finite F))
  end.
Proof.
  intros HF. unfold py_truediv. cbn [to_float is_zero].
  destruct (binary64 (inject_Z a)); try reflexivity.
  by rewrite positive_factor_nonzero.
Qed.

(** The factors of the maps never make the division raise
    [ZeroDivisionError]. *)
Lemma truediv_no_zero_division v f :
  known_factor f -> py_truediv v (py_literal f) <> Raise ZeroDivisionError.
Proof.
  intros Hf. destruct (known_factor_pair f Hf) as (F & _ & Hto & HF & _ & Hlit).
  destruct v as [a|x].
  - destruct Hlit as [[-> _] | ->].
    + rewrite truediv_int_one. destruct (binary64 _); discriminate.
    + rewrite (truediv_int_float a F HF).
      unfold to_float. destruct (binary64 _); discriminate.
  - rewrite (truediv_float x _ F Hto HF). discriminate.
Qed.

(** The quotient of a finite [float] is the double nearest to the exact
    quotient. *)
Lemma truediv_rounds x f F q :
  known_factor f -> number (py_literal f) = Some F ->
  py_truediv (PyFloat (Finite x)) (py_literal f) = Ret (Finite q) ->
  (Qabs (q - x / F) <= Qabs (x / F) * unit_roundoff + half_least)%Q.
Proof.
  intros Hf HF Hq.
  destruct (known_factor_pair f Hf) as (F' & _ & Hto & HF' & Hnum & _).
  rewrite Hnum in HF. injection HF as ->.
  rewrite (truediv_float _ _ F Hto HF') in Hq. cbn [float_div] in Hq.
  injection Hq as Hq. by apply binary64_error.
Qed.

Lemma round_trip_arith (f F x v' q' : Q) (word : Z) :
  factor_pair f F ->
  v' = x \/ binary64 x = Finite v' ->
  binary64 (v' / F) = Finite q' ->
  word = py_int q' ->
  0 <= word <= 65535 ->
  (Qabs (inject_Z word * f - x) < f * (1 + rounding_slack))%Q /\
  forall w' r,
    w' = inject_Z word \/ binary64 (inject_Z word) = Finite w' ->
    (r == w' * F)%Q \/ binary64 (w' * F) = Finite r ->
    (Qabs (r - x) < f * (1 + rounding_slack))%Q.
Proof.
  intros Hpair Hv Hq -> Hrange.
  pose proof half_least_small as Hs. pose proof half_least_pos as Hs0.
  unfold unit_roundoff in Hs.
  set (q := (v' / F)%Q) in *.
  assert (Hqv : (v' == q * F)%Q).
  { unfold q. destruct Hpair as [[_ ->]|[[_ ->]|[_ ->]]]; field. }
  use_rounding Hq.
  pose proof (py_int_nonneg q') as Hint0. pose proof (py_int_neg q') as Hint1.
  assert (Hw0 : (0 <= inject_Z (py_int q'))%Q)
    by (rewrite <- (Zle_Qle 0); lia).
  assert (Hw1 : (inject_Z (py_int q') <= 65535)%Q)
    by (rewrite <- (Zle_Qle _ 65535); lia).
  set (W := inject_Z (py_int q')) in *.
  assert (Hx : (v' == x)%Q \/
               ((0 <= x)%Q -> (x - (x * unit_roundoff + half_least) <= v'
                  /\ v' <= x + (x * unit_roundoff + half_least))%Q) /\
               ((x <= 0)%Q -> (x - (- x * unit_roundoff + half_least) <= v'
                  /\ v' <= x + (- x * unit_roundoff + half_least))%Q)).
  { destruct Hv as [->|Hv]; [left; reflexivity|right].
    apply (binary64_between _ _ Hv). }
  unfold unit_roundoff, rounding_slack in *.
  assert (Hcore : (Qabs (W * F - x) < f * (1 + (1 # 17179869184)))%Q /\
                  (Qabs (W * f - x) < f * (1 + (1 # 17179869184)))%Q /\
                  (0 < F <= 1)%Q /\ (0 < f <= 1)%Q).
  { by_sign q'; [specialize (Hint1 ltac:(lra))|specialize (Hint0 ltac:(lra))];
    (by_sign q; [specialize (Hhi ltac:(lra))|specialize (Hlo ltac:(lra))]);
    (destruct Hx as [Hx|[Hx0 Hx1]];
     [|by_sign x; [specialize (Hx1 ltac:(lra))|specialize (Hx0 ltac:(lra))]]);
    (destruct Hpair as [[-> ->]|[[-> ->]|[-> ->]]]);
    (split; [apply Qabs_Qlt_condition; split; lra|]);
    (split; [apply Qabs_Qlt_condition; split; lra|]); split; lra. }
  destruct Hcore as (HF & Hf & HF01 & Hf01).
  apply Qabs_Qlt_condition in HF. apply Qabs_Qlt_condition in Hf.
  split.
  - apply Qabs_Qlt_condition. split; lra.
  - intros w' r Hw' Hr.
    assert (Hw : (W - (W * (1 # 9007199254740992) + half_least) <= w'
                  /\ w' <= W + (W * (1 # 9007199254740992) + half_least))%Q).
    { destruct Hw' as [->|Hw']; [fold W; split; lra|].
      pose proof (binary64_between _ _ Hw') as [Hw _].
      unfold unit_roundoff in Hw. apply Hw. exact Hw0. }
    set (p := (w' * F)%Q) in *.
    assert (Hp : (w' * F == p)%Q) by reflexivity.
    assert (Hrp : (r == p)%Q \/
               ((0 <= p)%Q -> (p - (p * (1 # 9007199254740992) + half_least) <= r
                  /\ r <= p + (p * (1 # 9007199254740992) + half_least))%Q) /\
               ((p <= 0)%Q -> (p - (- p * (1 # 9007199254740992) + half_least) <= r
                  /\ r <= p + (- p * (1 # 9007199254740992) + half_least))%Q)).
    { destruct Hr as [Hr|Hr]; [left; exact Hr|right].
      pose proof (binary64_between _ _ Hr) as Hb.
      unfold unit_roundoff in Hb. exact Hb. }
    clear Hr Hw' Hq Hlo Hhi Hint0 Hint1 Hx Hqv.
    destruct Hrp as [Hrp|[Hr0 Hr1]];
      [|by_sign p; [specialize (Hr1 ltac:(lra))|specialize (Hr0 ltac:(lra))]];
      (destruct Hpair as [[-> ->]|[[-> ->]|[-> ->]]]);
      apply Qabs_Qlt_condition; split; lra.
Qed.

(** What [int(value / factor)] computes when it has a value: the value is
    finite, an [int] operand of a [float] division is first rounded to a
    double, and the word is the truncated double nearest to the
    quotient. *)
Lemma register_value_inv (v : pynum) (f F : Q) (word : Z) :
  known_factor f ->
  number (py_literal f) = Some F ->
  py_register_value v (py_literal f) = Ret word ->
  exists x v' q',
    number v = Some x /\
    (v' = x \/ binary64 x = Finite v') /\
    binary64 (v' / F) = Finite q' /\
    word = py_int q'.
Proof.
  intros Hf HF Hword.
  destruct (known_factor_pair f Hf) as (F' & _ & Hto & HF' & Hnum & Hlit).
  rewrite Hnum in HF. injection HF as ->.
  unfold py_register_value in Hword.
  destruct v as [a|x].
  - destruct Hlit as [[Hlit ->]|Hlit]; rewrite Hlit in Hword.
    + rewrite truediv_int_one in Hword.
      destruct (binary64 (inject_Z a / 1)) as [q'| | |] eqn:Hq;
        try discriminate Hword.
      injection Hword as <-.
      exists (inject_Z a), (inject_Z a), q'. repeat split; auto.
    + rewrite (truediv_int_float a F HF') in Hword. unfold to_float in Hword.
      destruct (binary64 (inject_Z a)) as [v'| | |] eqn:Hv;
        try discriminate Hword.
      cbn [float_div] in Hword.
      destruct (binary64 (v' / F)) as [q'| | |] eqn:Hq;
        try discriminate Hword.
      injection Hword as <-.
      exists (inject_Z a), v', q'. repeat split; auto.
  - rewrite (truediv_float x _ F Hto HF') in Hword.
    destruct x as [x| | |]; cbn [float_div int_of_float] in Hword.
    + destruct (binary64 (x / F)) as [q'| | |] eqn:Hq;
        try discriminate Hword.
      injection Hword as <-.
      exists x, x, q'. repeat split; auto.
    + destruct (Qle_bool 0 F); discriminate Hword.
    + destruct (Qle_bool 0 F); discriminate Hword.
    + discriminate Hword.
Qed.

(** [registers[0] * factor] on a word has a finite value. *)
Lemma py_mul_word (word : Z) (f F : Q) :
  known_factor f ->
  number (py_literal f) = Some F ->
  0 <= word <= 65535 ->
  exists y r w',
    py_mul word (py_literal f) = Ret y /\ number y = Some r /\
    (w' = inject_Z word \/ binary64 (inject_Z word) = Finite w') /\
    ((r == w' * F)%Q \/ binary64 (w' * F) = Finite r).
Proof.
  intros Hf HF Hrange.
  destruct (known_factor_pair f Hf) as (F' & Hpair & Hto & HF' & Hnum & Hlit).
  rewrite Hnum in HF. injection HF as ->.
  destruct Hlit as [[Hlit ->]|Hlit]; rewrite Hlit; cbn [py_mul].
  - exists (PyInt (word * 1)), (inject_Z (word * 1)), (inject_Z word).
    repeat split; auto. left. rewrite inject_Z_mult. reflexivity.
  - assert (Hw0 : (0 <= inject_Z word)%Q) by (rewrite <- (Zle_Qle 0); lia).
    assert (Hw1 : (inject_Z word <= 65535)%Q)
      by (rewrite <- (Zle_Qle _ 65535); lia).
    assert (Hb : (65536 <= 2 ^ 64)%Q)
      by (apply Qle_bool_iff; vm_compute; reflexivity).
    pose proof half_least_small as Hs. pose proof half_least_pos as Hs0.
    unfold unit_roundoff in Hs.
    destruct (binary64_finite (inject_Z word)) as [w' Hw'].
    { rewrite Qabs_pos by exact Hw0. set (b := (2 ^ 64)%Q) in *. lra. }
    unfold to_float. rewrite Hw'. cbn [float_mul].
    pose proof (binary64_between _ _ Hw') as [Hw _].
    specialize (Hw Hw0). unfold unit_roundoff in Hw.
    destruct (binary64_finite (w' * F)) as [r Hr].
    { set (b := (2 ^ 64)%Q) in *. apply Qabs_Qle_condition.
      destruct Hpair as [[_ ->]|[[_ ->]|[_ ->]]]; split; lra. }
    exists (PyFloat (Finite r)), r, w'. rewrite Hr. repeat split; auto.
Qed.

(** ** Reading a parameter *)

Section ReadParameter.
Context {W : Type} `{Transport W}.

Lemma standard_value_state sz f regs (st : St W) :
  (standard_value sz f regs st).2 = st.
Proof.
  unfold standard_value, py_index. unfold_monad.
  destruct (sz =? 1); [|destruct (sz =? 2)];
    destruct regs as [|r0 [|r1 rest]]; reflexivity.
Qed.

(** Anern: the value is the first word times the factor, and no value
    when there is no first word or no response. *)
Lemma anern_read_parameter_words name d (st st1 : St W) r :
  Anern.REGISTER_MAP !! name = Some d ->
  read_register (address d) (size d) st = (Ret r, st1) ->
  Anern.read_parameter name st =
  (Ret match r with
       | Some (r0 :: _) => Some (mkParam (Num (inject_Z r0 * factor d)) (unit d))
       | _ => None
       end, st1).
Proof.
  intros Hd Hr. destruct (anern_descriptor _ _ Hd) as [Hsz _].
  unfold Anern.read_parameter. rewrite Hd. cbn zeta.
  unfold bind at 1. rewrite Hr.
  destruct r as [[|r0 rest]|]; [| |reflexivity].
  - unfold try, bind. rewrite standard_value_empty. reflexivity.
  - unfold try, bind. rewrite standard_value_single by lia. reflexivity.
Qed.

Lemma anern_read_parameter_unknown name (st : St W) :
  Anern.REGISTER_MAP !! name = None ->
  Anern.read_parameter name st = (Ret None, st).
Proof. intros Hd. unfold Anern.read_parameter. rewrite Hd. reflexivity. Qed.

(** Deye: a failed transaction gives no value. *)
Lemma deye_read_parameter_failed name d (st st1 : St W) :
  Deye.REGISTER_MAP !! name = Some d ->
  read_register (address d) (size d) st = (Ret None, st1) ->
  Deye.read_parameter name st = (Ret None, st1).
Proof.
  intros Hd Hr. unfold Deye.read_parameter. rewrite Hd. cbn zeta.
  unfold bind at 1. rewrite Hr. reflexivity.
Qed.

(** Deye, ["time_now"]: three words are needed. *)
Lemma deye_read_parameter_time d (st st1 : St W) regs :
  Deye.REGISTER_MAP !! "time_now" = Some d ->
  read_register (address d) (size d) st = (Ret (Some regs), st1) ->
  Deye.read_parameter "time_now" st =
  (Ret match regs with
       | hours :: minutes :: seconds :: _ =>
         Some (mkParam
                 (Str (String.append (format_02d hours)
                      (String.append ":"
                      (String.append (format_02d minutes)
                      (String.append ":" (format_02d seconds))))))
                 "")
       | _ => None
       end, st1).
Proof.
  intros Hd Hr. unfold Deye.read_parameter. rewrite Hd. cbn zeta.
  unfold bind at 1. rewrite Hr.
  destruct regs as [|h [|m [|s rest]]]; reflexivity.
Qed.

(** Deye, ["error_codes"] and ["warning_codes"]: every word that arrived
    is combined, however many there are. *)
Lemma deye_read_parameter_bitmask name d (st st1 : St W) regs :
  Deye.REGISTER_MAP !! name = Some d ->
  Deye.is_bitmask name = true ->
  read_register (address d) (size d) st = (Ret (Some regs), st1) ->
  Deye.read_parameter name st =
  (Ret (Some (mkParam (Num (inject_Z (Deye.bitmask 0 0 regs))) (unit d))), st1).
Proof.
  intros Hd Hb Hr. unfold Deye.read_parameter. rewrite Hd. cbn zeta.
  unfold bind at 1. rewrite Hr.
  assert (Ht : String.eqb name "time_now" = false).
  { unfold Deye.is_bitmask in Hb. apply orb_true_iff in Hb as [Hb|Hb];
      apply String.eqb_eq in Hb; subst name; reflexivity. }
  rewrite Ht, Hb. reflexivity.
Qed.

(** Deye, every other parameter: the numeric branches. *)
Lemma deye_read_parameter_standard name d (st st1 : St W) regs :
  Deye.REGISTER_MAP !! name = Some d ->
  String.eqb name "time_now" = false ->
  Deye.is_bitmask name = false ->
  read_register (address d) (size d) st = (Ret (Some regs), st1) ->
  Deye.read_parameter name st =
  (Ret match (standard_value (size d) (factor d) regs st1).1 with
       | Ret v => Some (mkParam v (unit d))
       | Raise _ => None
       end, st1).
Proof.
  intros Hd Ht Hb Hr. unfold Deye.read_parameter. rewrite Hd. cbn zeta.
  unfold bind at 1. rewrite Hr, Ht, Hb.
  unfold try, bind.
  pose proof (standard_value_state (size d) (factor d) regs st1) as Hst.
  destruct (standard_value (size d) (factor d) regs st1) as [[v|e] st2];
    simpl in Hst; subst st2; reflexivity.
Qed.

Lemma deye_read_parameter_unknown name (st : St W) :
  Deye.REGISTER_MAP !! name = None ->
  Deye.read_parameter name st = (Ret None, st).
Proof. intros Hd. unfold Deye.read_parameter. rewrite Hd. reflexivity. Qed.

(** [read_parameter] never raises: a failure of any stage is [None]. *)
Lemma anern_read_parameter_returns name (st : St W) :
  exists r, (Anern.read_parameter name st).1 = Ret r.
Proof.
  destruct (Anern.REGISTER_MAP !! name) as [d|] eqn:Hd.
  - destruct (read_register_returns (address d) (size d) st) as [r Hr].
    destruct (read_register (address d) (size d) st) as [r' st1] eqn:Hrr.
    simpl in Hr. subst r'.
    rewrite (anern_read_parameter_words _ _ _ _ _ Hd Hrr). eexists; reflexivity.
  - rewrite (anern_read_parameter_unknown _ _ Hd). eexists; reflexivity.
Qed.

Lemma deye_read_parameter_returns name (st : St W) :
  exists r, (Deye.read_parameter name st).1 = Ret r.
Proof.
  destruct (Deye.REGISTER_MAP !! name) as [d|] eqn:Hd.
  - destruct (read_register_returns (address d) (size d) st) as [r Hr].
    destruct (read_register (address d) (size d) st) as [r' st1] eqn:Hrr.
    simpl in Hr. subst r'. destruct r as [regs|].
    + destruct (String.eqb name "time_now") eqn:Ht.
      * apply String.eqb_eq in Ht. subst name.
        rewrite (deye_read_parameter_time _ _ _ _ Hd Hrr). eexists; reflexivity.
      * destruct (Deye.is_bitmask name) eqn:Hb.
        -- rewrite (deye_read_parameter_bitmask _ _ _ _ _ Hd Hb Hrr).
           eexists; reflexivity.
        -- rewrite (deye_read_parameter_standard _ _ _ _ _ Hd Ht Hb Hrr).
           eexists; reflexivity.
    + rewrite (deye_read_parameter_failed _ _ _ _ Hd Hrr). eexists; reflexivity.
  - rewrite (deye_read_parameter_unknown _ _ Hd). eexists; reflexivity.
Qed.

Lemma keeps_anern_read_parameter name :
  keeps (W:=W) session_ok (Anern.read_parameter name).
Proof.
  unfold Anern.read_parameter. keeps_steps. apply keeps_standard_value.
Qed.

Lemma keeps_deye_read_parameter name :
  keeps (W:=W) session_ok (Deye.read_parameter name).
Proof.
  unfold Deye.read_parameter. keeps_steps. apply keeps_standard_value.
Qed.

End ReadParameter.

(** ** The status report *)

Lemma reported_iff_positive_ext status status' key reading :
  status' !! key = status !! key ->
  reported_iff_positive status key reading ->
  reported_iff_positive status' key reading.
Proof.
  intros Heq. unfold reported_iff_positive. rewrite Heq. auto.
Qed.

Lemma positive_test (q : Q) :
  negb (Qle_bool q 0) = true <-> (0 < q)%Q.
Proof.
  rewrite negb_true_iff. split.
  - intros Hle. apply Qnot_le_lt. intros Hq.
    apply Qle_bool_iff in Hq. congruence.
  - intros Hlt. destruct (Qle_bool q 0) eqn:Hle; [|reflexivity].
    apply Qle_bool_iff in Hle. lra.
Qed.

Section Status.
Context {W : Type} `{Transport W}.

(** A reading of an Anern parameter is a number. *)
Lemma anern_reading_numeric name (st st' : St W) p :
  Anern.read_parameter name st = (Ret (Some p), st') ->
  exists q, value p = Num q.
Proof.
  intros Hread.
  destruct (Anern.REGISTER_MAP !! name) as [d|] eqn:Hd.
  - destruct (read_register_returns (address d) (size d) st) as [r Hr].
    destruct (read_register (address d) (size d) st) as [r' st1] eqn:Hrr.
    simpl in Hr. subst r'.
    rewrite (anern_read_parameter_words _ _ _ _ _ Hd Hrr) in Hread.
    destruct r as [[|r0 rest]|]; inversion Hread; subst. eexists; reflexivity.
  - rewrite (anern_read_parameter_unknown _ _ Hd) in Hread. discriminate.
Qed.

(** A reading of the Deye error or warning codes is a number. *)
Lemma deye_reading_numeric name (st st' : St W) p :
  Deye.is_bitmask name = true ->
  Deye.read_parameter name st = (Ret (Some p), st') ->
  exists q, value p = Num q.
Proof.
  intros Hb Hread.
  destruct (Deye.REGISTER_MAP !! name) as [d|] eqn:Hd.
  - destruct (read_register_returns (address d) (size d) st) as [r Hr].
    destruct (read_register (address d) (size d) st) as [r' st1] eqn:Hrr.
    simpl in Hr. subst r'. destruct r as [regs|].
    + rewrite (deye_read_parameter_bitmask _ _ _ _ _ Hd Hb Hrr) in Hread.
      inversion Hread; subst. eexists; reflexivity.
    + rewrite (deye_read_parameter_failed _ _ _ _ Hd Hrr) in Hread. discriminate.
  - rewrite (deye_read_parameter_unknown _ _ Hd) in Hread. discriminate.
Qed.

(** Deye: the step that may add one entry. *)
Lemma add_codes_rule key reading status (st : St W) :
  (forall p, reading = Some p -> exists q, value p = Num q) ->
  exists status',
    Deye.add_codes key reading status st = (Ret status', st) /\
    (forall k, k <> key -> status' !! k = status !! k) /\
    (status !! key = None -> reported_iff_positive status' key reading).
Proof.
  intros Hnum. unfold Deye.add_codes. destruct reading as [p|].
  - destruct (Hnum p eq_refl) as [q Hq]. unfold_monad. rewrite Hq. simpl.
    destruct (negb (Qle_bool q 0)) eqn:Hpos.
    + eexists. split; [reflexivity|]. split.
      * intros k Hk. by rewrite lookup_insert_ne.
      * intros _. exists q. split; [exact Hq|].
        apply positive_test in Hpos. rewrite lookup_insert_eq.
        split; [intros; lra|]. split; [reflexivity|]. intros _; lra.
    + eexists. split; [reflexivity|]. split; [reflexivity|].
      intros Hnone. exists q. split; [exact Hq|]. rewrite Hnone.
      split; [reflexivity|]. split.
      * intros Hlt. apply positive_test in Hlt. congruence.
      * intros [x Hx]. discriminate Hx.
  - exists status. split; [reflexivity|]. split; [reflexivity|].
    intros Hnone. exact Hnone.
Qed.

(** Anern: the step that may add one entry and the ["has_errors"] flag. *)
Lemma add_error_flags_rule key reading status (st : St W) :
  key <> "has_errors" ->
  (forall p, reading = Some p -> exists q, value p = Num q) ->
  exists status',
    Anern.add_error_flags key reading status st = (Ret status', st) /\
    (forall k, k <> key -> k <> "has_errors" -> status' !! k = status !! k) /\
    (status !! key = None -> reported_iff_positive status' key reading).
Proof.
  intros Hkey Hnum. unfold Anern.add_error_flags. destruct reading as [p|].
  - destruct (Hnum p eq_refl) as [q Hq]. unfold_monad. rewrite Hq. simpl.
    destruct (negb (Qle_bool q 0)) eqn:Hpos.
    + eexists. split; [reflexivity|]. split.
      * intros k Hk Hk'. by rewrite !lookup_insert_ne.
      * intros _. exists q. split; [exact Hq|].
        apply positive_test in Hpos. rewrite lookup_insert_eq.
        split; [intros; lra|]. split; [reflexivity|]. intros _; lra.
    + eexists. split; [reflexivity|]. split; [reflexivity|].
      intros Hnone. exists q. split; [exact Hq|]. rewrite Hnone.
      split; [reflexivity|]. split.
      * intros Hlt. apply positive_test in Hlt. congruence.
      * intros [x Hx]. discriminate Hx.
  - exists status. split; [reflexivity|]. split; [reflexivity|].
    intros Hnone. exact Hnone.
Qed.

End Status.

Section StatusKeeps.
Context {W : Type} `{Transport W}.

Lemma keeps_anern_get_status : keeps (W:=W) session_ok Anern.get_status.
Proof.
  unfold Anern.get_status, Anern.add_error_flags.
  apply keeps_bind;
    [apply keeps_read_headlines; apply keeps_anern_read_parameter|intros ?].
  apply keeps_bind; [apply keeps_anern_read_parameter|intros ?].
  apply keeps_bind; [apply keeps_anern_read_parameter|intros ?].
  keeps_steps.
Qed.

Lemma keeps_deye_get_status : keeps (W:=W) session_ok Deye.get_status.
Proof.
  unfold Deye.get_status, Deye.add_codes.
  apply keeps_bind;
    [apply keeps_read_headlines; apply keeps_deye_read_parameter|intros ?].
  apply keeps_bind; [apply keeps_deye_read_parameter|intros ?].
  apply keeps_bind; [apply keeps_deye_read_parameter|intros ?].
  keeps_steps.
Qed.

End StatusKeeps.

(** ** Concrete runs *)

Example py_int_toward_zero :
  py_int (11 # 4) = 2 /\ py_int (-11 # 4) = -2 /\ py_int 7 = 7.
Proof. repeat split. Qed.

(** Binary64 at work: the literal [0.1]; [1.7 / 0.1] is the double 17.0,
    though 1.7 is a little less than seventeen tenths; [0.59 / 0.01] is
    58.999999999999993; [2**53 + 1] is not a double; [1e308 / 0.1]
    overflows to an infinity, and [int()] of it raises. *)
Example binary64_quotients :
  py_literal (1 # 10) = PyFloat (Finite (3602879701896397 # 36028797018963968)) /\
  py_register_value (py_literal (17 # 10)) (py_literal (1 # 10)) = Ret 17 /\
  py_int ((17 # 10) / (1 # 10)) = 17 /\
  py_register_value (py_literal (59 # 100)) (py_literal (1 # 100)) = Ret 58 /\
  py_register_value (PyInt (2 ^ 53 + 1)) (py_literal 1) = Ret (2 ^ 53) /\
  py_truediv (PyFloat (binary64 (inject_Z (10 ^ 308)))) (py_literal (1 # 10))
  = Ret PosInf /\
  py_register_value (PyFloat (binary64 (inject_Z (10 ^ 308)))) (py_literal (1 # 10))
  = Raise OverflowError /\
  py_register_value (PyInt (10 ^ 400)) (py_literal 1) = Raise OverflowError /\
  py_register_value (PyFloat NaN) (py_literal 1) = Raise ValueError /\
  py_register_value (PyInt (-7)) (py_literal (1 # 10)) = Ret (-70).
Proof. repeat split; vm_compute; reflexivity. Qed.

Example py_round_to_nearest :
  py_round (11 # 4) = 3 /\ py_round (5 # 2) = 2 /\ py_round (7 # 2) = 4 /\
  py_round (-11 # 4) = -3.
Proof. repeat split. Qed.

Example lower_serial : lower "Serial" = "serial" /\ lower "TCP" = "tcp".
Proof. split; reflexivity. Qed.

Example bitmask_low_word_first :
  Deye.bitmask 0 0 [0x0003; 0; 0; 0] = 3 /\
  Deye.bitmask 0 0 [0x0001; 0x0002] = 0x00020001.
Proof. split; reflexivity. Qed.

Example time_now_text :
  (Deye.read_parameter "time_now"
     (Scripted.session [Scripted.good [14; 5; 9]] [])).1
  = Ret (Some (mkParam (Str "14:05:09") "")).
Proof. vm_compute. reflexivity. Qed.

(** A label that is not in the table: [False], and no call is made. *)
Example unknown_mode_makes_no_call :
  Anern.set_mode "HYBRID" (Scripted.session [] []) =
  (Ret false, Scripted.session [] []) /\
  trace (Deye.set_mode "HYBRID" (Scripted.session [] [Scripted.good []])).2 =
  [EvWrite 0%nat 0x0100 5 1].
Proof. split; vm_compute; reflexivity. Qed.

(** A read on a fresh adapter connects once, then reads. *)
Example first_read_connects :
  let fresh :=
    mkSt (__init__ (mkConfig None None None None None None))
         (Scripted.mkWorld [] [Scripted.good [87]] [] 0%nat []) [] in
  (Anern.read_parameter "battery_soc" fresh).1
  = Ret (Some (mkParam (Num (87 # 1)) "%")) /\
  trace (Anern.read_parameter "battery_soc" fresh).2
  = [EvNewSerial; EvConnect 0%nat; EvRead 0%nat 0x0120 1 1].
Proof. split; vm_compute; reflexivity. Qed.

(** The third attempt succeeds: an error response is retried at once, an
    exception after a sleep. *)
Example third_attempt_succeeds :
  let st := Scripted.session
              [Ret (mkResponse true []); Raise ModbusException;
               Scripted.good [2301]] [] in
  (read_register 0x0100 1 st).1 = Ret (Some [2301]) /\
  trace (read_register 0x0100 1 st).2 =
  [EvRead 0%nat 0x0100 1 1; EvRead 0%nat 0x0100 1 1; EvSleep;
   EvRead 0%nat 0x0100 1 1].
Proof. split; vm_compute; reflexivity. Qed.

(** * The claims *)

(** ** Encoding on write *)

(** C1, as the code has it: for a name of either register map,
    [write_parameter] computes [int(value / factor)] in Python arithmetic.
    When the quotient, a [float], is finite, it is truncated toward zero
    (the integer part of a non-negative quotient, and for a negative
    quotient the least integer not below it), not rounded to the nearest
    integer, and the call is [write_register] at the descriptor's address
    with that word. The quotient of a finite [float] is the double
    nearest to the exact quotient. When the quotient is an infinity or
    NaN, or the value is an [int] beyond the doubles, the exception
    ([OverflowError], [ValueError]) leaves [write_parameter] before any
    call is made; [ZeroDivisionError] does not arise. *)
Theorem write_parameter_truncates {W : Type} `{Transport W}
    (st : St W) (name : string) (d : RegisterInfo) (v : pynum) :
  Anern.REGISTER_MAP !! name = Some d \/ Deye.REGISTER_MAP !! name = Some d ->
  let quotient := py_truediv v (py_literal (factor d)) in
  let call_is (outcome : Res bool * St W) :=
    (Anern.REGISTER_MAP !! name = Some d ->
     Anern.write_parameter name v st = outcome) /\
    (Deye.REGISTER_MAP !! name = Some d ->
     Deye.write_parameter name v st = outcome) in
  (forall q, quotient = Ret (Finite q) ->
     let register_value := py_int q in
     ((0 <= q)%Q ->
      (inject_Z register_value <= q /\ q < inject_Z register_value + 1)%Q) /\
     ((q < 0)%Q ->
      (inject_Z register_value - 1 < q /\ q <= inject_Z register_value)%Q) /\
     call_is (write_register (address d) register_value st)) /\
  (forall x q F,
     v = PyFloat (Finite x) -> number (py_literal (factor d)) = Some F ->
     quotient = Ret (Finite q) ->
     (Qabs (q - x / F) <= Qabs (x / F) * unit_roundoff + half_least)%Q) /\
  (quotient = Ret PosInf \/ quotient = Ret NegInf ->
   call_is (Raise OverflowError, st)) /\
  (quotient = Ret NaN -> call_is (Raise ValueError, st)) /\
  (forall e, quotient = Raise e -> call_is (Raise e, st)) /\
  quotient <> Raise ZeroDivisionError.
Proof.
  intros Hknown quotient call_is.
  assert (Hret : forall q w,
            quotient = Ret q -> int_of_float q = Ret w ->
            call_is (write_register (address d) w st)).
  { intros q w Hq Hw. split; intros Hd;
      (apply write_parameter_known with (d := d); [exact Hd|]);
      unfold py_register_value; fold quotient; by rewrite Hq. }
  assert (Hraise : forall e,
            py_register_value v (py_literal (factor d)) = Raise e ->
            call_is (Raise e, st)).
  { intros e He. split; intros Hd; by apply write_parameter_raises with (d := d). }
  split; [|split; [|split; [|split; [|split]]]].
  - intros q Hq register_value.
    split; [apply py_int_nonneg|]. split; [apply py_int_neg|].
    by apply (Hret (Finite q)).
  - intros x q F -> HF Hq.
    by apply (truediv_rounds x (factor d) F q (map_factor _ _ Hknown)).
  - intros Hq. apply Hraise. unfold py_register_value. fold quotient.
    by destruct Hq as [-> | ->].
  - intros Hq. apply Hraise. unfold py_register_value. fold quotient.
    by rewrite Hq.
  - intros e Hq. apply Hraise. unfold py_register_value. fold quotient.
    by rewrite Hq.
  - apply truediv_no_zero_division. apply (map_factor _ _ Hknown).
Qed.

(** Run of C1 at the Anern [battery_cutoff_voltage] (factor 0.1) with the
    value 1.7: the quotient is the double 17.0, and 17 is written. *)
Lemma write_parameter_truncates_witness :
  Anern.REGISTER_MAP !! "battery_cutoff_voltage"
  = Some (mkReg 0x0305 1 (1#10) "V") /\
  py_truediv (py_literal (17#10)) (py_literal (1#10)) = Ret (Finite 17) /\
  Anern.write_parameter "battery_cutoff_voltage" (py_literal (17#10))
    (Scripted.session [] []) =
  write_register 0x0305 17 (Scripted.session [] []).
Proof.
  assert (Hd : Anern.REGISTER_MAP !! "battery_cutoff_voltage"
               = Some (mkReg 0x0305 1 (1#10) "V")) by (vm_compute; reflexivity).
  assert (Hq : py_truediv (py_literal (17#10)) (py_literal (1#10))
               = Ret (Finite 17)) by (vm_compute; reflexivity).
  split; [exact Hd|]. split; [exact Hq|].
  exact (proj1 (proj2 (proj2
           (proj1 (write_parameter_truncates (Scripted.session [] [])
                     "battery_cutoff_voltage" (mkReg 0x0305 1 (1#10) "V")
                     (py_literal (17#10)) (or_introl Hd))
                  17%Q Hq))) Hd).
Defined.

(** C1, as stated, fails: writing 2.75 to [max_charging_current] (factor 1)
    on a connected session puts 2 on the line, where [round(2.75 / 1)] is 3. *)
Lemma write_parameter_does_not_round :
  Anern.REGISTER_MAP !! "max_charging_current" = Some (mkReg 0x0300 1 1 "A") /\
  spec_encode 1 (11#4) = 3 /\
  trace (Anern.write_parameter "max_charging_current" (PyFloat (Finite (11#4)))
           (Scripted.session [] [Scripted.good []])).2
  = [EvWrite 0%nat 0x0300 2 1] /\
  2 <> spec_encode 1 (11#4).
Proof.
  split; [vm_compute; reflexivity|].
  split; [vm_compute; reflexivity|].
  split; [vm_compute; reflexivity|].
  vm_compute. discriminate.
Qed.




(** ** The session state *)

(** C2, as the code has it: on a connected session [read_register] and
    [write_register] leave the adapter object as it was, whatever the
    outcome: after the retries are exhausted [is_connected] is still true
    and the client is kept. *)
Theorem retries_exhausted_stays_connected {W : Type} `{Transport W}
    (st : St W) (address count val : Z) :
  is_connected (self st) = true ->
  self (read_register address count st).2 = self st /\
  self (write_register address val st).2 = self st /\
  ((read_register address count st).1 = Ret None ->
   is_connected (self (read_register address count st).2) = true) /\
  ((write_register address val st).1 = Ret false ->
   is_connected (self (write_register address val st).2) = true).
Proof.
  intros Hconn.
  assert (Hr : self (read_register address count st).2 = self st).
  { rewrite (read_register_connected _ _ _ Hconn). apply read_attempts_self. }
  assert (Hw : self (write_register address val st).2 = self st).
  { rewrite (write_register_connected _ _ _ Hconn). apply write_attempts_self. }
  split; [exact Hr|]. split; [exact Hw|].
  rewrite Hr, Hw. auto.
Qed.

(** Run of C2 on the dead line. *)
Lemma retries_exhausted_stays_connected_witness :
  is_connected (self Dead.session) = true /\
  (read_register 0x0100 1 Dead.session).1 = Ret None /\
  is_connected (self (read_register 0x0100 1 Dead.session).2) = true.
Proof.
  split; [reflexivity|]. split; [reflexivity|].
  exact (proj1 (proj2 (proj2
           (retries_exhausted_stays_connected Dead.session 0x0100 1 0 eq_refl)))
           eq_refl).
Defined.

(** C2, as stated, fails: on the dead line a connected session makes its
    three read attempts (and its three write attempts), returns the failure
    result, and is still connected. *)
Lemma exhaustion_does_not_disconnect :
  is_connected (self Dead.session) = true /\
  retries (self Dead.session) = 3 /\
  (read_register 0x0100 1 Dead.session).1 = Ret None /\
  transactions (trace (read_register 0x0100 1 Dead.session).2) =
    [EvRead 0%nat 0x0100 1 1; EvRead 0%nat 0x0100 1 1; EvRead 0%nat 0x0100 1 1] /\
  is_connected (self (read_register 0x0100 1 Dead.session).2) = true /\
  (write_register 0x0300 7 Dead.session).1 = Ret false /\
  is_connected (self (write_register 0x0300 7 Dead.session).2) = true.
Proof. repeat split; vm_compute; reflexivity. Qed.

(** C4, as the code has it: [connect] on a connected session is not a
    no-op. It calls the client constructor; when the constructor raises,
    the old client is kept and the session becomes disconnected; when it
    returns a client, that client is stored in place of the old one (which
    is not closed) and opened, and [connect] returns true exactly when the
    open returns true. The result is always the new value of
    [is_connected], nothing is raised, and the other attributes are
    unchanged. *)
Theorem connect_reopens {W : Type} `{Transport W} (st : St W) :
  is_connected (self st) = true ->
  exists (b : bool) (ev : event),
    (connect st).1 = Ret b /\
    is_connected (self (connect st).2) = b /\
    same_settings (self st) (self (connect st).2) /\
    (ev = EvNewSerial \/ ev = EvNewTcp) /\
    ((exists e w1,
        constructor_call (self st) (world st) = (Raise e, w1) /\
        b = false /\
        client (self (connect st).2) = client (self st) /\
        trace (connect st).2 = trace st ++ [ev]) \/
     (exists c w1,
        constructor_call (self st) (world st) = (Ret c, w1) /\
        client (self (connect st).2) = Some c /\
        trace (connect st).2 = trace st ++ [ev; EvConnect c] /\
        (b = true <-> (client_connect c w1).1 = Ret true))).
Proof.
  intros _. unfold connect, same_settings, constructor_call. unfold_monad.
  destruct (String.eqb _ _); simpl.
  - destruct (ModbusSerialClient _ _ _) as [[c|e] w1]; simpl.
    + destruct (client_connect c w1) as [[[|]|e] w2] eqn:Hopen; simpl.
      all: eexists; exists EvNewSerial; split; [reflexivity|]; simpl.
      all: split; [reflexivity|]; split; [auto 10|]; split; [auto|].
      all: right; exists c, w1; split; [reflexivity|]; split; [reflexivity|].
      all: rewrite <- app_assoc; split; [reflexivity|]; rewrite Hopen; simpl.
      all: split; congruence.
    + exists false, EvNewSerial. simpl. split; [reflexivity|].
      split; [reflexivity|]. split; [auto 10|]. split; [auto|].
      left. exists e, w1. auto.
  - destruct (ModbusTcpClient _ _ _) as [[c|e] w1]; simpl.
    + destruct (client_connect c w1) as [[[|]|e] w2] eqn:Hopen; simpl.
      all: eexists; exists EvNewTcp; split; [reflexivity|]; simpl.
      all: split; [reflexivity|]; split; [auto 10|]; split; [auto|].
      all: right; exists c, w1; split; [reflexivity|]; split; [reflexivity|].
      all: rewrite <- app_assoc; split; [reflexivity|]; rewrite Hopen; simpl.
      all: split; congruence.
    + exists false, EvNewTcp. simpl. split; [reflexivity|].
      split; [reflexivity|]. split; [auto 10|]. split; [auto|].
      left. exists e, w1. auto.
Qed.

(** Run of C4 on a connected session of the scripted line. *)
Lemma connect_reopens_witness :
  let st := Scripted.session [] [] in
  is_connected (self st) = true /\
  exists (b : bool) (ev : event),
    (connect st).1 = Ret b /\
    is_connected (self (connect st).2) = b /\
    same_settings (self st) (self (connect st).2) /\
    (ev = EvNewSerial \/ ev = EvNewTcp) /\
    ((exists e w1,
        constructor_call (self st) (world st) = (Raise e, w1) /\
        b = false /\
        client (self (connect st).2) = client (self st) /\
        trace (connect st).2 = trace st ++ [ev]) \/
     (exists c w1,
        constructor_call (self st) (world st) = (Ret c, w1) /\
        client (self (connect st).2) = Some c /\
        trace (connect st).2 = trace st ++ [ev; EvConnect c] /\
        (b = true <-> (client_connect c w1).1 = Ret true))).
Proof.
  intros st. split; [reflexivity|].
  exact (connect_reopens st eq_refl).
Defined.

(** C4, as stated, fails: on a session connected through client [0],
    [connect] makes client [1] and opens it; when the line accepts, the
    stored client has changed, and when the line refuses, [connect] returns
    false and the session is no longer connected. *)
Lemma connect_is_not_idempotent :
  let accepting := Scripted.session [] [] in
  let refusing :=
    mkSt Scripted.connected_adapter (Scripted.mkWorld [Ret false] [] [] 1%nat []) [] in
  is_connected (self accepting) = true /\
  client (self accepting) = Some 0%nat /\
  (connect accepting).1 = Ret true /\
  client (self (connect accepting).2) = Some 1%nat /\
  trace (connect accepting).2 = [EvNewSerial; EvConnect 1%nat] /\
  is_connected (self refusing) = true /\
  (connect refusing).1 = Ret false /\
  is_connected (self (connect refusing).2) = false.
Proof. repeat split; vm_compute; reflexivity. Qed.

(** C9: a connected adapter holds a client. The invariant holds after
    [__init__] and is preserved by [connect], [disconnect], [read_register],
    [write_register] and by every parameter operation of both classes; and
    on a session that satisfies it [disconnect] returns normally (it does
    not raise, so it does not reach for an attribute of an absent client)
    and leaves [is_connected] false. *)
Theorem connected_session_has_client {W : Type} `{Transport W} :
  (forall cfg, session_ok (__init__ cfg)) /\
  (forall st : St W, session_ok (self st) ->
     session_ok (self (connect st).2) /\
     session_ok (self (disconnect st).2) /\
     (forall address count, session_ok (self (read_register address count st).2)) /\
     (forall address val, session_ok (self (write_register address val st).2)) /\
     (forall name,
        session_ok (self (Anern.read_parameter name st).2) /\
        session_ok (self (Deye.read_parameter name st).2)) /\
     (forall name v,
        session_ok (self (Anern.write_parameter name v st).2) /\
        session_ok (self (Deye.write_parameter name v st).2)) /\
     session_ok (self (Anern.get_status st).2) /\
     session_ok (self (Deye.get_status st).2) /\
     (forall label,
        session_ok (self (Anern.set_mode label st).2) /\
        session_ok (self (Anern.set_charge_priority label st).2) /\
        session_ok (self (Anern.set_output_priority label st).2) /\
        session_ok (self (Deye.set_mode label st).2) /\
        session_ok (self (Deye.set_charge_priority label st).2) /\
        session_ok (self (Deye.set_output_priority label st).2)) /\
     (forall x,
        session_ok (self (Anern.set_max_charging_current x st).2) /\
        session_ok (self (Anern.set_battery_cutoff_voltage x st).2) /\
        session_ok (self (Deye.set_max_charging_current x st).2) /\
        session_ok (self (Deye.set_battery_cutoff_voltage x st).2))) /\
  (forall st : St W, session_ok (self st) ->
     exists b, (disconnect st).1 = Ret b /\
               is_connected (self (disconnect st).2) = false).
Proof.
  split; [apply session_ok_init|]. split; [|apply disconnect_result].
  intros st Hok.
  split; [by apply keeps_connect|].
  split; [by apply keeps_disconnect|].
  split; [intros; by apply keeps_read_register|].
  split; [intros; by apply keeps_write_register|].
  split; [intros; split;
            [by apply keeps_anern_read_parameter
            |by apply keeps_deye_read_parameter]|].
  split; [intros; split; by apply keeps_write_parameter|].
  split; [by apply keeps_anern_get_status|].
  split; [by apply keeps_deye_get_status|].
  split.
  - intros label. repeat split; by apply keeps_set_enumerated.
  - intros x. repeat split; by apply keeps_write_parameter.
Qed.

(** Run of C9: disconnecting a connected session of the scripted line. *)
Lemma connected_session_has_client_witness :
  session_ok (self (Scripted.session [] [])) /\
  exists b, (disconnect (Scripted.session [] [])).1 = Ret b /\
            is_connected (self (disconnect (Scripted.session [] [])).2) = false.
Proof.
  assert (Hok : session_ok (self (Scripted.session [] []))).
  { intros _. exists 0%nat. reflexivity. }
  split; [exact Hok|].
  exact (proj2 (proj2 connected_session_has_client) (Scripted.session [] []) Hok).
Defined.

(** ** Retries *)




(** ** Decoding on read *)

(** C3, as the code has it: [read_parameter] does not compare the number
    of words returned with [size]. When at least [size] words arrive a
    value is returned (for Anern, the first word times the factor, the
    other words ignored); when fewer arrive the result is [None], except
    for the Deye error and warning codes, which combine whatever arrived.
    No further transaction follows the read, and a short response is not
    told apart from a failed transaction: both give [None]. *)
Theorem word_count_is_not_checked {W : Type} `{Transport W}
    (st st1 : St W) (name : string) (d : RegisterInfo)
    (r : option (list Z)) :
  read_register (address d) (size d) st = (Ret r, st1) ->
  (Anern.REGISTER_MAP !! name = Some d ->
   match r with
   | None => Anern.read_parameter name st = (Ret None, st1)
   | Some regs =>
     (size d <= Z.of_nat (length regs) ->
      Anern.read_parameter name st =
      (Ret (Some (mkParam (Num (inject_Z (hd 0 regs) * factor d)) (unit d))), st1)) /\
     (Z.of_nat (length regs) < size d ->
      Anern.read_parameter name st = (Ret None, st1))
   end) /\
  (Deye.REGISTER_MAP !! name = Some d ->
   match r with
   | None => Deye.read_parameter name st = (Ret None, st1)
   | Some regs =>
     (size d <= Z.of_nat (length regs) ->
      exists p, Deye.read_parameter name st = (Ret (Some p), st1)) /\
     (Z.of_nat (length regs) < size d ->
      if Deye.is_bitmask name
      then exists p, Deye.read_parameter name st = (Ret (Some p), st1)
      else Deye.read_parameter name st = (Ret None, st1))
   end).
Proof.
  intros Hr. split.
  - intros Hd. destruct (anern_descriptor _ _ Hd) as [Hsz _].
    rewrite (anern_read_parameter_words _ _ _ _ _ Hd Hr).
    destruct r as [[|r0 rest]|]; [| |reflexivity].
    + split; [simpl; lia|reflexivity].
    + split; [reflexivity|simpl; lia].
  - intros Hd. destruct (deye_descriptor _ _ Hd) as [_ Hkind].
    destruct r as [regs|];
      [|apply (deye_read_parameter_failed _ _ _ _ Hd Hr)].
    destruct (String.eqb name "time_now") eqn:Ht.
    + apply String.eqb_eq in Ht. subst name.
      rewrite (deye_read_parameter_time _ _ _ _ Hd Hr). simpl.
      destruct regs as [|h [|m [|s rest]]]; simpl; split; intros; try lia;
        try reflexivity; eexists; reflexivity.
    + destruct (Deye.is_bitmask name) eqn:Hb.
      * rewrite (deye_read_parameter_bitmask _ _ _ _ _ Hd Hb Hr).
        split; intros; eexists; reflexivity.
      * rewrite (deye_read_parameter_standard _ _ _ _ _ Hd Ht Hb Hr).
        destruct Hkind as [Hsz|Hsz]; rewrite Hsz.
        -- destruct regs as [|r0 rest].
           ++ rewrite standard_value_empty. simpl.
              split; intros; [lia|reflexivity].
           ++ rewrite standard_value_single by lia. simpl.
              split; intros; [eexists; reflexivity|lia].
        -- destruct regs as [|r0 [|r1 rest]].
           ++ rewrite standard_value_empty. simpl.
              split; intros; [lia|reflexivity].
           ++ rewrite standard_value_short_pair. simpl.
              split; intros; [lia|reflexivity].
           ++ rewrite standard_value_pair. simpl.
              split; intros; [eexists; reflexivity|lia].
Qed.

(** Run of C3: two words arrive for the one-word [grid_voltage]. *)
Lemma word_count_is_not_checked_witness :
  let st := Scripted.session [Scripted.good [2301; 7]] [] in
  let st1 := mkSt Scripted.connected_adapter (Scripted.mkWorld [] [] [] 1%nat [])
                  [EvRead 0%nat 0x0100 1 1] in
  (read_register 0x0100 1 st = (Ret (Some [2301; 7]), st1) /\
   Anern.REGISTER_MAP !! "grid_voltage" = Some (mkReg 0x0100 1 (1#10) "V") /\
   1 <= Z.of_nat (length [2301; 7])) /\
  Anern.read_parameter "grid_voltage" st =
  (Ret (Some (mkParam (Num (inject_Z 2301 * (1#10))) "V")), st1).
Proof.
  intros st st1.
  assert (Hr : read_register 0x0100 1 st = (Ret (Some [2301; 7]), st1))
    by reflexivity.
  assert (Hd : Anern.REGISTER_MAP !! "grid_voltage"
               = Some (mkReg 0x0100 1 (1#10) "V")) by (vm_compute; reflexivity).
  assert (Hlen : 1 <= Z.of_nat (length [2301; 7])) by (simpl; lia).
  split; [repeat split; assumption|].
  exact (proj1 (proj1 (word_count_is_not_checked st st1 "grid_voltage"
                         (mkReg 0x0100 1 (1#10) "V") (Some [2301; 7]) Hr) Hd)
           Hlen).
Defined.

(** C3, as stated, fails: two words returned for the one-word
    [grid_voltage] are decoded to a value, with no error; and an empty
    response gives the [None] that a dead line gives. *)
Lemma word_count_mismatch_is_silent :
  Anern.REGISTER_MAP !! "grid_voltage" = Some (mkReg 0x0100 1 (1#10) "V") /\
  (Anern.read_parameter "grid_voltage"
     (Scripted.session [Scripted.good [2301; 7]] [])).1
  = Ret (Some (mkParam (Num (2301 # 10)) "V")) /\
  (Anern.read_parameter "grid_voltage"
     (Scripted.session [Scripted.good []] [])).1 = Ret None /\
  (Anern.read_parameter "grid_voltage" Dead.session).1 = Ret None.
Proof. repeat split; vm_compute; reflexivity. Qed.

(** C6: the branch for [size == 2] takes the first word as the high half
    and the second as the low half, [(registers[0] << 16 | registers[1])],
    and multiplies by the factor; this is the value [read_parameter]
    returns for every two-word descriptor of the Deye map (the Anern map
    has none) when two words arrive; the words [0x0001, 0x0000] with
    factor 0.1 give 6553.6. *)
Theorem wide_value_decoding {W : Type} `{Transport W} (st st1 : St W) :
  (forall f r0 r1 rest,
     standard_value 2 f (r0 :: r1 :: rest) st =
     (Ret (Num (inject_Z (Z.lor (Z.shiftl r0 16) r1) * f)), st)) /\
  (forall name d r0 r1,
     Deye.REGISTER_MAP !! name = Some d ->
     size d = 2 ->
     read_register (address d) (size d) st = (Ret (Some [r0; r1]), st1) ->
     Deye.read_parameter name st =
     (Ret (Some (mkParam (Num (inject_Z (Z.lor (Z.shiftl r0 16) r1) * factor d))
                         (unit d))), st1)) /\
  (exists q, standard_value 2 (1#10) [0x0001; 0x0000] st = (Ret (Num q), st) /\
             (q == 6553.6)%Q).
Proof.
  split; [intros; apply standard_value_pair|]. split.
  - intros name d r0 r1 Hd Hsz Hr.
    destruct (deye_descriptor _ _ Hd) as [_ Hkind].
    destruct (String.eqb name "time_now") eqn:Ht; [lia|].
    destruct (Deye.is_bitmask name) eqn:Hb; [lia|].
    rewrite (deye_read_parameter_standard _ _ _ _ _ Hd Ht Hb Hr).
    rewrite Hsz, standard_value_pair. reflexivity.
  - eexists. split; [apply standard_value_pair|]. reflexivity.
Qed.

(** Run of C6: [pv_total_energy] read as the words [1, 0]. *)
Lemma wide_value_decoding_witness :
  let st := Scripted.session [Scripted.good [0x0001; 0x0000]] [] in
  let st1 := mkSt Scripted.connected_adapter (Scripted.mkWorld [] [] [] 1%nat [])
                  [EvRead 0%nat 0x0203 2 1] in
  (Deye.REGISTER_MAP !! "pv_total_energy" = Some (mkReg 0x0203 2 (1#10) "kWh") /\
   read_register 0x0203 2 st = (Ret (Some [0x0001; 0x0000]), st1)) /\
  Deye.read_parameter "pv_total_energy" st =
  (Ret (Some (mkParam (Num (inject_Z (Z.lor (Z.shiftl 0x0001 16) 0x0000) * (1#10)))
                      "kWh")), st1).
Proof.
  intros st st1.
  assert (Hd : Deye.REGISTER_MAP !! "pv_total_energy"
               = Some (mkReg 0x0203 2 (1#10) "kWh")) by (vm_compute; reflexivity).
  assert (Hr : read_register 0x0203 2 st = (Ret (Some [0x0001; 0x0000]), st1))
    by reflexivity.
  split; [split; assumption|].
  exact (proj1 (proj2 (wide_value_decoding st st1))
           "pv_total_energy" (mkReg 0x0203 2 (1#10) "kWh") 0x0001 0x0000
           Hd eq_refl Hr).
Defined.

(** ** Round trip *)

(** C7, as the code has it: for a one-word parameter of either map and a
    value [v] whose word [int(v / factor)] lies in the range of a register,
    [v] is finite, [write_parameter] puts that word on the line, and when a
    later read returns it, the number [registers[0] * factor] is within
    the factor times [1 + 2^-32] of [v]: the factor, and a rounding error
    of the binary64 division and product. This holds of the exact product
    that [read_parameter] returns here and of the [float] that Python
    computes. *)
Theorem scaled_round_trip {W : Type} `{Transport W}
    (name : string) (d : RegisterInfo) (v : pynum) (word : Z) :
  size d = 1 ->
  Anern.REGISTER_MAP !! name = Some d \/ Deye.REGISTER_MAP !! name = Some d ->
  py_register_value v (py_literal (factor d)) = Ret word ->
  0 <= word <= 65535 ->
  exists (x : Q) (y : pynum) (r : Q),
    number v = Some x /\
    (Anern.REGISTER_MAP !! name = Some d ->
     (forall st : St W,
        Anern.write_parameter name v st = write_register (address d) word st) /\
     (forall st st1 : St W,
        read_register (address d) (size d) st = (Ret (Some [word]), st1) ->
        Anern.read_parameter name st =
        (Ret (Some (mkParam (Num (inject_Z word * factor d)) (unit d))), st1))) /\
    (Deye.REGISTER_MAP !! name = Some d ->
     (forall st : St W,
        Deye.write_parameter name v st = write_register (address d) word st) /\
     (forall st st1 : St W,
        read_register (address d) (size d) st = (Ret (Some [word]), st1) ->
        Deye.read_parameter name st =
        (Ret (Some (mkParam (Num (inject_Z word * factor d)) (unit d))), st1))) /\
    (Qabs (inject_Z word * factor d - x) < factor d * (1 + rounding_slack))%Q /\
    py_mul word (py_literal (factor d)) = Ret y /\
    number y = Some r /\
    (Qabs (r - x) < factor d * (1 + rounding_slack))%Q.
Proof.
  intros Hsz Hknown Hword Hrange.
  pose proof (map_factor _ _ Hknown) as Hf.
  destruct (known_factor_pair _ Hf) as (F & Hpair & _ & _ & HF & _).
  destruct (register_value_inv v _ F word Hf HF Hword)
    as (x & v' & q' & Hx & Hv & Hq & Hw).
  destruct (round_trip_arith _ F x v' q' word Hpair Hv Hq Hw Hrange)
    as [Hexact Hfloat].
  destruct (py_mul_word word _ F Hf HF Hrange) as (y & r & w' & Hy & Hr & Hw' & Hp).
  exists x, y, r. split; [exact Hx|]. split; [|split].
  - intros Hd. split.
    + intros st. by apply write_parameter_known with (d := d).
    + intros st st1 Hread. apply (anern_read_parameter_words _ _ _ _ _ Hd Hread).
  - intros Hd. destruct (deye_descriptor _ _ Hd) as [_ Hkind]. split.
    + intros st. by apply write_parameter_known with (d := d).
    + intros st st1 Hread.
      destruct (String.eqb name "time_now") eqn:Ht; [lia|].
      destruct (Deye.is_bitmask name) eqn:Hb; [lia|].
      rewrite (deye_read_parameter_standard _ _ _ _ _ Hd Ht Hb Hread).
      rewrite standard_value_single by lia. reflexivity.
  - split; [exact Hexact|]. split; [exact Hy|]. split; [exact Hr|].
    by apply (Hfloat w' r).
Qed.

(** Run of C7: 23.14 V written to the Anern [battery_cutoff_voltage] goes
    out as the word 231 and comes back as 23.1 V. *)
Lemma scaled_round_trip_witness :
  let v := py_literal (2314 # 100) in
  (size (mkReg 0x0305 1 (1#10) "V") = 1 /\
   Anern.REGISTER_MAP !! "battery_cutoff_voltage"
   = Some (mkReg 0x0305 1 (1#10) "V") /\
   py_register_value v (py_literal (1#10)) = Ret 231 /\
   0 <= 231 <= 65535) /\
  number v = Some (1628332740271145 # 70368744177664)%Q /\
  (forall st : St Scripted.World,
     Anern.write_parameter "battery_cutoff_voltage" v st =
     write_register 0x0305 231 st) /\
  (forall st st1 : St Scripted.World,
     read_register 0x0305 1 st = (Ret (Some [231]), st1) ->
     Anern.read_parameter "battery_cutoff_voltage" st =
     (Ret (Some (mkParam (Num (inject_Z 231 * (1#10))) "V")), st1)) /\
  (Qabs (inject_Z 231 * (1#10) - (1628332740271145 # 70368744177664))
   < (1#10) * (1 + rounding_slack))%Q /\
  py_mul 231 (py_literal (1#10)) = Ret (py_literal (231#10)) /\
  number (py_literal (231#10)) = Some (3251035981008077 # 140737488355328)%Q /\
  (Qabs ((3251035981008077 # 140737488355328)
         - (1628332740271145 # 70368744177664))
   < (1#10) * (1 + rounding_slack))%Q.
Proof.
  intros v.
  assert (Hd : Anern.REGISTER_MAP !! "battery_cutoff_voltage"
               = Some (mkReg 0x0305 1 (1#10) "V")) by (vm_compute; reflexivity).
  assert (Hw : py_register_value v (py_literal (1#10)) = Ret 231)
    by (vm_compute; reflexivity).
  assert (Hrange : 0 <= 231 <= 65535) by lia.
  split; [repeat split; try assumption; lia|].
  destruct (scaled_round_trip (W:=Scripted.World) "battery_cutoff_voltage"
              (mkReg 0x0305 1 (1#10) "V") v 231 eq_refl (or_introl Hd)
              Hw Hrange)
    as (x & y & r & Hx & Hanern & _ & Hexact & Hy & Hr & Hfloat).
  vm_compute in Hx. injection Hx as <-.
  assert (Hy' : py_mul 231 (py_literal (1#10)) = Ret (py_literal (231#10)))
    by (vm_compute; reflexivity).
  cbn [factor] in Hy. rewrite Hy' in Hy. injection Hy as <-.
  vm_compute in Hr. injection Hr as <-.
  destruct (Hanern Hd) as [Hwrite Hread].
  split; [reflexivity|]. split; [exact Hwrite|]. split; [exact Hread|].
  split; [exact Hexact|]. split; [exact Hy'|]. split; [vm_compute; reflexivity|].
  exact Hfloat.
Defined.

(** C7, as stated, fails: 0.59 Hz written to the Anern [grid_frequency]
    (factor 0.01) has the binary64 quotient 58.999999999999993 and goes
    out as the word 58; [58 * 0.01] is the double 0.58, and the two doubles
    are 0.010000000000000009 apart, more than the factor. *)
Lemma round_trip_exceeds_the_scale :
  let v := py_literal (59 # 100) in
  Anern.REGISTER_MAP !! "grid_frequency" = Some (mkReg 0x0101 1 (1#100) "Hz") /\
  number v = Some (5314247560297185 # 9007199254740992)%Q /\
  py_register_value v (py_literal (1#100)) = Ret 58 /\
  trace (Anern.write_parameter "grid_frequency" v
           (Scripted.session [] [Scripted.good []])).2
  = [EvWrite 0%nat 0x0101 58 1] /\
  py_mul 58 (py_literal (1#100)) = Ret (py_literal (58#100)) /\
  number (py_literal (58#100)) = Some (5224175567749775 # 9007199254740992)%Q /\
  number (py_literal (1#100)) = Some (5764607523034235 # 576460752303423488)%Q /\
  ~ (Qabs ((5224175567749775 # 9007199254740992)
           - (5314247560297185 # 9007199254740992)) <= 1 # 100)%Q /\
  ~ (Qabs ((5224175567749775 # 9007199254740992)
           - (5314247560297185 # 9007199254740992))
     <= 5764607523034235 # 576460752303423488)%Q.
Proof.
  intros v.
  split; [vm_compute; reflexivity|]. split; [vm_compute; reflexivity|].
  split; [vm_compute; reflexivity|]. split; [vm_compute; reflexivity|].
  split; [vm_compute; reflexivity|]. split; [vm_compute; reflexivity|].
  split; [vm_compute; reflexivity|].
  split; intros Hle; apply Qle_bool_iff in Hle; vm_compute in Hle;
    discriminate Hle.
Qed.

(** ** The status report *)

(** A key that is none of the listed names. *)
Ltac not_listed :=
  unfold Anern.parameters, Deye.parameters;
  repeat (apply not_elem_of_cons; split; [discriminate|]);
  apply not_elem_of_nil.

(** C8: in the dict returned by [get_status] the entry of an error or
    warning field (Anern [error_flags_1], [error_flags_2]; Deye [errors]
    from [error_codes], [warnings] from [warning_codes]) is absent when the
    field could not be read or its value is zero, is the reading when its
    value is positive, and is never present with a zero value.
    [get_status] does not raise. *)
Theorem status_reports_nonzero_errors {W : Type} `{Transport W} (st : St W) :
  (exists headline st1 flags_1 st2 flags_2 st3 status,
     read_headlines Anern.read_parameter Anern.parameters ∅ st
     = (Ret headline, st1) /\
     Anern.read_parameter "error_flags_1" st1 = (Ret flags_1, st2) /\
     Anern.read_parameter "error_flags_2" st2 = (Ret flags_2, st3) /\
     Anern.get_status st = (Ret status, st3) /\
     reported_iff_positive status "error_flags_1" flags_1 /\
     reported_iff_positive status "error_flags_2" flags_2) /\
  (exists headline st1 error_codes st2 warning_codes st3 status,
     read_headlines Deye.read_parameter Deye.parameters ∅ st
     = (Ret headline, st1) /\
     Deye.read_parameter "error_codes" st1 = (Ret error_codes, st2) /\
     Deye.read_parameter "warning_codes" st2 = (Ret warning_codes, st3) /\
     Deye.get_status st = (Ret status, st3) /\
     reported_iff_positive status "errors" error_codes /\
     reported_iff_positive status "warnings" warning_codes).
Proof.
  split.
  - destruct (read_headlines_returns Anern.read_parameter Anern.parameters ∅ st
                anern_read_parameter_returns) as [headline Hh].
    destruct (read_headlines Anern.read_parameter Anern.parameters ∅ st)
      as [h' st1] eqn:Hhead.
    simpl in Hh. subst h'.
    destruct (anern_read_parameter_returns "error_flags_1" st1) as [f1 Hf1].
    destruct (Anern.read_parameter "error_flags_1" st1) as [f1' st2] eqn:Hr1.
    simpl in Hf1. subst f1'.
    destruct (anern_read_parameter_returns "error_flags_2" st2) as [f2 Hf2].
    destruct (Anern.read_parameter "error_flags_2" st2) as [f2' st3] eqn:Hr2.
    simpl in Hf2. subst f2'.
    assert (Hn1 : forall p, f1 = Some p -> exists q, value p = Num q).
    { intros p ->. apply (anern_reading_numeric _ _ _ _ Hr1). }
    assert (Hn2 : forall p, f2 = Some p -> exists q, value p = Num q).
    { intros p ->. apply (anern_reading_numeric _ _ _ _ Hr2). }
    destruct (add_error_flags_rule "error_flags_1" f1 headline st3
                ltac:(discriminate) Hn1) as (s1 & Hs1 & Hother1 & Hrule1).
    destruct (add_error_flags_rule "error_flags_2" f2 s1 st3
                ltac:(discriminate) Hn2) as (s2 & Hs2 & Hother2 & Hrule2).
    exists headline, st1, f1, st2, f2, st3, s2.
    split; [reflexivity|]. split; [exact Hr1|]. split; [exact Hr2|].
    assert (Hk1 : headline !! "error_flags_1" = None).
    { rewrite (read_headlines_other Anern.read_parameter Anern.parameters ∅
                 "error_flags_1" st headline);
        [apply lookup_empty|not_listed|by rewrite Hhead]. }
    assert (Hk2 : headline !! "error_flags_2" = None).
    { rewrite (read_headlines_other Anern.read_parameter Anern.parameters ∅
                 "error_flags_2" st headline);
        [apply lookup_empty|not_listed|by rewrite Hhead]. }
    split; [|split].
    + unfold Anern.get_status. unfold bind at 1. rewrite Hhead.
      unfold bind at 1. rewrite Hr1. unfold bind at 1. rewrite Hr2.
      unfold bind at 1. rewrite Hs1. unfold bind at 1. rewrite Hs2. reflexivity.
    + apply (reported_iff_positive_ext s1); [|by apply Hrule1].
      by apply Hother2.
    + apply Hrule2. rewrite Hother1 by discriminate. exact Hk2.
  - destruct (read_headlines_returns Deye.read_parameter Deye.parameters ∅ st
                deye_read_parameter_returns) as [headline Hh].
    destruct (read_headlines Deye.read_parameter Deye.parameters ∅ st)
      as [h' st1] eqn:Hhead.
    simpl in Hh. subst h'.
    destruct (deye_read_parameter_returns "error_codes" st1) as [f1 Hf1].
    destruct (Deye.read_parameter "error_codes" st1) as [f1' st2] eqn:Hr1.
    simpl in Hf1. subst f1'.
    destruct (deye_read_parameter_returns "warning_codes" st2) as [f2 Hf2].
    destruct (Deye.read_parameter "warning_codes" st2) as [f2' st3] eqn:Hr2.
    simpl in Hf2. subst f2'.
    assert (Hn1 : forall p, f1 = Some p -> exists q, value p = Num q).
    { intros p ->. apply (deye_reading_numeric "error_codes" _ _ _ eq_refl Hr1). }
    assert (Hn2 : forall p, f2 = Some p -> exists q, value p = Num q).
    { intros p ->. apply (deye_reading_numeric "warning_codes" _ _ _ eq_refl Hr2). }
    destruct (add_codes_rule "errors" f1 headline st3 Hn1)
      as (s1 & Hs1 & Hother1 & Hrule1).
    destruct (add_codes_rule "warnings" f2 s1 st3 Hn2)
      as (s2 & Hs2 & Hother2 & Hrule2).
    exists headline, st1, f1, st2, f2, st3, s2.
    split; [reflexivity|]. split; [exact Hr1|]. split; [exact Hr2|].
    assert (Hk1 : headline !! "errors" = None).
    { rewrite (read_headlines_other Deye.read_parameter Deye.parameters ∅
                 "errors" st headline);
        [apply lookup_empty|not_listed|by rewrite Hhead]. }
    assert (Hk2 : headline !! "warnings" = None).
    { rewrite (read_headlines_other Deye.read_parameter Deye.parameters ∅
                 "warnings" st headline);
        [apply lookup_empty|not_listed|by rewrite Hhead]. }
    split; [|split].
    + unfold Deye.get_status. unfold bind at 1. rewrite Hhead.
      unfold bind at 1. rewrite Hr1. unfold bind at 1. rewrite Hr2.
      unfold bind at 1. rewrite Hs1. unfold bind at 1. rewrite Hs2. reflexivity.
    + apply (reported_iff_positive_ext s1); [|by apply Hrule1].
      by apply Hother2.
    + apply Hrule2. rewrite Hother1 by discriminate. exact Hk2.
Qed.

(** * Further properties *)

(** ** What a computation appends to the log *)

Section Adds.
Context {W : Type} `{Transport W}.
Variable P : event -> Prop.

Lemma adds_ret {A} (a : A) : adds (W:=W) P (ret a).
Proof. intros st. exists []. split; [by rewrite app_nil_r|constructor]. Qed.

Lemma adds_raise {A} e : adds (W:=W) (A:=A) P (raise e).
Proof. intros st. exists []. split; [by rewrite app_nil_r|constructor]. Qed.

Lemma adds_lift {A} (r : Res A) : adds (W:=W) P (lift r).
Proof. intros st. exists []. split; [by rewrite app_nil_r|constructor]. Qed.

Lemma adds_get_self : adds (W:=W) P get_self.
Proof. intros st. exists []. split; [by rewrite app_nil_r|constructor]. Qed.

Lemma adds_modify f : adds (W:=W) P (modify f).
Proof. intros st. exists []. split; [by rewrite app_nil_r|constructor]. Qed.

Lemma adds_sleep : P EvSleep -> adds (W:=W) P sleep.
Proof. intros HP st. exists [EvSleep]. split; [reflexivity|by constructor]. Qed.

Lemma adds_call {A} ev (op : W -> Res A * W) : P ev -> adds P (call ev op).
Proof.
  intros HP st. exists [ev]. unfold call.
  destruct (op (world st)). split; [reflexivity|by constructor].
Qed.

Lemma adds_bind {A B} (m : M W A) (k : A -> M W B) :
  adds P m -> (forall a, adds P (k a)) -> adds P (bind m k).
Proof.
  intros Hm Hk st. unfold bind.
  destruct (Hm st) as (new1 & Htr1 & HP1).
  destruct (m st) as [[a|e] st1]; simpl in *.
  - destruct (Hk a st1) as (new2 & Htr2 & HP2).
    exists (new1 ++ new2). split.
    + by rewrite Htr2, Htr1, app_assoc.
    + by apply Forall_app.
  - exists new1. by split.
Qed.

Lemma adds_try {A} (m : M W A) : adds P m -> adds P (try m).
Proof.
  intros Hm st. unfold try. destruct (Hm st) as (new & Htr & HP).
  destruct (m st). exists new. by split.
Qed.

Lemma adds_with_client {A} (k : Client -> M W A) :
  (forall c, adds P (k c)) -> adds P (with_client k).
Proof.
  intros Hk. unfold with_client. apply adds_bind; [apply adds_get_self|].
  intros a. destruct (client a); [apply Hk | apply adds_raise].
Qed.

Lemma adds_if {A} (b : bool) (m1 m2 : M W A) :
  adds P m1 -> adds P m2 -> adds P (if b then m1 else m2).
Proof. destruct b; auto. Qed.

End Adds.

Lemma adds_weaken {W A} (P Q : event -> Prop) (m : M W A) :
  (forall e, P e -> Q e) -> adds P m -> adds Q m.
Proof.
  intros HPQ Hm st. destruct (Hm st) as (new & Htr & HP).
  exists new. split; [exact Htr|]. eapply Forall_impl; eauto.
Qed.

Create HintDb adds.

#[global] Hint Resolve adds_ret adds_raise adds_lift adds_get_self adds_modify
  adds_try adds_with_client adds_if : adds.

Ltac adds_step :=
  lazymatch goal with
  | |- adds _ (bind _ _) => apply adds_bind; [| intros ? ]
  | |- adds _ (try _) => apply adds_try
  | |- adds _ (with_client _) => apply adds_with_client; intros ?
  | |- adds _ (if _ then _ else _) => apply adds_if
  | |- adds _ (match ?x with _ => _ end) => destruct x
  | |- adds _ (call _ _) => apply adds_call
  | |- adds _ sleep => apply adds_sleep
  | |- _ => solve [ auto with adds ]
  end.

Ltac adds_steps := repeat adds_step.

Section AddsSession.
Context {W : Type} `{Transport W}.

Lemma adds_connect : adds (W:=W) opening connect.
Proof. unfold connect. adds_steps; repeat split. Qed.

Lemma opening_read_side e : opening e -> read_side e.
Proof. destruct e; unfold opening, read_side; simpl; intuition congruence. Qed.

Lemma opening_write_side e : opening e -> write_side e.
Proof. destruct e; unfold opening, write_side; simpl; intuition congruence. Qed.

Lemma adds_cannot_connect P :
  (forall e, opening e -> P e) -> adds (W:=W) P cannot_connect.
Proof.
  intros HP. unfold cannot_connect. adds_steps.
  apply (adds_weaken opening); [exact HP|apply adds_connect].
Qed.

Lemma adds_read_attempts n address count :
  adds (W:=W) read_side (read_attempts n address count).
Proof.
  induction n as [|n IH]; simpl; [apply adds_ret|].
  adds_steps; try exact IH; repeat split.
Qed.

Lemma adds_write_attempts n address val :
  adds (W:=W) write_side (write_attempts n address val).
Proof.
  induction n as [|n IH]; simpl; [apply adds_ret|].
  adds_steps; try exact IH; repeat split.
Qed.

Lemma adds_read_register address count :
  adds (W:=W) read_side (read_register address count).
Proof.
  unfold read_register. adds_steps.
  - apply adds_cannot_connect, opening_read_side.
  - apply adds_read_attempts.
Qed.

Lemma adds_write_register address val :
  adds (W:=W) write_side (write_register address val).
Proof.
  unfold write_register. adds_steps.
  - apply adds_cannot_connect, opening_write_side.
  - apply adds_write_attempts.
Qed.

Lemma adds_standard_value P sz f regs :
  adds (W:=W) P (standard_value sz f regs).
Proof. unfold standard_value. adds_steps. Qed.

Lemma adds_write_parameter REGISTER_MAP name v :
  adds (W:=W) write_side (write_parameter REGISTER_MAP name v).
Proof. unfold write_parameter. adds_steps. apply adds_write_register. Qed.

Lemma adds_set_enumerated REGISTER_MAP table target label :
  adds (W:=W) write_side (set_enumerated REGISTER_MAP table target label).
Proof. unfold set_enumerated. adds_steps. apply adds_write_parameter. Qed.

Lemma adds_anern_read_parameter name :
  adds (W:=W) read_side (Anern.read_parameter name).
Proof.
  unfold Anern.read_parameter. adds_steps;
    [apply adds_read_register|apply adds_standard_value].
Qed.

Lemma adds_deye_read_parameter name :
  adds (W:=W) read_side (Deye.read_parameter name).
Proof.
  unfold Deye.read_parameter. adds_steps;
    [apply adds_read_register|apply adds_standard_value].
Qed.

Lemma adds_read_headlines P rp ps status :
  (forall p, adds (W:=W) P (rp p)) ->
  adds P (read_headlines rp ps status).
Proof.
  intros Hrp. revert status.
  induction ps as [|p ps IH]; intros status; simpl; adds_steps; auto.
Qed.

Lemma adds_anern_get_status : adds (W:=W) read_side Anern.get_status.
Proof.
  unfold Anern.get_status, Anern.add_error_flags.
  apply adds_bind;
    [apply adds_read_headlines; apply adds_anern_read_parameter|intros ?].
  apply adds_bind; [apply adds_anern_read_parameter|intros ?].
  apply adds_bind; [apply adds_anern_read_parameter|intros ?].
  adds_steps.
Qed.

Lemma adds_deye_get_status : adds (W:=W) read_side Deye.get_status.
Proof.
  unfold Deye.get_status, Deye.add_codes.
  apply adds_bind;
    [apply adds_read_headlines; apply adds_deye_read_parameter|intros ?].
  apply adds_bind; [apply adds_deye_read_parameter|intros ?].
  apply adds_bind; [apply adds_deye_read_parameter|intros ?].
  adds_steps.
Qed.

End AddsSession.

(** ** Names and labels *)

(** The codes of the tables are small integers: the quotient by the
    factor 1 is the code itself, a double, and [int()] gives it back. *)
Lemma code_register_value (code : Z) :
  0 <= code <= 6 -> py_register_value (PyInt code) (py_literal 1) = Ret code.
Proof.
  intros Hc.
  assert (Hcases : code = 0 \/ code = 1 \/ code = 2 \/ code = 3 \/
                   code = 4 \/ code = 5 \/ code = 6) by lia.
  destruct Hcases as [->|[->|[->|[->|[->|[->| ->]]]]]]; vm_compute; reflexivity.
Qed.

Lemma table_code (entries : list (string * Z)) (label : string) (code : Z) :
  Forall (fun lc : string * Z => 0 <= lc.2 <= 6) entries ->
  (list_to_map entries : gmap string Z) !! label = Some code ->
  0 <= code <= 6.
Proof.
  intros Hall Hl. apply elem_of_list_to_map_2 in Hl.
  rewrite Forall_forall in Hall. apply (Hall (label, code) Hl).
Qed.

Ltac small_codes :=
  repeat (apply Forall_cons; split; [simpl; lia|]); constructor.

(** X1: a name that is not in the register map, or a label that is not in
    the table, is refused at once: the result is [None] or [False], and
    the state is untouched: no connection is attempted and nothing is sent,
    also on a disconnected adapter. *)
Theorem unknown_name_is_refused {W : Type} `{Transport W}
    (st : St W) (name label : string) :
  (Anern.REGISTER_MAP !! name = None ->
   Anern.read_parameter name st = (Ret None, st) /\
   forall v, Anern.write_parameter name v st = (Ret false, st)) /\
  (Deye.REGISTER_MAP !! name = None ->
   Deye.read_parameter name st = (Ret None, st) /\
   forall v, Deye.write_parameter name v st = (Ret false, st)) /\
  (Anern.OPERATION_MODES !! label = None ->
   Anern.set_mode label st = (Ret false, st)) /\
  (Anern.CHARGE_PRIORITIES !! label = None ->
   Anern.set_charge_priority label st = (Ret false, st)) /\
  (Anern.OUTPUT_PRIORITIES !! label = None ->
   Anern.set_output_priority label st = (Ret false, st)) /\
  (Deye.OPERATION_MODES !! label = None ->
   Deye.set_mode label st = (Ret false, st)) /\
  (Deye.CHARGE_PRIORITIES !! label = None ->
   Deye.set_charge_priority label st = (Ret false, st)) /\
  (Deye.OUTPUT_PRIORITIES !! label = None ->
   Deye.set_output_priority label st = (Ret false, st)).
Proof.
  split; [intros Hn; split;
            [by apply anern_read_parameter_unknown
            |intros v; by apply write_parameter_unknown]|].
  split; [intros Hn; split;
            [by apply deye_read_parameter_unknown
            |intros v; by apply write_parameter_unknown]|].
  repeat split; intros Hl;
    unfold Anern.set_mode, Anern.set_charge_priority, Anern.set_output_priority,
           Deye.set_mode, Deye.set_charge_priority, Deye.set_output_priority,
           set_enumerated; rewrite Hl; reflexivity.
Qed.

(** Run of X1: [HYBRID] is no Anern mode, and [grid_current] no Anern
    parameter; asked of a fresh adapter, nothing happens. *)
Lemma unknown_name_is_refused_witness :
  let fresh := Script.start (Scripted.mkWorld [] [] [] 0%nat []) in
  (Anern.REGISTER_MAP !! "grid_current" = None /\
   Anern.OPERATION_MODES !! "HYBRID" = None) /\
  Anern.read_parameter "grid_current" fresh = (Ret None, fresh) /\
  Anern.set_mode "HYBRID" fresh = (Ret false, fresh).
Proof.
  intros fresh.
  assert (Hn : Anern.REGISTER_MAP !! "grid_current" = None)
    by (vm_compute; reflexivity).
  assert (Hl : Anern.OPERATION_MODES !! "HYBRID" = None)
    by (vm_compute; reflexivity).
  split; [by split|].
  pose proof (unknown_name_is_refused fresh "grid_current" "HYBRID") as HX.
  split.
  - exact (proj1 (proj1 HX Hn)).
  - exact (proj1 (proj2 (proj2 HX)) Hl).
Defined.

(** X2: a label of the table is written as its code, unchanged, in one
    [write_register] at the address of the control register of its class:
    the division by the factor 1 and the truncation leave the code as it
    is. *)
Theorem label_is_written_as_its_code {W : Type} `{Transport W}
    (st : St W) (label : string) (code : Z) :
  (Anern.OPERATION_MODES !! label = Some code ->
   Anern.set_mode label st = write_register 0x0001 code st) /\
  (Anern.CHARGE_PRIORITIES !! label = Some code ->
   Anern.set_charge_priority label st = write_register 0x0303 code st) /\
  (Anern.OUTPUT_PRIORITIES !! label = Some code ->
   Anern.set_output_priority label st = write_register 0x0304 code st) /\
  (Deye.OPERATION_MODES !! label = Some code ->
   Deye.set_mode label st = write_register 0x0100 code st) /\
  (Deye.CHARGE_PRIORITIES !! label = Some code ->
   Deye.set_charge_priority label st = write_register 0x0101 code st) /\
  (Deye.OUTPUT_PRIORITIES !! label = Some code ->
   Deye.set_output_priority label st = write_register 0x0102 code st).
Proof.
  repeat split; intros Hl;
    unfold Anern.set_mode, Anern.set_charge_priority, Anern.set_output_priority,
           Deye.set_mode, Deye.set_charge_priority, Deye.set_output_priority,
           set_enumerated; rewrite Hl.
  all: apply table_code in Hl; [|small_codes].
  all: match goal with
       | |- write_parameter ?m ?n _ _ = write_register ?a _ _ =>
         apply (write_parameter_known m n (mkReg a 1 1 "") (PyInt code) code st
                  ltac:(vm_compute; reflexivity))
       end.
  all: by apply code_register_value.
Qed.

(** Run of X2: Deye [HYBRID] is the code 5, written at [0x0100]. *)
Lemma label_is_written_as_its_code_witness :
  Deye.OPERATION_MODES !! "HYBRID" = Some 5 /\
  Deye.set_mode "HYBRID" (Scripted.session [] []) =
  write_register 0x0100 5 (Scripted.session [] []).
Proof.
  assert (Hl : Deye.OPERATION_MODES !! "HYBRID" = Some 5)
    by (vm_compute; reflexivity).
  split; [exact Hl|].
  exact (proj1 (proj2 (proj2 (proj2
           (label_is_written_as_its_code (Scripted.session [] []) "HYBRID" 5))))
           Hl).
Defined.

(** ** Connecting on first use *)

(** X3: on a disconnected adapter [read_register] and [write_register]
    first call [connect], once. When it fails they return [None] and
    [False] in the state [connect] left: no transaction is attempted and the
    adapter stays disconnected. When it succeeds they go on with the retry
    loop over the [retries] of the adapter, now connected. *)
Theorem first_use_connects {W : Type} `{Transport W}
    (st : St W) (address count val : Z) :
  is_connected (self st) = false ->
  ((connect st).1 = Ret false ->
   read_register address count st = (Ret None, (connect st).2) /\
   write_register address val st = (Ret false, (connect st).2) /\
   transactions (trace (connect st).2) = transactions (trace st) /\
   is_connected (self (connect st).2) = false) /\
  ((connect st).1 = Ret true ->
   read_register address count st =
   read_attempts (Z.to_nat (retries (self st))) address count (connect st).2 /\
   write_register address val st =
   write_attempts (Z.to_nat (retries (self st))) address val (connect st).2 /\
   is_connected (self (connect st).2) = true).
Proof.
  intros Hdis.
  destruct (connect_result st) as (b & Hres & Hconn & _ & Hsame).
  destruct Hsame as (_ & _ & _ & _ & Hretries).
  destruct (adds_connect st) as (new & Htr & Hnew).
  split; intros Hb; rewrite Hb in Hres; injection Hres as <-.
  - split; [|split; [|split]].
    + unfold read_register, cannot_connect. unfold_monad. rewrite Hdis.
      destruct (connect st) as [r st1]. simpl in Hb. subst r. reflexivity.
    + unfold write_register, cannot_connect. unfold_monad. rewrite Hdis.
      destruct (connect st) as [r st1]. simpl in Hb. subst r. reflexivity.
    + rewrite Htr, transactions_app.
      assert (Hnone : transactions new = []).
      { clear Htr. induction Hnew as [|e new' [He _] _ IH]; [reflexivity|].
        unfold transactions in *. simpl. rewrite He. exact IH. }
      by rewrite Hnone, app_nil_r.
    + exact Hconn.
  - split; [|split].
    + unfold read_register, cannot_connect. unfold_monad. rewrite Hdis.
      rewrite Hretries.
      destruct (connect st) as [r st1]. simpl in Hb. subst r. reflexivity.
    + unfold write_register, cannot_connect. unfold_monad. rewrite Hdis.
      rewrite Hretries.
      destruct (connect st) as [r st1]. simpl in Hb. subst r. reflexivity.
    + exact Hconn.
Qed.

(** Run of X3: a fresh adapter on a line that refuses the connection. *)
Lemma first_use_connects_witness :
  let fresh := Script.start (Scripted.mkWorld [Ret false] [Scripted.good [87]] [] 0%nat []) in
  (is_connected (self fresh) = false /\ (connect fresh).1 = Ret false) /\
  read_register 0x0120 1 fresh = (Ret None, (connect fresh).2) /\
  trace (connect fresh).2 = [EvNewSerial; EvConnect 0%nat].
Proof.
  intros fresh. split; [split; reflexivity|].
  split; [|reflexivity].
  exact (proj1 (proj1 (first_use_connects fresh 0x0120 1 0 eq_refl) eq_refl)).
Defined.

(** ** Closing *)

(** X4: [disconnect] closes the stored client once. On a connected adapter
    it calls [close] on the client, sets [is_connected] false, keeps the
    client object and returns [True]; called again, or on an adapter that
    is not connected (also one that holds a client whose opening failed),
    it returns [False] and does nothing. *)
Theorem disconnect_closes_once {W : Type} `{Transport W} (st : St W) :
  (is_connected (self st) = false -> disconnect st = (Ret false, st)) /\
  (forall c,
     is_connected (self st) = true ->
     client (self st) = Some c ->
     disconnect st =
     (Ret true,
      mkSt (set_is_connected false (self st)) (client_close c (world st))
           (trace st ++ [EvClose c])) /\
     client (self (disconnect st).2) = Some c /\
     disconnect (disconnect st).2 = (Ret false, (disconnect st).2)).
Proof.
  split.
  - intros Hdis. unfold disconnect. unfold_monad. rewrite Hdis.
    destruct (client (self st)); reflexivity.
  - intros c Hconn Hc.
    assert (Hfirst : disconnect st =
              (Ret true,
               mkSt (set_is_connected false (self st)) (client_close c (world st))
                    (trace st ++ [EvClose c]))).
    { unfold disconnect. unfold_monad. rewrite Hc, Hconn. simpl.
      rewrite Hc. reflexivity. }
    rewrite Hfirst. simpl. split; [reflexivity|]. split; [exact Hc|].
    unfold disconnect. unfold_monad. simpl. rewrite Hc. reflexivity.
Qed.

(** Run of X4 on a connected session of the scripted line. *)
Lemma disconnect_closes_once_witness :
  let st := Scripted.session [] [] in
  (is_connected (self st) = true /\ client (self st) = Some 0%nat) /\
  trace (disconnect st).2 = [EvClose 0%nat] /\
  disconnect (disconnect st).2 = (Ret false, (disconnect st).2).
Proof.
  intros st. split; [split; reflexivity|]. split; [reflexivity|].
  exact (proj2 (proj2 (proj2 (disconnect_closes_once st) 0%nat eq_refl eq_refl))).
Defined.

(** ** What a connected adapter keeps *)

Section Connected.
Context {W : Type} `{Transport W}.
Variable a0 : Adapter.
Hypothesis a0_connected : is_connected a0 = true.

Lemma same_cannot_connect : keeps (W:=W) (fun a => a = a0) cannot_connect.
Proof.
  intros st Hst. unfold cannot_connect. unfold_monad.
  rewrite Hst, a0_connected. simpl. exact Hst.
Qed.

Lemma same_read_register address count :
  keeps (W:=W) (fun a => a = a0) (read_register address count).
Proof.
  unfold read_register. apply keeps_bind; [apply same_cannot_connect|].
  intros failed. keeps_steps. apply keeps_read_attempts.
Qed.

Lemma same_write_register address val :
  keeps (W:=W) (fun a => a = a0) (write_register address val).
Proof.
  unfold write_register. apply keeps_bind; [apply same_cannot_connect|].
  intros failed. keeps_steps. apply keeps_write_attempts.
Qed.

Lemma same_write_parameter REGISTER_MAP name v :
  keeps (W:=W) (fun a => a = a0) (write_parameter REGISTER_MAP name v).
Proof.
  unfold write_parameter. destruct (REGISTER_MAP !! name); [|apply keeps_ret].
  cbn zeta. apply keeps_bind; [apply keeps_lift|].
  intros q. apply same_write_register.
Qed.

Lemma same_set_enumerated REGISTER_MAP table target label :
  keeps (W:=W) (fun a => a = a0)
        (set_enumerated REGISTER_MAP table target label).
Proof.
  unfold set_enumerated. destruct (table !! label); [|apply keeps_ret].
  apply same_write_parameter.
Qed.

Lemma same_anern_read_parameter name :
  keeps (W:=W) (fun a => a = a0) (Anern.read_parameter name).
Proof.
  unfold Anern.read_parameter.
  destruct (Anern.REGISTER_MAP !! name); [|apply keeps_ret].
  cbn zeta. apply keeps_bind; [apply same_read_register|].
  intros regs. keeps_steps. apply keeps_standard_value.
Qed.

Lemma same_deye_read_parameter name :
  keeps (W:=W) (fun a => a = a0) (Deye.read_parameter name).
Proof.
  unfold Deye.read_parameter.
  destruct (Deye.REGISTER_MAP !! name); [|apply keeps_ret].
  cbn zeta. apply keeps_bind; [apply same_read_register|].
  intros regs. keeps_steps. apply keeps_standard_value.
Qed.

Lemma same_anern_get_status :
  keeps (W:=W) (fun a => a = a0) Anern.get_status.
Proof.
  unfold Anern.get_status, Anern.add_error_flags.
  apply keeps_bind;
    [apply keeps_read_headlines; apply same_anern_read_parameter|intros ?].
  apply keeps_bind; [apply same_anern_read_parameter|intros ?].
  apply keeps_bind; [apply same_anern_read_parameter|intros ?].
  keeps_steps.
Qed.

Lemma same_deye_get_status :
  keeps (W:=W) (fun a => a = a0) Deye.get_status.
Proof.
  unfold Deye.get_status, Deye.add_codes.
  apply keeps_bind;
    [apply keeps_read_headlines; apply same_deye_read_parameter|intros ?].
  apply keeps_bind; [apply same_deye_read_parameter|intros ?].
  apply keeps_bind; [apply same_deye_read_parameter|intros ?].
  keeps_steps.
Qed.

End Connected.

(** X5: no parameter operation of either class changes the adapter object
    of a connected session: the client, [is_connected] and the settings
    after [read_parameter], [write_parameter], [get_status] and every
    [set_*] method are those before, whatever the line answers. A
    connected adapter is never reconnected behind the caller's back. *)
Theorem connected_adapter_is_kept {W : Type} `{Transport W} (st : St W) :
  is_connected (self st) = true ->
  (forall name,
     self (Anern.read_parameter name st).2 = self st /\
     self (Deye.read_parameter name st).2 = self st) /\
  (forall name v,
     self (Anern.write_parameter name v st).2 = self st /\
     self (Deye.write_parameter name v st).2 = self st) /\
  self (Anern.get_status st).2 = self st /\
  self (Deye.get_status st).2 = self st /\
  (forall label,
     self (Anern.set_mode label st).2 = self st /\
     self (Anern.set_charge_priority label st).2 = self st /\
     self (Anern.set_output_priority label st).2 = self st /\
     self (Deye.set_mode label st).2 = self st /\
     self (Deye.set_charge_priority label st).2 = self st /\
     self (Deye.set_output_priority label st).2 = self st) /\
  (forall x,
     self (Anern.set_max_charging_current x st).2 = self st /\
     self (Anern.set_battery_cutoff_voltage x st).2 = self st /\
     self (Deye.set_max_charging_current x st).2 = self st /\
     self (Deye.set_battery_cutoff_voltage x st).2 = self st).
Proof.
  intros Hconn.
  split; [intros; split;
            [by apply (same_anern_read_parameter (self st) Hconn)
            |by apply (same_deye_read_parameter (self st) Hconn)]|].
  split; [intros; split; by apply (same_write_parameter (self st) Hconn)|].
  split; [by apply (same_anern_get_status (self st) Hconn)|].
  split; [by apply (same_deye_get_status (self st) Hconn)|].
  split.
  - intros label. repeat split; by apply (same_set_enumerated (self st) Hconn).
  - intros x. repeat split; by apply (same_write_parameter (self st) Hconn).
Qed.

(** Run of X5: the status of a session whose line answers nothing. *)
Lemma connected_adapter_is_kept_witness :
  is_connected (self (Scripted.session [] [])) = true /\
  self (Anern.get_status (Scripted.session [] [])).2
  = self (Scripted.session [] []).
Proof.
  split; [reflexivity|].
  exact (proj1 (proj2 (proj2
           (connected_adapter_is_kept (Scripted.session [] []) eq_refl)))).
Defined.

(** ** Which calls an operation makes *)

(** X6: every operation only appends to the log of calls, and keeps to its
    side of the line: reading a register or a parameter and [get_status]
    never write a register; writing a register or a parameter and the
    [set_*] methods never read one; [connect] makes no transaction; and
    none of them ever calls [close], so a client replaced by a reconnection
    is never closed. *)
Theorem operations_keep_to_their_side {W : Type} `{Transport W} :
  adds (W:=W) opening connect /\
  (forall address count, adds (W:=W) read_side (read_register address count)) /\
  (forall address val, adds (W:=W) write_side (write_register address val)) /\
  (forall name,
     adds (W:=W) read_side (Anern.read_parameter name) /\
     adds (W:=W) read_side (Deye.read_parameter name)) /\
  adds (W:=W) read_side Anern.get_status /\
  adds (W:=W) read_side Deye.get_status /\
  (forall name v,
     adds (W:=W) write_side (Anern.write_parameter name v) /\
     adds (W:=W) write_side (Deye.write_parameter name v)) /\
  (forall label,
     adds (W:=W) write_side (Anern.set_mode label) /\
     adds (W:=W) write_side (Anern.set_charge_priority label) /\
     adds (W:=W) write_side (Anern.set_output_priority label) /\
     adds (W:=W) write_side (Deye.set_mode label) /\
     adds (W:=W) write_side (Deye.set_charge_priority label) /\
     adds (W:=W) write_side (Deye.set_output_priority label)) /\
  (forall x,
     adds (W:=W) write_side (Anern.set_max_charging_current x) /\
     adds (W:=W) write_side (Anern.set_battery_cutoff_voltage x) /\
     adds (W:=W) write_side (Deye.set_max_charging_current x) /\
     adds (W:=W) write_side (Deye.set_battery_cutoff_voltage x)).
Proof.
  split; [apply adds_connect|].
  split; [apply adds_read_register|].
  split; [apply adds_write_register|].
  split; [intros; split;
            [apply adds_anern_read_parameter|apply adds_deye_read_parameter]|].
  split; [apply adds_anern_get_status|].
  split; [apply adds_deye_get_status|].
  split; [intros; split; apply adds_write_parameter|].
  split.
  - intros label. repeat split; apply adds_set_enumerated.
  - intros x. repeat split; apply adds_write_parameter.
Qed.

(** ** The retry loop *)

Lemma sleeps_app tr1 tr2 : sleeps (tr1 ++ tr2) = (sleeps tr1 + sleeps tr2)%nat.
Proof. unfold sleeps. by rewrite List.filter_app, length_app. Qed.

Section RetryLoop.
Context {W : Type} `{Transport W}.

(** Never more rounds than asked, all of them the same request; a value
    comes only out of a round. *)
Lemma read_attempts_bounded n address count c (st : St W) :
  client (self st) = Some c ->
  exists k : nat,
    (k <= n)%nat /\
    transactions (trace (read_attempts n address count st).2) =
      transactions (trace st) ++
      replicate k (EvRead c address count (unit_id (self st))) /\
    (forall ws, (read_attempts n address count st).1 = Ret (Some ws) ->
                (1 <= k)%nat).
Proof.
  revert st. induction n as [|n IH]; intros st Hc; simpl.
  - exists 0%nat. split; [lia|]. split; [by rewrite app_nil_r|].
    intros ws Hws. discriminate Hws.
  - unfold_monad. rewrite Hc. simpl.
    destruct (client_read_holding_registers _ _ _ _ _) as [[response|e] w1].
    + destruct (isError response).
      * match goal with |- context [read_attempts n _ _ ?s] =>
          destruct (IH s Hc) as (k & Hk & Htr & Hws) end.
        exists (S k). split; [lia|]. split; [|intros; lia].
        rewrite Htr. simpl. rewrite transactions_app. simpl.
        by rewrite <- app_assoc.
      * exists 1%nat. split; [lia|]. split; [|intros; lia].
        simpl. by rewrite transactions_app.
    + match goal with |- context [read_attempts n _ _ ?s] =>
        destruct (IH s Hc) as (k & Hk & Htr & Hws) end.
      exists (S k). split; [lia|]. split; [|intros; lia].
      rewrite Htr. simpl. rewrite !transactions_app. simpl.
      by rewrite app_nil_r, <- app_assoc.
Qed.

Lemma write_attempts_bounded n address val c (st : St W) :
  client (self st) = Some c ->
  exists k : nat,
    (k <= n)%nat /\
    transactions (trace (write_attempts n address val st).2) =
      transactions (trace st) ++
      replicate k (EvWrite c address val (unit_id (self st))) /\
    ((write_attempts n address val st).1 = Ret true -> (1 <= k)%nat).
Proof.
  revert st. induction n as [|n IH]; intros st Hc; simpl.
  - exists 0%nat. split; [lia|]. split; [by rewrite app_nil_r|].
    intros Hws. discriminate Hws.
  - unfold_monad. rewrite Hc. simpl.
    destruct (client_write_register _ _ _ _ _) as [[response|e] w1].
    + destruct (isError response).
      * match goal with |- context [write_attempts n _ _ ?s] =>
          destruct (IH s Hc) as (k & Hk & Htr & Hws) end.
        exists (S k). split; [lia|]. split; [|intros; lia].
        rewrite Htr. simpl. rewrite transactions_app. simpl.
        by rewrite <- app_assoc.
      * exists 1%nat. split; [lia|]. split; [|intros; lia].
        simpl. by rewrite transactions_app.
    + match goal with |- context [write_attempts n _ _ ?s] =>
        destruct (IH s Hc) as (k & Hk & Htr & Hws) end.
      exists (S k). split; [lia|]. split; [|intros; lia].
      rewrite Htr. simpl. rewrite !transactions_app. simpl.
      by rewrite app_nil_r, <- app_assoc.
Qed.

(** After [k] failed rounds a good answer ends the loop. *)
Lemma read_attempts_succeed k n address count c (st : St W) response :
  (k < n)%nat ->
  client (self st) = Some c ->
  let u := unit_id (self st) in
  reads_fail k c address count u (world st) ->
  (client_read_holding_registers c address count u
     (after_reads k c address count u (world st))).1 = Ret response ->
  isError response = false ->
  (read_attempts n address count st).1 = Ret (Some (registers response)) /\
  transactions (trace (read_attempts n address count st).2) =
    transactions (trace st) ++ replicate (S k) (EvRead c address count u) /\
  world (read_attempts n address count st).2 =
    (client_read_holding_registers c address count u
       (after_reads k c address count u (world st))).2.
Proof.
  revert n st. induction k as [|k IH]; intros n st Hkn Hc u Hfail Hgood Hok;
    (destruct n as [|n]; [lia|]); simpl in *.
  - unfold_monad. rewrite Hc. simpl. fold u.
    destruct (client_read_holding_registers c address count u (world st))
      as [r w1]. simpl in Hgood. subst r. rewrite Hok. simpl.
    split; [reflexivity|]. split; [by rewrite transactions_app|reflexivity].
  - destruct Hfail as [Hfirst Hrest].
    unfold_monad. rewrite Hc. simpl. fold u.
    destruct (client_read_holding_registers c address count u (world st))
      as [[r|e] w1]; simpl in Hfirst, Hrest, Hgood.
    + rewrite Hfirst.
      match goal with |- context [read_attempts n _ _ ?s] =>
        destruct (IH n s ltac:(lia) Hc Hrest Hgood Hok) as (-> & -> & ->) end.
      split; [reflexivity|]. split; [|reflexivity]. simpl.
      rewrite transactions_app. simpl. by rewrite <- app_assoc.
    + match goal with |- context [read_attempts n _ _ ?s] =>
        destruct (IH n s ltac:(lia) Hc Hrest Hgood Hok) as (-> & -> & ->) end.
      split; [reflexivity|]. split; [|reflexivity]. simpl.
      rewrite !transactions_app. simpl. by rewrite app_nil_r, <- app_assoc.
Qed.

Lemma write_attempts_succeed k n address val c (st : St W) response :
  (k < n)%nat ->
  client (self st) = Some c ->
  let u := unit_id (self st) in
  writes_fail k c address val u (world st) ->
  (client_write_register c address val u
     (after_writes k c address val u (world st))).1 = Ret response ->
  isError response = false ->
  (write_attempts n address val st).1 = Ret true /\
  transactions (trace (write_attempts n address val st).2) =
    transactions (trace st) ++ replicate (S k) (EvWrite c address val u) /\
  world (write_attempts n address val st).2 =
    (client_write_register c address val u
       (after_writes k c address val u (world st))).2.
Proof.
  revert n st. induction k as [|k IH]; intros n st Hkn Hc u Hfail Hgood Hok;
    (destruct n as [|n]; [lia|]); simpl in *.
  - unfold_monad. rewrite Hc. simpl. fold u.
    destruct (client_write_register c address val u (world st))
      as [r w1]. simpl in Hgood. subst r. rewrite Hok. simpl.
    split; [reflexivity|]. split; [by rewrite transactions_app|reflexivity].
  - destruct Hfail as [Hfirst Hrest].
    unfold_monad. rewrite Hc. simpl. fold u.
    destruct (client_write_register c address val u (world st))
      as [[r|e] w1]; simpl in Hfirst, Hrest, Hgood.
    + rewrite Hfirst.
      match goal with |- context [write_attempts n _ _ ?s] =>
        destruct (IH n s ltac:(lia) Hc Hrest Hgood Hok) as (-> & -> & ->) end.
      split; [reflexivity|]. split; [|reflexivity]. simpl.
      rewrite transactions_app. simpl. by rewrite <- app_assoc.
    + match goal with |- context [write_attempts n _ _ ?s] =>
        destruct (IH n s ltac:(lia) Hc Hrest Hgood Hok) as (-> & -> & ->) end.
      split; [reflexivity|]. split; [|reflexivity]. simpl.
      rewrite !transactions_app. simpl. by rewrite app_nil_r, <- app_assoc.
Qed.

(** A sleep follows each round that raised, and no other. *)
Lemma read_attempts_sleeps n address count c (st : St W) :
  client (self st) = Some c ->
  reads_fail n c address count (unit_id (self st)) (world st) ->
  sleeps (trace (read_attempts n address count st).2) =
  (sleeps (trace st) +
   raised_reads n c address count (unit_id (self st)) (world st))%nat.
Proof.
  revert st. induction n as [|n IH]; intros st Hc Hfail; simpl.
  - lia.
  - destruct Hfail as [Hfirst Hrest].
    unfold_monad. rewrite Hc. simpl.
    destruct (client_read_holding_registers _ _ _ _ _) as [[response|e] w1];
      simpl in Hfirst, Hrest |- *.
    + rewrite Hfirst.
      match goal with |- context [read_attempts n _ _ ?s] =>
        rewrite (IH s Hc Hrest) end.
      simpl. rewrite sleeps_app. simpl. unfold sleeps at 2. simpl. lia.
    + match goal with |- context [read_attempts n _ _ ?s] =>
        rewrite (IH s Hc Hrest) end.
      simpl. rewrite !sleeps_app. unfold sleeps at 2 3. simpl. lia.
Qed.

Lemma write_attempts_sleeps n address val c (st : St W) :
  client (self st) = Some c ->
  writes_fail n c address val (unit_id (self st)) (world st) ->
  sleeps (trace (write_attempts n address val st).2) =
  (sleeps (trace st) +
   raised_writes n c address val (unit_id (self st)) (world st))%nat.
Proof.
  revert st. induction n as [|n IH]; intros st Hc Hfail; simpl.
  - lia.
  - destruct Hfail as [Hfirst Hrest].
    unfold_monad. rewrite Hc. simpl.
    destruct (client_write_register _ _ _ _ _) as [[response|e] w1];
      simpl in Hfirst, Hrest |- *.
    + rewrite Hfirst.
      match goal with |- context [write_attempts n _ _ ?s] =>
        rewrite (IH s Hc Hrest) end.
      simpl. rewrite sleeps_app. simpl. unfold sleeps at 2. simpl. lia.
    + match goal with |- context [write_attempts n _ _ ?s] =>
        rewrite (IH s Hc Hrest) end.
      simpl. rewrite !sleeps_app. unfold sleeps at 2 3. simpl. lia.
Qed.

End RetryLoop.

(** X7: on a connected session a call of [read_register] or
    [write_register] makes at most [retries] transactions, all of them the
    same request to the stored client with the adapter's [unit_id]; a value
    (or [True]) is returned only after at least one of them; and with
    [retries] zero or negative nothing is sent and the call fails at once. *)
Theorem attempts_are_bounded {W : Type} `{Transport W}
    (st : St W) (c : Client) (address count val : Z) :
  is_connected (self st) = true ->
  client (self st) = Some c ->
  (exists k : nat,
     (k <= Z.to_nat (retries (self st)))%nat /\
     transactions (trace (read_register address count st).2) =
       transactions (trace st) ++
       replicate k (EvRead c address count (unit_id (self st))) /\
     (forall ws, (read_register address count st).1 = Ret (Some ws) ->
                 (1 <= k)%nat)) /\
  (exists k : nat,
     (k <= Z.to_nat (retries (self st)))%nat /\
     transactions (trace (write_register address val st).2) =
       transactions (trace st) ++
       replicate k (EvWrite c address val (unit_id (self st))) /\
     ((write_register address val st).1 = Ret true -> (1 <= k)%nat)) /\
  (retries (self st) <= 0 ->
   read_register address count st = (Ret None, st) /\
   write_register address val st = (Ret false, st)).
Proof.
  intros Hconn Hc.
  rewrite (read_register_connected _ _ _ Hconn),
          (write_register_connected _ _ _ Hconn).
  split; [by apply read_attempts_bounded|].
  split; [by apply write_attempts_bounded|].
  intros Hzero. replace (Z.to_nat (retries (self st))) with 0%nat by lia.
  split; reflexivity.
Qed.

(** Run of X7: with [retries] 0 a connected session sends nothing. *)
Lemma attempts_are_bounded_witness :
  let st := mkSt (mkAdapter (mkConfig None None None (Some 0) None None)
                            (Some 0%nat) true 1 "serial" 1%Q 0)
                 (Scripted.mkWorld [] [Scripted.good [87]] [] 1%nat []) [] in
  (is_connected (self st) = true /\ client (self st) = Some 0%nat /\
   retries (self st) <= 0) /\
  read_register 0x0120 1 st = (Ret None, st).
Proof.
  intros st.
  assert (Hz : retries (self st) <= 0) by (simpl; lia).
  split; [repeat split; exact Hz|].
  exact (proj1 (proj2 (proj2
           (attempts_are_bounded st 0%nat 0x0120 1 0 eq_refl eq_refl)) Hz)).
Defined.

(** X8: a good answer ends the loop. On a connected session, when the
    first [k] attempts fail, with [k] less than [retries], and the next is
    answered without error, [read_register] returns the registers of that
    answer and [write_register] returns [True]; exactly [k + 1]
    transactions were made, and the line is left as that answer left it:
    no attempt follows a success. *)
Theorem success_ends_the_retries {W : Type} `{Transport W}
    (st : St W) (c : Client) (k : nat) (response : Response) :
  is_connected (self st) = true ->
  client (self st) = Some c ->
  (k < Z.to_nat (retries (self st)))%nat ->
  isError response = false ->
  let u := unit_id (self st) in
  (forall address count,
     reads_fail k c address count u (world st) ->
     (client_read_holding_registers c address count u
        (after_reads k c address count u (world st))).1 = Ret response ->
     (read_register address count st).1 = Ret (Some (registers response)) /\
     transactions (trace (read_register address count st).2) =
       transactions (trace st) ++ replicate (S k) (EvRead c address count u) /\
     world (read_register address count st).2 =
       (client_read_holding_registers c address count u
          (after_reads k c address count u (world st))).2) /\
  (forall address val,
     writes_fail k c address val u (world st) ->
     (client_write_register c address val u
        (after_writes k c address val u (world st))).1 = Ret response ->
     (write_register address val st).1 = Ret true /\
     transactions (trace (write_register address val st).2) =
       transactions (trace st) ++ replicate (S k) (EvWrite c address val u) /\
     world (write_register address val st).2 =
       (client_write_register c address val u
          (after_writes k c address val u (world st))).2).
Proof.
  intros Hconn Hc Hk Hok u. split.
  - intros address count Hfail Hgood.
    rewrite (read_register_connected _ _ _ Hconn).
    by apply (read_attempts_succeed k _ _ _ _ _ response).
  - intros address val Hfail Hgood.
    rewrite (write_register_connected _ _ _ Hconn).
    by apply (write_attempts_succeed k _ _ _ _ _ response).
Qed.

(** Run of X8: two failures, then the word 2301; a fourth answer stays
    unasked on the line. *)
Lemma success_ends_the_retries_witness :
  let st := Scripted.session
              [Ret (mkResponse true []); Raise ModbusException;
               Scripted.good [2301]; Scripted.good [9999]] [] in
  (is_connected (self st) = true /\ client (self st) = Some 0%nat /\
   (2 < Z.to_nat (retries (self st)))%nat /\
   reads_fail 2 0%nat 0x0100 1 1 (world st)) /\
  (read_register 0x0100 1 st).1 = Ret (Some [2301]) /\
  transactions (trace (read_register 0x0100 1 st).2) =
    [] ++ replicate 3 (EvRead 0%nat 0x0100 1 1) /\
  Scripted.reads (world (read_register 0x0100 1 st).2) = [Scripted.good [9999]].
Proof.
  intros st.
  assert (Hk : (2 < Z.to_nat (retries (self st)))%nat) by (simpl; lia).
  assert (Hfail : reads_fail 2 0%nat 0x0100 1 1 (world st))
    by (simpl; repeat split).
  split; [repeat split; assumption|].
  destruct (proj1 (success_ends_the_retries st 0%nat 2
                     (mkResponse false [2301]) eq_refl eq_refl Hk eq_refl)
              0x0100 1 Hfail eq_refl) as (Hres & Htr & Hworld).
  split; [exact Hres|]. split; [exact Htr|].
  rewrite Hworld. reflexivity.
Defined.

(** X9: the cool-down is taken after an exception and not after an error
    response. On a connected session whose attempts all fail, the number
    of [time.sleep] calls made by [read_register] (by [write_register]) is
    the number of attempts that raised; an attempt answered by an error
    response is followed at once by the next. *)
Theorem cool_down_follows_exceptions_only {W : Type} `{Transport W}
    (st : St W) (c : Client) :
  is_connected (self st) = true ->
  client (self st) = Some c ->
  let n := Z.to_nat (retries (self st)) in
  let u := unit_id (self st) in
  (forall address count,
     reads_fail n c address count u (world st) ->
     sleeps (trace (read_register address count st).2) =
     (sleeps (trace st) + raised_reads n c address count u (world st))%nat) /\
  (forall address val,
     writes_fail n c address val u (world st) ->
     sleeps (trace (write_register address val st).2) =
     (sleeps (trace st) + raised_writes n c address val u (world st))%nat).
Proof.
  intros Hconn Hc n u. split.
  - intros address count Hfail.
    rewrite (read_register_connected _ _ _ Hconn).
    by apply read_attempts_sleeps.
  - intros address val Hfail.
    rewrite (write_register_connected _ _ _ Hconn).
    by apply write_attempts_sleeps.
Qed.

(** Run of X9: an error response, an exception, an error response: one
    sleep in three attempts. *)
Lemma cool_down_follows_exceptions_only_witness :
  let st := Scripted.session
              [Ret (mkResponse true []); Raise ModbusException;
               Ret (mkResponse true [])] [] in
  (is_connected (self st) = true /\ client (self st) = Some 0%nat /\
   reads_fail 3 0%nat 0x0100 1 1 (world st)) /\
  sleeps (trace (read_register 0x0100 1 st).2) = 1%nat /\
  trace (read_register 0x0100 1 st).2 =
    [EvRead 0%nat 0x0100 1 1; EvRead 0%nat 0x0100 1 1; EvSleep;
     EvRead 0%nat 0x0100 1 1].
Proof.
  intros st.
  assert (Hfail : reads_fail 3 0%nat 0x0100 1 1 (world st))
    by (simpl; repeat split).
  split; [repeat split; assumption|]. split; [|reflexivity].
  exact (proj1 (cool_down_follows_exceptions_only st 0%nat eq_refl eq_refl)
           0x0100 1 Hfail).
Defined.

(** ** Combining words *)

(** A word below a shifted number: the bits do not meet, so [|] adds. *)
Lemma lor_word_shifted (r b : Z) :
  is_word r -> Z.lor r (Z.shiftl b 16) = r + b * 65536.
Proof.
  intros [Hlo Hhi].
  assert (Hdisj : Z.land r (Z.shiftl b 16) = 0).
  { apply Z.bits_inj'. intros n Hn. rewrite Z.land_spec, Z.bits_0.
    destruct (Z.lt_ge_cases n 16) as [Hlt|Hge].
    - rewrite Z.shiftl_spec_low by lia. apply andb_false_r.
    - assert (Hr : Z.testbit r n = false).
      { destruct (Z.eq_dec r 0) as [->|Hnz]; [apply Z.bits_0|].
        apply Z.bits_above_log2; [lia|].
        apply Z.log2_lt_pow2; [lia|].
        apply Z.lt_le_trans with (2 ^ 16); [exact Hhi|].
        apply Z.pow_le_mono_r; lia. }
      by rewrite Hr. }
  rewrite <- Z.lxor_lor by exact Hdisj.
  rewrite <- Z.add_nocarry_lxor by exact Hdisj.
  rewrite Z.shiftl_mul_pow2 by lia. reflexivity.
Qed.

Lemma bitmask_accumulates regs i acc :
  Deye.bitmask i acc regs = Z.lor acc (Deye.bitmask i 0 regs).
Proof.
  revert i acc. induction regs as [|r rest IH]; intros i acc; simpl.
  - by rewrite Z.lor_0_r.
  - rewrite (IH (i + 1) (Z.lor acc _)), (IH (i + 1) (Z.lor 0 _)).
    by rewrite Z.lor_0_l, Z.lor_assoc.
Qed.

Lemma bitmask_shifts regs i :
  0 <= i ->
  Deye.bitmask (i + 1) 0 regs = Z.shiftl (Deye.bitmask i 0 regs) 16.
Proof.
  revert i. induction regs as [|r rest IH]; intros i Hi; simpl.
  - by rewrite Z.shiftl_0_l.
  - rewrite (bitmask_accumulates rest (i + 1 + 1)),
            (bitmask_accumulates rest (i + 1)).
    rewrite !Z.lor_0_l, Z.shiftl_lor, (IH (i + 1)) by lia.
    rewrite Z.shiftl_shiftl by lia.
    replace (i * 16 + 16) with ((i + 1) * 16) by lia. reflexivity.
Qed.

(** The loop, one word at a time: the first word is the low one. *)
Lemma bitmask_cons r rest :
  is_word r ->
  Deye.bitmask 0 0 (r :: rest) = r + Deye.bitmask 0 0 rest * 65536.
Proof.
  intros Hr. simpl. rewrite bitmask_accumulates, Z.lor_0_l.
  rewrite Z.shiftl_0_r, (bitmask_shifts rest 0) by lia.
  by apply lor_word_shifted.
Qed.

Lemma bitmask_nonneg regs :
  Forall is_word regs -> 0 <= Deye.bitmask 0 0 regs.
Proof.
  induction 1 as [|r rest Hr _ IH]; [reflexivity|].
  rewrite bitmask_cons by exact Hr. destruct Hr. lia.
Qed.

Lemma bitmask_zero regs :
  Forall is_word regs ->
  Deye.bitmask 0 0 regs = 0 <-> Forall (fun r => r = 0) regs.
Proof.
  induction 1 as [|r rest Hr Hrest IH]; [by split|].
  rewrite bitmask_cons by exact Hr.
  pose proof (bitmask_nonneg rest Hrest) as Hnn. destruct Hr as [Hlo Hhi].
  split.
  - intros Hz. assert (r = 0 /\ Deye.bitmask 0 0 rest = 0) as [-> Hb] by lia.
    constructor; [reflexivity|by apply IH].
  - intros Hall. apply Forall_cons in Hall as [-> Hall].
    apply IH in Hall. lia.
Qed.

Lemma bitmask_word regs (i : nat) r :
  Forall is_word regs ->
  regs !! i = Some r ->
  Z.land (Z.shiftr (Deye.bitmask 0 0 regs) (16 * Z.of_nat i)) 0xFFFF = r.
Proof.
  intros Hwords. revert i. induction Hwords as [|r0 rest Hr0 Hrest IH];
    intros i Hi; [discriminate Hi|].
  rewrite bitmask_cons by exact Hr0.
  change 0xFFFF with (Z.ones 16).
  destruct i as [|i]; simpl in Hi.
  - injection Hi as <-. rewrite Z.shiftr_0_r, Z.land_ones by lia.
    change (2 ^ 16) with 65536. rewrite Z.mod_add by lia.
    apply Z.mod_small. exact Hr0.
  - replace (16 * Z.of_nat (S i)) with (16 + 16 * Z.of_nat i) by lia.
    rewrite <- Z.shiftr_shiftr by lia.
    rewrite (Z.shiftr_div_pow2 _ 16) by lia. change (2 ^ 16) with 65536.
    rewrite Z.div_add by lia. rewrite (Z.div_small r0) by exact Hr0.
    rewrite Z.add_0_l. by apply IH.
Qed.

(** X10: the Deye error and warning codes keep every bit of every word.
    When the read returns the words [regs], each an unsigned 16-bit
    number, [read_parameter] returns the integer [v] in which word [i]
    holds the bits [16*i .. 16*i+15] (the first word lowest), so each
    word is got back as [(v >> 16*i) & 0xFFFF]; [v] is not negative, is
    zero exactly when every word is zero, and passes the [value > 0] test
    of [get_status] exactly when some word is not zero. *)
Theorem codes_keep_every_bit {W : Type} `{Transport W}
    (st st1 : St W) (name : string) (d : RegisterInfo) (regs : list Z) :
  Deye.is_bitmask name = true ->
  Deye.REGISTER_MAP !! name = Some d ->
  read_register (address d) (size d) st = (Ret (Some regs), st1) ->
  Forall is_word regs ->
  exists v : Z,
    Deye.read_parameter name st =
    (Ret (Some (mkParam (Num (inject_Z v)) (unit d))), st1) /\
    0 <= v /\
    (forall (i : nat) r, regs !! i = Some r ->
       Z.land (Z.shiftr v (16 * Z.of_nat i)) 0xFFFF = r) /\
    (v = 0 <-> Forall (fun r => r = 0) regs) /\
    (py_gt0 (Num (inject_Z v)) = Ret true <-> Exists (fun r => r <> 0) regs).
Proof.
  intros Hb Hd Hr Hwords. exists (Deye.bitmask 0 0 regs).
  split; [by apply deye_read_parameter_bitmask|].
  pose proof (bitmask_nonneg regs Hwords) as Hnn.
  pose proof (bitmask_zero regs Hwords) as Hzero.
  split; [exact Hnn|]. split; [intros; by apply bitmask_word|].
  split; [exact Hzero|].
  simpl. split.
  - intros Hgt. injection Hgt as Hgt. apply positive_test in Hgt.
    apply Exists_exists.
    destruct (decide (Forall (fun r => r = 0) regs)) as [Hall|Hsome].
    + apply Hzero in Hall. rewrite Hall in Hgt. exfalso.
      revert Hgt. unfold Qlt. simpl. lia.
    + apply not_Forall_Exists in Hsome; [|intros r; apply Z.eq_dec].
      by apply Exists_exists in Hsome.
  - intros Hex. f_equal. apply positive_test.
    assert (Hnz : Deye.bitmask 0 0 regs <> 0).
    { intros Hz. apply Hzero in Hz. apply Exists_exists in Hex as (r & Hin & Hr0).
      rewrite Forall_forall in Hz. apply Hr0, Hz, Hin. }
    unfold Qlt. simpl. lia.
Qed.

(** Run of X10: the error codes [3, 0, 0x8000, 0]. *)
Lemma codes_keep_every_bit_witness :
  let st := Scripted.session [Scripted.good [3; 0; 0x8000; 0]] [] in
  let st1 := mkSt Scripted.connected_adapter (Scripted.mkWorld [] [] [] 1%nat [])
                  [EvRead 0%nat 0x0300 4 1] in
  (Deye.is_bitmask "error_codes" = true /\
   Deye.REGISTER_MAP !! "error_codes" = Some (mkReg 0x0300 4 1 "") /\
   read_register 0x0300 4 st = (Ret (Some [3; 0; 0x8000; 0]), st1) /\
   Forall is_word [3; 0; 0x8000; 0]) /\
  exists v : Z,
    Deye.read_parameter "error_codes" st =
    (Ret (Some (mkParam (Num (inject_Z v)) "")), st1) /\
    Z.land (Z.shiftr v (16 * Z.of_nat 2)) 0xFFFF = 0x8000.
Proof.
  intros st st1.
  assert (Hd : Deye.REGISTER_MAP !! "error_codes" = Some (mkReg 0x0300 4 1 ""))
    by (vm_compute; reflexivity).
  assert (Hr : read_register 0x0300 4 st = (Ret (Some [3; 0; 0x8000; 0]), st1))
    by reflexivity.
  assert (Hw : Forall is_word [3; 0; 0x8000; 0])
    by (repeat constructor; unfold is_word; lia).
  split; [repeat split; try assumption; apply Hw|].
  destruct (codes_keep_every_bit st st1 "error_codes" (mkReg 0x0300 4 1 "")
              [3; 0; 0x8000; 0] eq_refl Hd Hr Hw)
    as (v & Hread & _ & Hwords & _).
  exists v. split; [exact Hread|]. by apply Hwords.
Defined.

(** X11: the two decoders of [DeyeModbusProtocol.read_parameter] take the
    words in opposite orders. For two unsigned 16-bit words, the branch
    for [size == 2] reads the first word as the high half,
    [r0 * 65536 + r1], while the loop of the error and warning codes reads
    it as the low half, [r0 + r1 * 65536]; the two readings of the same
    words agree exactly when the words are equal. *)
Theorem word_orders_are_opposite {W : Type} `{Transport W}
    (st : St W) (f : Q) (r0 r1 : Z) :
  is_word r0 ->
  is_word r1 ->
  standard_value 2 f [r0; r1] st =
    (Ret (Num (inject_Z (r0 * 65536 + r1) * f)), st) /\
  Deye.bitmask 0 0 [r0; r1] = r0 + r1 * 65536 /\
  (r0 * 65536 + r1 = Deye.bitmask 0 0 [r0; r1] <-> r0 = r1).
Proof.
  intros Hr0 Hr1.
  assert (Hwide : Z.lor (Z.shiftl r0 16) r1 = r0 * 65536 + r1).
  { rewrite Z.lor_comm, lor_word_shifted by exact Hr1. lia. }
  assert (Hmask : Deye.bitmask 0 0 [r0; r1] = r0 + r1 * 65536).
  { rewrite !bitmask_cons by assumption. simpl. lia. }
  split; [by rewrite standard_value_pair, Hwide|].
  split; [exact Hmask|]. rewrite Hmask. lia.
Qed.

(** Run of X11 on the words [1, 2]. *)
Lemma word_orders_are_opposite_witness :
  (is_word 1 /\ is_word 2) /\
  standard_value 2 1 [1; 2] Dead.session =
    (Ret (Num (inject_Z (1 * 65536 + 2) * 1)), Dead.session) /\
  Deye.bitmask 0 0 [1; 2] = 1 + 2 * 65536.
Proof.
  assert (H1 : is_word 1) by (unfold is_word; lia).
  assert (H2 : is_word 2) by (unfold is_word; lia).
  split; [by split|].
  destruct (word_orders_are_opposite Dead.session 1 1 2 H1 H2) as (Hs & Hm & _).
  by split.
Defined.

(** ** The dict of [get_status] *)

Section StatusDict.
Context {W : Type} `{Transport W}.

(** The first loop stores parameter dicts, under names of its list. *)
Lemma read_headlines_entries rp ps status (st : St W) r key x :
  (read_headlines rp ps status st).1 = Ret r ->
  r !! key = Some x ->
  status !! key = Some x \/ (key ∈ ps /\ exists p, x = Param p).
Proof.
  revert status st. induction ps as [|p ps IH]; intros status st; simpl.
  - unfold ret. simpl. intros [= <-] Hx. by left.
  - unfold bind. destruct (rp p st) as [[[pv|]|e] st1]; intros Hr Hx.
    + destruct (IH _ _ Hr Hx) as [Hin|[Hin Hp]].
      * destruct (decide (p = key)) as [->|Hne].
        -- rewrite lookup_insert_eq in Hin. injection Hin as <-.
           right. split; [apply list_elem_of_here|eauto].
        -- rewrite lookup_insert_ne in Hin by exact Hne. by left.
      * right. split; [by apply list_elem_of_further|exact Hp].
    + destruct (IH _ _ Hr Hx) as [Hin|[Hin Hp]]; [by left|].
      right. split; [by apply list_elem_of_further|exact Hp].
    + discriminate Hr.
Qed.

(** The step of the Anern error flags either leaves the dict as it is or
    stores the flag and the reading. *)
Lemma add_error_flags_shape key reading status (st : St W) :
  (forall p, reading = Some p -> exists q, value p = Num q) ->
  Anern.add_error_flags key reading status st = (Ret status, st) \/
  exists p,
    reading = Some p /\
    Anern.add_error_flags key reading status st =
    (Ret (<[key := Param p]> (<["has_errors" := Flag true]> status)), st).
Proof.
  intros Hnum. unfold Anern.add_error_flags. destruct reading as [p|]; [|by left].
  destruct (Hnum p eq_refl) as [q Hq]. unfold_monad. rewrite Hq. simpl.
  destruct (negb (Qle_bool q 0)); [right; eauto|by left].
Qed.

Lemma add_codes_shape key reading status (st : St W) :
  (forall p, reading = Some p -> exists q, value p = Num q) ->
  Deye.add_codes key reading status st = (Ret status, st) \/
  exists p,
    reading = Some p /\
    Deye.add_codes key reading status st =
    (Ret (<[key := Param p]> status), st).
Proof.
  intros Hnum. unfold Deye.add_codes. destruct reading as [p|]; [|by left].
  destruct (Hnum p eq_refl) as [q Hq]. unfold_monad. rewrite Hq. simpl.
  destruct (negb (Qle_bool q 0)); [right; eauto|by left].
Qed.

(** [get_status], stage by stage. *)
Lemma anern_get_status_stages (st : St W) :
  exists headline st1 flags_1 st2 flags_2 st3 s1 s2,
    read_headlines Anern.read_parameter Anern.parameters ∅ st
    = (Ret headline, st1) /\
    Anern.read_parameter "error_flags_1" st1 = (Ret flags_1, st2) /\
    Anern.read_parameter "error_flags_2" st2 = (Ret flags_2, st3) /\
    (forall p, flags_1 = Some p -> exists q, value p = Num q) /\
    (forall p, flags_2 = Some p -> exists q, value p = Num q) /\
    Anern.add_error_flags "error_flags_1" flags_1 headline st3 = (Ret s1, st3) /\
    Anern.add_error_flags "error_flags_2" flags_2 s1 st3 = (Ret s2, st3) /\
    Anern.get_status st = (Ret s2, st3).
Proof.
  destruct (read_headlines_returns Anern.read_parameter Anern.parameters ∅ st
              anern_read_parameter_returns) as [headline Hh].
  destruct (read_headlines Anern.read_parameter Anern.parameters ∅ st)
    as [h' st1] eqn:Hhead.
  simpl in Hh. subst h'.
  destruct (anern_read_parameter_returns "error_flags_1" st1) as [f1 Hf1].
  destruct (Anern.read_parameter "error_flags_1" st1) as [f1' st2] eqn:Hr1.
  simpl in Hf1. subst f1'.
  destruct (anern_read_parameter_returns "error_flags_2" st2) as [f2 Hf2].
  destruct (Anern.read_parameter "error_flags_2" st2) as [f2' st3] eqn:Hr2.
  simpl in Hf2. subst f2'.
  assert (Hn1 : forall p, f1 = Some p -> exists q, value p = Num q).
  { intros p ->. apply (anern_reading_numeric _ _ _ _ Hr1). }
  assert (Hn2 : forall p, f2 = Some p -> exists q, value p = Num q).
  { intros p ->. apply (anern_reading_numeric _ _ _ _ Hr2). }
  destruct (add_error_flags_rule "error_flags_1" f1 headline st3
              ltac:(discriminate) Hn1) as (s1 & Hs1 & _).
  destruct (add_error_flags_rule "error_flags_2" f2 s1 st3
              ltac:(discriminate) Hn2) as (s2 & Hs2 & _).
  exists headline, st1, f1, st2, f2, st3, s1, s2.
  repeat (split; [first [reflexivity|assumption]|]).
  unfold Anern.get_status. unfold bind at 1. rewrite Hhead.
  unfold bind at 1. rewrite Hr1. unfold bind at 1. rewrite Hr2.
  unfold bind at 1. rewrite Hs1. unfold bind at 1. rewrite Hs2. reflexivity.
Qed.

Lemma deye_get_status_stages (st : St W) :
  exists headline st1 error_codes st2 warning_codes st3 s1 s2,
    read_headlines Deye.read_parameter Deye.parameters ∅ st
    = (Ret headline, st1) /\
    Deye.read_parameter "error_codes" st1 = (Ret error_codes, st2) /\
    Deye.read_parameter "warning_codes" st2 = (Ret warning_codes, st3) /\
    (forall p, error_codes = Some p -> exists q, value p = Num q) /\
    (forall p, warning_codes = Some p -> exists q, value p = Num q) /\
    Deye.add_codes "errors" error_codes headline st3 = (Ret s1, st3) /\
    Deye.add_codes "warnings" warning_codes s1 st3 = (Ret s2, st3) /\
    Deye.get_status st = (Ret s2, st3).
Proof.
  destruct (read_headlines_returns Deye.read_parameter Deye.parameters ∅ st
              deye_read_parameter_returns) as [headline Hh].
  destruct (read_headlines Deye.read_parameter Deye.parameters ∅ st)
    as [h' st1] eqn:Hhead.
  simpl in Hh. subst h'.
  destruct (deye_read_parameter_returns "error_codes" st1) as [f1 Hf1].
  destruct (Deye.read_parameter "error_codes" st1) as [f1' st2] eqn:Hr1.
  simpl in Hf1. subst f1'.
  destruct (deye_read_parameter_returns "warning_codes" st2) as [f2 Hf2].
  destruct (Deye.read_parameter "warning_codes" st2) as [f2' st3] eqn:Hr2.
  simpl in Hf2. subst f2'.
  assert (Hn1 : forall p, f1 = Some p -> exists q, value p = Num q).
  { intros p ->. apply (deye_reading_numeric "error_codes" _ _ _ eq_refl Hr1). }
  assert (Hn2 : forall p, f2 = Some p -> exists q, value p = Num q).
  { intros p ->. apply (deye_reading_numeric "warning_codes" _ _ _ eq_refl Hr2). }
  destruct (add_codes_rule "errors" f1 headline st3 Hn1) as (s1 & Hs1 & _).
  destruct (add_codes_rule "warnings" f2 s1 st3 Hn2) as (s2 & Hs2 & _).
  exists headline, st1, f1, st2, f2, st3, s1, s2.
  repeat (split; [first [reflexivity|assumption]|]).
  unfold Deye.get_status. unfold bind at 1. rewrite Hhead.
  unfold bind at 1. rewrite Hr1. unfold bind at 1. rewrite Hr2.
  unfold bind at 1. rewrite Hs1. unfold bind at 1. rewrite Hs2. reflexivity.
Qed.

End StatusDict.

(** Looking a key up in a dict built by insertions. *)
Ltac status_lookups :=
  repeat first [rewrite lookup_insert_eq
               |rewrite lookup_insert_ne by discriminate].

(** The entry [x] found under [key] is one of the inserted ones, or was
    there before. *)
Ltac status_key key x Hx :=
  repeat match type of Hx with
  | <[?k := _]> _ !! key = Some _ =>
    destruct (decide (k = key)) as [<-|?];
    [rewrite lookup_insert_eq in Hx; injection Hx as <-;
     first [right; split; reflexivity
           |left; split; [auto|eexists; reflexivity]
           |split; [auto|eexists; reflexivity]]
    |rewrite lookup_insert_ne in Hx by assumption]
  end.

(** X12: the dict of [get_status] has only the keys the code stores and
    never raises. For Anern every entry is a parameter dict under a name
    of the headline list or under [error_flags_1] or [error_flags_2],
    except the flag [True] under [has_errors]; and [has_errors] is present
    exactly when one of the two error entries is. For Deye every entry is
    a parameter dict under a name of the headline list or under [errors]
    or [warnings]; there is no [has_errors]. *)
Theorem status_dict_shape {W : Type} `{Transport W} (st : St W) :
  (exists status,
     (Anern.get_status st).1 = Ret status /\
     (forall key x, status !! key = Some x ->
        ((key ∈ Anern.parameters \/ key = "error_flags_1" \/
          key = "error_flags_2") /\ exists p, x = Param p) \/
        (key = "has_errors" /\ x = Flag true)) /\
     (status !! "has_errors" = Some (Flag true) <->
      is_Some (status !! "error_flags_1") \/
      is_Some (status !! "error_flags_2"))) /\
  (exists status,
     (Deye.get_status st).1 = Ret status /\
     (forall key x, status !! key = Some x ->
        (key ∈ Deye.parameters \/ key = "errors" \/ key = "warnings") /\
        exists p, x = Param p) /\
     status !! "has_errors" = None).
Proof.
  split.
  - destruct (anern_get_status_stages st)
      as (h & st1 & f1 & st2 & f2 & st3 & s1 & s2 &
          Hhead & _ & _ & Hn1 & Hn2 & Hs1 & Hs2 & Hget).
    exists s2. rewrite Hget. split; [reflexivity|].
    assert (Hh : forall key x, h !! key = Some x ->
                   key ∈ Anern.parameters /\ exists p, x = Param p).
    { intros key x Hx.
      destruct (read_headlines_entries _ _ _ _ _ _ _ (f_equal fst Hhead) Hx)
        as [Hempty|Hin]; [by rewrite lookup_empty in Hempty|exact Hin]. }
    assert (Hnone : forall key, key ∉ Anern.parameters -> h !! key = None).
    { intros key Hk. destruct (h !! key) as [x|] eqn:Hx; [|reflexivity].
      by destruct (Hh _ _ Hx). }
    pose proof (Hnone "has_errors" ltac:(not_listed)) as Hhe.
    pose proof (Hnone "error_flags_1" ltac:(not_listed)) as Hh1.
    pose proof (Hnone "error_flags_2" ltac:(not_listed)) as Hh2.
    destruct (add_error_flags_shape "error_flags_1" f1 h st3 Hn1)
      as [E1|(p1 & _ & E1)];
      destruct (add_error_flags_shape "error_flags_2" f2 s1 st3 Hn2)
        as [E2|(p2 & _ & E2)];
      rewrite E1 in Hs1; rewrite E2 in Hs2;
      injection Hs1 as Hs1; injection Hs2 as Hs2; subst s1 s2.
    all: split;
      [intros key x Hx; status_key key x Hx;
       destruct (Hh _ _ Hx) as [Hin Hp]; left; split; [by left|exact Hp]
      |].
    all: status_lookups; rewrite ?Hhe, ?Hh1, ?Hh2.
    all: split;
      [intros Hflag;
       first [discriminate Hflag|left; by eexists|right; by eexists]
      |intros [[x Hx]|[x Hx]]; first [discriminate Hx|reflexivity]].
  - destruct (deye_get_status_stages st)
      as (h & st1 & f1 & st2 & f2 & st3 & s1 & s2 &
          Hhead & _ & _ & Hn1 & Hn2 & Hs1 & Hs2 & Hget).
    exists s2. rewrite Hget. split; [reflexivity|].
    assert (Hh : forall key x, h !! key = Some x ->
                   key ∈ Deye.parameters /\ exists p, x = Param p).
    { intros key x Hx.
      destruct (read_headlines_entries _ _ _ _ _ _ _ (f_equal fst Hhead) Hx)
        as [Hempty|Hin]; [by rewrite lookup_empty in Hempty|exact Hin]. }
    assert (Hhe : h !! "has_errors" = None).
    { destruct (h !! "has_errors") as [x|] eqn:Hx; [|reflexivity].
      destruct (Hh _ _ Hx) as [Hin _]. exfalso. revert Hin. not_listed. }
    destruct (add_codes_shape "errors" f1 h st3 Hn1)
      as [E1|(p1 & _ & E1)];
      destruct (add_codes_shape "warnings" f2 s1 st3 Hn2)
        as [E2|(p2 & _ & E2)];
      rewrite E1 in Hs1; rewrite E2 in Hs2;
      injection Hs1 as Hs1; injection Hs2 as Hs2; subst s1 s2.
    all: split;
      [intros key x Hx; status_key key x Hx;
       destruct (Hh _ _ Hx) as [Hin Hp]; split; [by left|exact Hp]
      |].
    all: status_lookups; exact Hhe.
Qed.

(** ** The status of a line that answers no read *)

Section DeadReads.
Context {W : Type} `{Transport W}.
Hypothesis dead : reads_never_succeed W.

Lemma dead_reads_fail n c address count u (w : W) :
  reads_fail n c address count u w.
Proof.
  revert w. induction n as [|n IH]; intros w; simpl; [exact I|].
  split; [apply dead|apply IH].
Qed.

Lemma dead_read_register a0 c address count (st : St W) :
  is_connected a0 = true ->
  client a0 = Some c ->
  self st = a0 ->
  exists st1,
    read_register address count st = (Ret None, st1) /\
    self st1 = a0 /\
    length (transactions (trace st1)) =
    (length (transactions (trace st)) + Z.to_nat (retries a0))%nat.
Proof.
  intros Hconn Hc Hst. subst a0.
  rewrite (read_register_connected _ _ _ Hconn).
  destruct (read_attempts_exhausted (Z.to_nat (retries (self st)))
              address count c st Hc (dead_reads_fail _ _ _ _ _ _))
    as [Hres Htr].
  pose proof (read_attempts_self (Z.to_nat (retries (self st)))
                address count st) as Hself.
  destruct (read_attempts _ _ _ st) as [r st1]. simpl in *. subst r.
  exists st1. split; [reflexivity|]. split; [exact Hself|].
  by rewrite Htr, length_app, length_replicate.
Qed.

Lemma dead_anern_read_parameter a0 c name :
  is_connected a0 = true ->
  client a0 = Some c ->
  is_Some (Anern.REGISTER_MAP !! name) ->
  fruitless a0 (Anern.read_parameter name).
Proof.
  intros Hconn Hc [d Hd] st Hst.
  destruct (dead_read_register a0 c (address d) (size d) st Hconn Hc Hst)
    as (st1 & Hr & Hself & Hlen).
  rewrite (anern_read_parameter_words _ _ _ _ _ Hd Hr). by simpl.
Qed.

Lemma dead_deye_read_parameter a0 c name :
  is_connected a0 = true ->
  client a0 = Some c ->
  is_Some (Deye.REGISTER_MAP !! name) ->
  fruitless a0 (Deye.read_parameter name).
Proof.
  intros Hconn Hc [d Hd] st Hst.
  destruct (dead_read_register a0 c (address d) (size d) st Hconn Hc Hst)
    as (st1 & Hr & Hself & Hlen).
  rewrite (deye_read_parameter_failed _ _ _ _ Hd Hr). by simpl.
Qed.

Lemma dead_read_headlines a0 rp ps status (st : St W) :
  Forall (fun p => fruitless a0 (rp p)) ps ->
  self st = a0 ->
  exists st1,
    read_headlines rp ps status st = (Ret status, st1) /\
    self st1 = a0 /\
    length (transactions (trace st1)) =
    (length (transactions (trace st)) + length ps * Z.to_nat (retries a0))%nat.
Proof.
  intros Hps. revert st. induction Hps as [|p ps Hp _ IH]; intros st Hst; simpl.
  - exists st. split; [reflexivity|]. split; [exact Hst|lia].
  - unfold bind. destruct (Hp st Hst) as (Hres & Hself & Hlen).
    destruct (rp p st) as [r st1]. simpl in *. subst r.
    destruct (IH st1 Hself) as (st2 & Hrest & Hself2 & Hlen2).
    exists st2. split; [exact Hrest|]. split; [exact Hself2|]. lia.
Qed.

End DeadReads.

Lemma anern_status_names_known :
  Forall (fun p => is_Some (Anern.REGISTER_MAP !! p))
         (Anern.parameters ++ ["error_flags_1"; "error_flags_2"]).
Proof.
  unfold Anern.parameters. simpl.
  repeat (apply Forall_cons; split; [eexists; vm_compute; reflexivity|]).
  constructor.
Qed.

Lemma deye_status_names_known :
  Forall (fun p => is_Some (Deye.REGISTER_MAP !! p))
         (Deye.parameters ++ ["error_codes"; "warning_codes"]).
Proof.
  unfold Deye.parameters. simpl.
  repeat (apply Forall_cons; split; [eexists; vm_compute; reflexivity|]).
  constructor.
Qed.

(** X13: [get_status] on a line that completes no read. On a connected
    session every read of the status uses up all its attempts, so the
    result is the empty dict, not an error, after [retries] transactions
    for each of the 12 parameters Anern reads (15 for Deye); the adapter is
    left as it was, still connected. *)
Theorem status_of_a_dead_line {W : Type} `{Transport W}
    (st : St W) (c : Client) :
  is_connected (self st) = true ->
  client (self st) = Some c ->
  reads_never_succeed W ->
  let n := Z.to_nat (retries (self st)) in
  ((Anern.get_status st).1 = Ret ∅ /\
   self (Anern.get_status st).2 = self st /\
   length (transactions (trace (Anern.get_status st).2)) =
   (length (transactions (trace st)) + 12 * n)%nat) /\
  ((Deye.get_status st).1 = Ret ∅ /\
   self (Deye.get_status st).2 = self st /\
   length (transactions (trace (Deye.get_status st).2)) =
   (length (transactions (trace st)) + 15 * n)%nat).
Proof.
  intros Hconn Hc Hdead n. split.
  - pose proof anern_status_names_known as Hknown.
    apply Forall_app in Hknown as [Hps Herr].
    apply Forall_cons in Herr as [He1 Herr].
    apply Forall_cons in Herr as [He2 _].
    assert (Hfr : Forall (fun p => fruitless (self st) (Anern.read_parameter p))
                         Anern.parameters).
    { eapply Forall_impl; [exact Hps|]. intros p Hp.
      by apply (dead_anern_read_parameter Hdead (self st) c). }
    destruct (dead_read_headlines (self st) Anern.read_parameter
                Anern.parameters ∅ st Hfr eq_refl) as (st1 & Hhead & Hs1 & Hl1).
    destruct (dead_anern_read_parameter Hdead (self st) c "error_flags_1"
                Hconn Hc He1 st1 Hs1) as (Hr1 & Hs2 & Hl2).
    destruct (Anern.read_parameter "error_flags_1" st1) as [r1 st2] eqn:E1.
    simpl in Hr1, Hs2, Hl2. subst r1.
    destruct (dead_anern_read_parameter Hdead (self st) c "error_flags_2"
                Hconn Hc He2 st2 Hs2) as (Hr2 & Hs3 & Hl3).
    destruct (Anern.read_parameter "error_flags_2" st2) as [r2 st3] eqn:E2.
    simpl in Hr2, Hs3, Hl3. subst r2.
    assert (Hget : Anern.get_status st = (Ret ∅, st3)).
    { unfold Anern.get_status. unfold bind at 1. rewrite Hhead.
      unfold bind at 1. rewrite E1. unfold bind at 1. rewrite E2. reflexivity. }
    rewrite Hget. simpl. split; [reflexivity|]. split; [exact Hs3|].
    rewrite Hl3, Hl2, Hl1. unfold Anern.parameters. simpl. fold n. lia.
  - pose proof deye_status_names_known as Hknown.
    apply Forall_app in Hknown as [Hps Herr].
    apply Forall_cons in Herr as [He1 Herr].
    apply Forall_cons in Herr as [He2 _].
    assert (Hfr : Forall (fun p => fruitless (self st) (Deye.read_parameter p))
                         Deye.parameters).
    { eapply Forall_impl; [exact Hps|]. intros p Hp.
      by apply (dead_deye_read_parameter Hdead (self st) c). }
    destruct (dead_read_headlines (self st) Deye.read_parameter
                Deye.parameters ∅ st Hfr eq_refl) as (st1 & Hhead & Hs1 & Hl1).
    destruct (dead_deye_read_parameter Hdead (self st) c "error_codes"
                Hconn Hc He1 st1 Hs1) as (Hr1 & Hs2 & Hl2).
    destruct (Deye.read_parameter "error_codes" st1) as [r1 st2] eqn:E1.
    simpl in Hr1, Hs2, Hl2. subst r1.
    destruct (dead_deye_read_parameter Hdead (self st) c "warning_codes"
                Hconn Hc He2 st2 Hs2) as (Hr2 & Hs3 & Hl3).
    destruct (Deye.read_parameter "warning_codes" st2) as [r2 st3] eqn:E2.
    simpl in Hr2, Hs3, Hl3. subst r2.
    assert (Hget : Deye.get_status st = (Ret ∅, st3)).
    { unfold Deye.get_status. unfold bind at 1. rewrite Hhead.
      unfold bind at 1. rewrite E1. unfold bind at 1. rewrite E2. reflexivity. }
    rewrite Hget. simpl. split; [reflexivity|]. split; [exact Hs3|].
    rewrite Hl3, Hl2, Hl1. unfold Deye.parameters. simpl. fold n. lia.
Qed.

(** Run of X13 on the dead line: 36 reads for an empty Anern status. *)
Lemma status_of_a_dead_line_witness :
  (is_connected (self Dead.session) = true /\
   client (self Dead.session) = Some 0%nat /\
   reads_never_succeed ()%type) /\
  (Anern.get_status Dead.session).1 = Ret ∅ /\
  length (transactions (trace (Anern.get_status Dead.session).2)) =
  (length (transactions (trace Dead.session)) + 12 * 3)%nat.
Proof.
  assert (Hdead : reads_never_succeed ()%type) by (intros ? ? ? ? ?; reflexivity).
  split; [by repeat split|].
  destruct (proj1 (status_of_a_dead_line Dead.session 0%nat eq_refl eq_refl Hdead))
    as (Hres & _ & Hlen).
  split; [exact Hres|exact Hlen].
Defined.

(** ** The register maps as data *)

Lemma apartb_apart d1 d2 : apartb d1 d2 = true -> apart d1 d2.
Proof.
  unfold apartb, apart. intros Hb. apply orb_true_iff in Hb as [Hb|Hb];
    apply Z.leb_le in Hb; auto.
Qed.

Lemma apart_sym d1 d2 : apart d1 d2 -> apart d2 d1.
Proof. unfold apart. tauto. Qed.

Lemma all_apart_spec entries :
  all_apart entries = true ->
  forall (i j : nat) nd1 nd2,
    entries !! i = Some nd1 -> entries !! j = Some nd2 -> i <> j ->
    apart nd1.2 nd2.2.
Proof.
  induction entries as [|nd rest IH]; intros Hall i j nd1 nd2 Hi Hj Hne;
    [discriminate Hi|].
  simpl in Hall. apply andb_true_iff in Hall as [Hhead Hrest].
  rewrite forallb_forall in Hhead.
  destruct i as [|i], j as [|j]; simpl in Hi, Hj; try congruence.
  - injection Hi as <-. apply apartb_apart, Hhead.
    apply list_elem_of_In, list_elem_of_lookup. eauto.
  - injection Hj as <-. apply apart_sym, apartb_apart, Hhead.
    apply list_elem_of_In, list_elem_of_lookup. eauto.
  - apply (IH Hrest i j); auto.
Qed.

(** X14: both register maps are well formed: no name is listed twice (so
    the dict holds exactly the listed entries), every descriptor has a
    positive width and lies inside the 16-bit address space, and no
    register belongs to two parameters, so that two parameters are never
    two views of the same words. Every name [get_status] asks for is a
    name of the map of its class. *)
Theorem register_maps_are_well_formed :
  well_formed Anern.REGISTER_ENTRIES /\
  well_formed Deye.REGISTER_ENTRIES /\
  (forall name d,
     Anern.REGISTER_MAP !! name = Some d <-> (name, d) ∈ Anern.REGISTER_ENTRIES) /\
  (forall name d,
     Deye.REGISTER_MAP !! name = Some d <-> (name, d) ∈ Deye.REGISTER_ENTRIES) /\
  Forall (fun p => is_Some (Anern.REGISTER_MAP !! p))
         (Anern.parameters ++ ["error_flags_1"; "error_flags_2"]) /\
  Forall (fun p => is_Some (Deye.REGISTER_MAP !! p))
         (Deye.parameters ++ ["error_codes"; "warning_codes"]).
Proof.
  assert (Hna : NoDup Anern.REGISTER_ENTRIES.*1).
  { apply (bool_decide_unpack _). vm_compute. exact I. }
  assert (Hnd : NoDup Deye.REGISTER_ENTRIES.*1).
  { apply (bool_decide_unpack _). vm_compute. exact I. }
  split; [|split; [|split; [|split; [|split]]]].
  - split; [exact Hna|]. split.
    + unfold Anern.REGISTER_ENTRIES.
      repeat (apply Forall_cons; split; [simpl; lia|]). constructor.
    + apply all_apart_spec. vm_compute. reflexivity.
  - split; [exact Hnd|]. split.
    + unfold Deye.REGISTER_ENTRIES.
      repeat (apply Forall_cons; split; [simpl; lia|]). constructor.
    + apply all_apart_spec. vm_compute. reflexivity.
  - intros name d. symmetry. by apply elem_of_list_to_map.
  - intros name d. symmetry. by apply elem_of_list_to_map.
  - apply anern_status_names_known.
  - apply deye_status_names_known.
Qed.

(** ** The example scripts *)

Lemma closes_app tr1 tr2 : closes (tr1 ++ tr2) = closes tr1 ++ closes tr2.
Proof. apply List.filter_app. Qed.

Lemma closes_none (P : event -> Prop) new :
  (forall e, P e -> is_close e = false) -> Forall P new -> closes new = [].
Proof.
  intros HP. induction 1 as [|e new He _ IH]; [reflexivity|].
  unfold closes in *. simpl. by rewrite (HP e He).
Qed.

Section Scripts.
Context {W : Type} `{Transport W}.

Lemma adds_closes_nothing {A} (P : event -> Prop) (m : M W A) (st : St W) :
  (forall e, P e -> is_close e = false) ->
  adds P m ->
  closes (trace (m st).2) = closes (trace st).
Proof.
  intros HP Hm. destruct (Hm st) as (new & -> & Hnew).
  by rewrite closes_app, (closes_none P new HP Hnew), app_nil_r.
Qed.

Lemma harmless_intro {A} a0 (P : event -> Prop) (m : M W A) :
  (forall st, exists r, (m st).1 = Ret r) ->
  keeps (fun a => a = a0) m ->
  (forall e, P e -> is_close e = false) ->
  adds P m ->
  harmless a0 m.
Proof.
  intros Hret Hkeep HP Hadds st Hst.
  destruct (Hret st) as [r Hr].
  pose proof (Hkeep st Hst) as Hself.
  pose proof (adds_closes_nothing P m st HP Hadds) as Hcl.
  destruct (m st) as [r' st']. simpl in *. subst r'. eauto.
Qed.

Lemma set_enumerated_returns REGISTER_MAP table target label (st : St W) :
  writable_label REGISTER_MAP table target label ->
  exists r, (set_enumerated REGISTER_MAP table target label st).1 = Ret r.
Proof.
  intros (code & d & word & Hl & Hd & Hw).
  rewrite (set_enumerated_known _ _ _ _ _ _ _ _ Hl Hd Hw).
  apply write_register_returns.
Qed.

Lemma anern_get_status_returns (st : St W) :
  exists r, (Anern.get_status st).1 = Ret r.
Proof.
  destruct (anern_get_status_stages st)
    as (? & ? & ? & ? & ? & ? & ? & s2 & _ & _ & _ & _ & _ & _ & _ & Hget).
  rewrite Hget. eexists; reflexivity.
Qed.

Lemma deye_get_status_returns (st : St W) :
  exists r, (Deye.get_status st).1 = Ret r.
Proof.
  destruct (deye_get_status_stages st)
    as (? & ? & ? & ? & ? & ? & ? & s2 & _ & _ & _ & _ & _ & _ & _ & Hget).
  rewrite Hget. eexists; reflexivity.
Qed.

Lemma read_side_no_close e : read_side e -> is_close e = false.
Proof. by intros [_ Hc]. Qed.

Lemma write_side_no_close e : write_side e -> is_close e = false.
Proof. by intros [_ Hc]. Qed.

Lemma opening_no_close e : opening e -> is_close e = false.
Proof. by intros (_ & Hc & _). Qed.

Lemma harmless_anern_get_status a0 :
  is_connected a0 = true -> harmless (W:=W) a0 Anern.get_status.
Proof.
  intros Hc. apply (harmless_intro a0 read_side).
  - apply anern_get_status_returns.
  - by apply same_anern_get_status.
  - apply read_side_no_close.
  - apply adds_anern_get_status.
Qed.

Lemma harmless_deye_get_status a0 :
  is_connected a0 = true -> harmless (W:=W) a0 Deye.get_status.
Proof.
  intros Hc. apply (harmless_intro a0 read_side).
  - apply deye_get_status_returns.
  - by apply same_deye_get_status.
  - apply read_side_no_close.
  - apply adds_deye_get_status.
Qed.

Lemma harmless_set_enumerated REGISTER_MAP a0 table target label :
  writable_label REGISTER_MAP table target label ->
  is_connected a0 = true ->
  harmless (W:=W) a0 (set_enumerated REGISTER_MAP table target label).
Proof.
  intros Hlabel Hc. apply (harmless_intro a0 write_side).
  - intros st. by apply set_enumerated_returns.
  - by apply same_set_enumerated.
  - apply write_side_no_close.
  - apply adds_set_enumerated.
Qed.

Lemma disconnect_connected (st : St W) c :
  is_connected (self st) = true ->
  client (self st) = Some c ->
  disconnect st =
  (Ret true,
   mkSt (set_is_connected false (self st)) (client_close c (world st))
        (trace st ++ [EvClose c])).
Proof.
  intros Hconn Hc. unfold disconnect. unfold_monad. rewrite Hc, Hconn. simpl.
  rewrite Hc. reflexivity.
Qed.

(** What is left to a script once the connection is made. *)
Lemma script_tail (m : M W ()%type) (st : St W) c :
  is_connected (self st) = true ->
  client (self st) = Some c ->
  (exists st',
     m st = bind disconnect (fun _ => ret tt) st' /\ self st' = self st /\
     closes (trace st') = closes (trace st)) ->
  exists stf,
    m st = (Ret tt, stf) /\
    is_connected (self stf) = false /\
    closes (trace stf) = closes (trace st) ++ [EvClose c] /\
    last (trace stf) = Some (EvClose c).
Proof.
  intros Hconn Hc (st' & Hrun & Hself & Hcl).
  rewrite Hrun. unfold bind.
  rewrite (disconnect_connected st' c) by (rewrite Hself; assumption).
  eexists. split; [reflexivity|]. simpl. split; [reflexivity|]. split.
  - rewrite closes_app, Hcl. reflexivity.
  - apply last_snoc.
Qed.

End Scripts.

(** X15: the example scripts close what they open and end disconnected.
    Started on a fresh adapter, on any line, each script returns normally
    with [is_connected] false. When [connect] fails nothing more is done
    and nothing is closed; when it succeeds the client just opened is
    closed exactly once, and that [close] is the last call made. *)
Theorem scripts_close_what_they_open {W : Type} `{Transport W} (w : W) :
  let st0 := Script.start w in
  ((Script.anern st0).1 = Ret tt /\
   is_connected (self (Script.anern st0).2) = false /\
   ((connect st0).1 = Ret false ->
    Script.anern st0 = (Ret tt, (connect st0).2) /\
    closes (trace (Script.anern st0).2) = []) /\
   ((connect st0).1 = Ret true ->
    exists c,
      client (self (connect st0).2) = Some c /\
      closes (trace (Script.anern st0).2) = [EvClose c] /\
      last (trace (Script.anern st0).2) = Some (EvClose c))) /\
  ((Script.deye st0).1 = Ret tt /\
   is_connected (self (Script.deye st0).2) = false /\
   ((connect st0).1 = Ret false ->
    Script.deye st0 = (Ret tt, (connect st0).2) /\
    closes (trace (Script.deye st0).2) = []) /\
   ((connect st0).1 = Ret true ->
    exists c,
      client (self (connect st0).2) = Some c /\
      closes (trace (Script.deye st0).2) = [EvClose c] /\
      last (trace (Script.deye st0).2) = Some (EvClose c))).
Proof.
  intros st0.
  assert (Hpv : writable_label Anern.REGISTER_MAP Anern.CHARGE_PRIORITIES
                  "charge_source_priority" "PV_FIRST")
    by (eexists _, _, _; repeat split; vm_compute; reflexivity).
  assert (Hhybrid : writable_label Deye.REGISTER_MAP Deye.OPERATION_MODES
                      "operation_mode" "HYBRID")
    by (eexists _, _, _; repeat split; vm_compute; reflexivity).
  assert (Hsolar : writable_label Deye.REGISTER_MAP Deye.CHARGE_PRIORITIES
                     "charge_source_priority" "SOLAR_FIRST")
    by (eexists _, _, _; repeat split; vm_compute; reflexivity).
  assert (Hsbu : writable_label Deye.REGISTER_MAP Deye.OUTPUT_PRIORITIES
                   "output_source_priority" "SBU_PRIORITY")
    by (eexists _, _, _; repeat split; vm_compute; reflexivity).
  destruct (connect_result st0) as (b & Hres & Hconn & Hclient & _).
  pose proof (adds_closes_nothing opening connect st0 opening_no_close
                adds_connect) as Hcl0.
  change (closes (trace st0)) with (@nil event) in Hcl0.
  destruct (connect st0) as [r st1] eqn:Hconnect. simpl in *. subst r.
  destruct b.
  - destruct (Hclient eq_refl) as [c Hc].
    assert (Hanern : exists stf,
              Script.anern st0 = (Ret tt, stf) /\
              is_connected (self stf) = false /\
              closes (trace stf) = closes (trace st1) ++ [EvClose c] /\
              last (trace stf) = Some (EvClose c)).
    { unfold Script.anern. unfold bind at 1. rewrite Hconnect.
      apply script_tail; [exact Hconn|exact Hc|].
      destruct (harmless_anern_get_status _ Hconn st1 eq_refl)
        as (status & st2 & Hrun2 & Hs2 & Hc2).
      unfold bind at 1. rewrite Hrun2.
      unfold Anern.set_charge_priority.
      destruct (harmless_set_enumerated Anern.REGISTER_MAP (self st1)
                  Anern.CHARGE_PRIORITIES "charge_source_priority" "PV_FIRST"
                  Hpv Hconn st2 Hs2) as (r3 & st3 & Hrun3 & Hs3 & Hc3).
      unfold bind at 1. rewrite Hrun3.
      exists st3. split; [reflexivity|]. split; [exact Hs3|congruence]. }
    assert (Hdeye : exists stf,
              Script.deye st0 = (Ret tt, stf) /\
              is_connected (self stf) = false /\
              closes (trace stf) = closes (trace st1) ++ [EvClose c] /\
              last (trace stf) = Some (EvClose c)).
    { unfold Script.deye. unfold bind at 1. rewrite Hconnect.
      apply script_tail; [exact Hconn|exact Hc|].
      destruct (harmless_deye_get_status _ Hconn st1 eq_refl)
        as (status & st2 & Hrun2 & Hs2 & Hc2).
      unfold bind at 1. rewrite Hrun2.
      unfold Deye.set_mode, Deye.set_charge_priority, Deye.set_output_priority.
      destruct (harmless_set_enumerated Deye.REGISTER_MAP (self st1)
                  Deye.OPERATION_MODES "operation_mode" "HYBRID"
                  Hhybrid Hconn st2 Hs2) as (r3 & st3 & Hrun3 & Hs3 & Hc3).
      unfold bind at 1. rewrite Hrun3.
      destruct (harmless_set_enumerated Deye.REGISTER_MAP (self st1)
                  Deye.CHARGE_PRIORITIES "charge_source_priority" "SOLAR_FIRST"
                  Hsolar Hconn st3 Hs3) as (r4 & st4 & Hrun4 & Hs4 & Hc4).
      unfold bind at 1. rewrite Hrun4.
      destruct (harmless_set_enumerated Deye.REGISTER_MAP (self st1)
                  Deye.OUTPUT_PRIORITIES "output_source_priority" "SBU_PRIORITY"
                  Hsbu Hconn st4 Hs4) as (r5 & st5 & Hrun5 & Hs5 & Hc5).
      unfold bind at 1. rewrite Hrun5.
      exists st5. split; [reflexivity|]. split; [exact Hs5|congruence]. }
    destruct Hanern as (sa & -> & Hda & Hca & Hla).
    destruct Hdeye as (sd & -> & Hdd & Hcd & Hld).
    rewrite Hcl0 in Hca, Hcd. simpl in *.
    split; (split; [reflexivity|]; split; [assumption|];
            split; [intros Hf; discriminate Hf|]; intros _; exists c; auto).
  - assert (Hanern : Script.anern st0 = (Ret tt, st1)).
    { unfold Script.anern. unfold bind at 1. rewrite Hconnect. reflexivity. }
    assert (Hdeye : Script.deye st0 = (Ret tt, st1)).
    { unfold Script.deye. unfold bind at 1. rewrite Hconnect. reflexivity. }
    rewrite Hanern, Hdeye. simpl.
    split; (split; [reflexivity|]; split; [assumption|];
            split; [intros _; split; [reflexivity|exact Hcl0]
                   |intros Hf; discriminate Hf]).
Qed.

(** ** The text of the clock *)

Lemma format_02d_two_chars n :
  two_digits n ->
  exists a b, format_02d n = String a (String b EmptyString).
Proof.
  intros Hn.
  assert (Hb : forallb (fun n => Nat.eqb (String.length (format_02d n)) 2)
                       (seqZ 0 100) = true) by (vm_compute; reflexivity).
  rewrite forallb_forall in Hb.
  assert (Hin : n ∈ seqZ 0 100) by (apply elem_of_seqZ; unfold two_digits in Hn; lia).
  apply list_elem_of_In in Hin. specialize (Hb n Hin). apply Nat.eqb_eq in Hb.
  destruct (format_02d n) as [|a [|b [|c s]]]; try discriminate Hb. eauto.
Qed.

Lemma NoDup_fmap_inj {A B} (f : A -> B) (l : list A) x y :
  NoDup (f <$> l) -> x ∈ l -> y ∈ l -> f x = f y -> x = y.
Proof.
  induction l as [|a l IH]; intros Hnd Hx Hy Hf; [by apply elem_of_nil in Hx|].
  rewrite fmap_cons in Hnd. apply NoDup_cons in Hnd as [Hnotin Hnd].
  apply elem_of_cons in Hx as [->|Hx]; apply elem_of_cons in Hy as [->|Hy].
  - reflexivity.
  - exfalso. apply Hnotin. rewrite Hf. by apply list_elem_of_fmap_2.
  - exfalso. apply Hnotin. rewrite <- Hf. by apply list_elem_of_fmap_2.
  - by apply IH.
Qed.

Lemma format_02d_inj n n' :
  two_digits n -> two_digits n' -> format_02d n = format_02d n' -> n = n'.
Proof.
  intros Hn Hn'.
  assert (Hnd : NoDup (format_02d <$> seqZ 0 100)).
  { apply (bool_decide_unpack _). vm_compute. exact I. }
  apply (NoDup_fmap_inj format_02d (seqZ 0 100) n n' Hnd);
    apply elem_of_seqZ; unfold two_digits in *; lia.
Qed.

(** X16: the text of the Deye clock. When the read of ["time_now"]
    returns three words of at most two decimal digits each, the value is
    the text of eight characters [HH:MM:SS], with a colon in the third and
    the sixth place and an empty unit; and two such readings give the same
    text only when hours, minutes and seconds are the same. *)
Theorem clock_text_is_exact {W : Type} `{Transport W}
    (st st1 : St W) (hours minutes seconds : Z) :
  two_digits hours -> two_digits minutes -> two_digits seconds ->
  read_register 0x020D 3 st = (Ret (Some [hours; minutes; seconds]), st1) ->
  Deye.read_parameter "time_now" st =
    (Ret (Some (mkParam (Str (clock_text hours minutes seconds)) "")), st1) /\
  String.length (clock_text hours minutes seconds) = 8%nat /\
  String.get 2 (clock_text hours minutes seconds) = String.get 0 ":" /\
  String.get 5 (clock_text hours minutes seconds) = String.get 0 ":" /\
  (forall h m s,
     two_digits h -> two_digits m -> two_digits s ->
     clock_text h m s = clock_text hours minutes seconds ->
     h = hours /\ m = minutes /\ s = seconds).
Proof.
  intros Hh Hm Hs Hr.
  assert (Hd : Deye.REGISTER_MAP !! "time_now" = Some (mkReg 0x020D 3 1 ""))
    by (vm_compute; reflexivity).
  split; [exact (deye_read_parameter_time _ _ _ _ Hd Hr)|].
  destruct (format_02d_two_chars _ Hh) as (h1 & h2 & Eh).
  destruct (format_02d_two_chars _ Hm) as (m1 & m2 & Em).
  destruct (format_02d_two_chars _ Hs) as (s1 & s2 & Es).
  unfold clock_text. rewrite Eh, Em, Es. simpl.
  split; [reflexivity|]. split; [reflexivity|]. split; [reflexivity|].
  intros h m s Hh' Hm' Hs' Heq.
  destruct (format_02d_two_chars _ Hh') as (a1 & a2 & Eh').
  destruct (format_02d_two_chars _ Hm') as (b1 & b2 & Em').
  destruct (format_02d_two_chars _ Hs') as (c1 & c2 & Es').
  rewrite Eh', Em', Es' in Heq. simpl in Heq.
  injection Heq as -> -> -> -> -> ->.
  repeat split; apply format_02d_inj; try assumption; congruence.
Qed.

(** Run of X16: the words [14, 5, 9] read as ["14:05:09"]. *)
Lemma clock_text_is_exact_witness :
  let st := Scripted.session [Scripted.good [14; 5; 9]] [] in
  let st1 := mkSt Scripted.connected_adapter (Scripted.mkWorld [] [] [] 1%nat [])
                  [EvRead 0%nat 0x020D 3 1] in
  (two_digits 14 /\ two_digits 5 /\ two_digits 9 /\
   read_register 0x020D 3 st = (Ret (Some [14; 5; 9]), st1)) /\
  Deye.read_parameter "time_now" st =
    (Ret (Some (mkParam (Str (clock_text 14 5 9)) "")), st1) /\
  clock_text 14 5 9 = "14:05:09".
Proof.
  intros st st1.
  assert (H14 : two_digits 14) by (unfold two_digits; lia).
  assert (H5 : two_digits 5) by (unfold two_digits; lia).
  assert (H9 : two_digits 9) by (unfold two_digits; lia).
  assert (Hr : read_register 0x020D 3 st = (Ret (Some [14; 5; 9]), st1))
    by reflexivity.
  split; [by repeat split|]. split; [|vm_compute; reflexivity].
  exact (proj1 (clock_text_is_exact st st1 14 5 9 H14 H5 H9 Hr)).
Defined.
